(** * dispy-markdown: the rule set of [dispy_markdown/core.py]

    A shallow embedding of the Discord-flavoured Markdown rules, the HTML
    tag builder and the [to_html] dispatcher, together with the part of
    Python's [re] module that the rules rely on.

    Python strings are sequences of Unicode code points; they are modelled
    as lists of [N].  Python dictionaries that are mutated in place (the
    parse state) are threaded explicitly: a function that receives the
    state returns the state it leaves behind.  Exceptions are the [Raise]
    results of an error monad.

    The libraries that the module builds on (simpy_markdown, pygments, the
    Unicode database) are parameters of the development; where the
    behaviour of simpy_markdown's engine or sanitizer is needed, it is
    modelled from its description and marked as such. *)

From Stdlib Require Import NArith Lia Bool String Ascii Sorted FunctionalExtensionality.
From stdpp Require Import base option list gmap.

Set Warnings "-register-all".

Local Open Scope N_scope.

(** ** Strings *)

Abbreviation char := N.
Abbreviation str := (list N).

Definition hexval (c : char) : char :=
  if (48 <=? c) && (c <=? 57) then c - 48
  else if (97 <=? c) && (c <=? 102) then c - 87
  else if (65 <=? c) && (c <=? 70) then c - 55
  else 0.

(** The escapes of a Python string literal that occur in the source:
    [\n], [\\] and [\xhh]. *)
Fixpoint unescape (l : str) : str :=
  match l with
  | [] => []
  | 92 :: t =>
      match t with
      | 110 :: t' => 10 :: unescape t'
      | 92 :: t' => 92 :: unescape t'
      | 120 :: t' =>
          match t' with
          | h1 :: h2 :: t'' => (16 * hexval h1 + hexval h2) :: unescape t''
          | _ => 92 :: 120 :: t'
          end
      | _ => 92 :: unescape t
      end
  | c :: t => c :: unescape t
  end.

(** [py "..."] reads a Python string literal. *)
Definition py (s : string) : str :=
  unescape (map N_of_ascii (list_ascii_of_string s)).

Fixpoint str_eqb (a b : str) : bool :=
  match a, b with
  | [], [] => true
  | x :: a', y :: b' => (x =? y) && str_eqb a' b'
  | _, _ => false
  end.

(** [sep.join(parts)] *)
Fixpoint join (sep : str) (parts : list str) : str :=
  match parts with
  | [] => []
  | [p] => p
  | p :: rest => p ++ sep ++ join sep rest
  end.

(** Iterating over a [str] yields its one-character strings. *)
Definition chars_of (s : str) : list str := map (fun c => [c]) s.

(** ** Python's [re], as far as the rules use it *)

Module Re.

(** Members of a bracketed class.  [CPred] carries the escapes [\s], [\S],
    [\w], [\d]. *)
Inductive citem :=
| CChar (c : char)
| CRange (lo hi : char)
| CPred (p : char -> bool).

Inductive cset :=
| AnyOf (l : list citem)
| NoneOf (l : list citem).

Definition in_citem (x : char) (i : citem) : bool :=
  match i with
  | CChar c => x =? c
  | CRange lo hi => (lo <=? x) && (x <=? hi)
  | CPred p => p x
  end.

Definition in_cset (cs : cset) (x : char) : bool :=
  match cs with
  | AnyOf l => existsb (in_citem x) l
  | NoneOf l => negb (existsb (in_citem x) l)
  end.

(** [\s] on a [str] pattern: [str.isspace] of the code point. *)
Definition is_space (c : char) : bool :=
  ((9 <=? c) && (c <=? 13)) || ((28 <=? c) && (c <=? 32))
  || (c =? 133) || (c =? 160) || (c =? 5760)
  || ((8192 <=? c) && (c <=? 8202))
  || (c =? 8232) || (c =? 8233) || (c =? 8239) || (c =? 8287) || (c =? 12288).

Definition is_ascii_digit (c : char) : bool := (48 <=? c) && (c <=? 57).
Definition is_ascii_alpha (c : char) : bool :=
  ((65 <=? c) && (c <=? 90)) || ((97 <=? c) && (c <=? 122)).

Inductive regex :=
| Lit (s : str)                       (* a literal run of characters *)
| Cls (cs : cset)                     (* one character of a class *)
| Seq (a b : regex)
| Alt (a b : regex)                   (* a|b *)
| Star (greedy : bool) (a : regex)    (* a* and a*? *)
| Group (n : nat) (a : regex)         (* the n-th capturing group *)
| Look (positive : bool) (a : regex)  (* (?=a) and (?!a) *)
| Bol                                 (* ^ *)
| Eol                                 (* $ *)
| Backref (n : nat).                  (* \n *)

Definition Eps : regex := Lit [].
Definition Plus (greedy : bool) (a : regex) : regex := Seq a (Star greedy a).
Definition Opt (a : regex) : regex := Alt a Eps.
Definition cat (l : list regex) : regex := foldr Seq Eps l.

(** [[\s\S]] *)
Definition anychar : cset := AnyOf [CPred is_space; CPred (fun c => negb (is_space c))].

(** A position in the subject: the character before it (if any), the text
    after it, and the groups captured so far. *)
Record cursor := Cursor {
  c_prev : option char;
  c_rest : str;
  c_groups : list (nat * str)
}.

Definition advance (cu : cursor) (x : char) (t : str) : cursor :=
  Cursor (Some x) t (c_groups cu).

Fixpoint eat (s : str) (cu : cursor) : option cursor :=
  match s with
  | [] => Some cu
  | c :: s' =>
      match c_rest cu with
      | x :: t => if x =? c then eat s' (advance cu x t) else None
      | [] => None
      end
  end.

Definition lookup_group (n : nat) (gs : list (nat * str)) : option str :=
  snd <$> List.find (fun g => Nat.eqb (fst g) n) gs.

Definition consumed (from to : cursor) : str :=
  take (length (c_rest from) - length (c_rest to))%nat (c_rest from).

Definition set_group (n : nat) (from to : cursor) : cursor :=
  Cursor (c_prev to) (c_rest to) ((n, consumed from to) :: c_groups to).

Definition at_bol (multiline : bool) (cu : cursor) : bool :=
  match c_prev cu with
  | None => true
  | Some c => multiline && (c =? 10)
  end.

Definition at_eol (multiline : bool) (cu : cursor) : bool :=
  match c_rest cu with
  | [] => true
  | [c] => c =? 10
  | c :: _ => multiline && (c =? 10)
  end.

(** A repetition: [body] is the matcher of the repeated expression.  An
    iteration has to consume input, so [S (length rest)] rounds suffice. *)
Definition star_loop (greedy : bool)
    (body : cursor -> (cursor -> option cursor) -> option cursor)
    (k : cursor -> option cursor) : nat -> cursor -> option cursor :=
  fix loop (fuel : nat) (cu : cursor) {struct fuel} : option cursor :=
    match fuel with
    | O => k cu
    | S fuel' =>
        let again (_ : unit) :=
          body cu (fun cu' =>
            if (length (c_rest cu') <? length (c_rest cu))%nat
            then loop fuel' cu' else None) in
        if greedy
        then match again tt with Some cu' => Some cu' | None => k cu end
        else match k cu with Some cu' => Some cu' | None => again tt end
    end.

(** The backtracking matcher, in continuation-passing style: [run r cu k]
    matches [r] at [cu] and hands the position reached to [k]; when [k]
    rejects, the next alternative of [r] is tried. *)
Fixpoint run (multiline : bool) (r : regex) (cu : cursor)
    (k : cursor -> option cursor) {struct r} : option cursor :=
  match r with
  | Lit s => match eat s cu with Some cu' => k cu' | None => None end
  | Cls cs =>
      match c_rest cu with
      | x :: t => if in_cset cs x then k (advance cu x t) else None
      | [] => None
      end
  | Seq a b => run multiline a cu (fun cu' => run multiline b cu' k)
  | Alt a b =>
      match run multiline a cu k with
      | Some cu' => Some cu'
      | None => run multiline b cu k
      end
  | Star greedy a =>
      star_loop greedy (run multiline a) k (S (length (c_rest cu))) cu
  | Group n a => run multiline a cu (fun cu' => k (set_group n cu cu'))
  | Look positive a =>
      match run multiline a cu Some with
      | Some cu' =>
          if positive then k (Cursor (c_prev cu) (c_rest cu) (c_groups cu')) else None
      | None => if positive then None else k cu
      end
  | Bol => if at_bol multiline cu then k cu else None
  | Eol => if at_eol multiline cu then k cu else None
  | Backref n =>
      match lookup_group n (c_groups cu) with
      | Some s => match eat s cu with Some cu' => k cu' | None => None end
      | None => None
      end
  end.

(** A match object: [m[0]] and the numbered groups ([None] when a group
    took no part in the match). *)
Record Match := MkMatch {
  whole : str;
  groups : list (nat * str)
}.

Definition group (m : Match) (n : nat) : option str := lookup_group n (groups m).

(** The pattern tried at one position. *)
Definition exec (multiline : bool) (r : regex) (prev : option char) (s : str)
    : option Match :=
  let start := Cursor prev s [] in
  match run multiline r start Some with
  | Some cu => Some (MkMatch (consumed start cu) (c_groups cu))
  | None => None
  end.

Fixpoint search_from (multiline : bool) (r : regex) (prev : option char) (s : str)
    : option Match :=
  match exec multiline r prev s with
  | Some m => Some m
  | None =>
      match s with
      | [] => None
      | c :: t => search_from multiline r (Some c) t
      end
  end.

(** [re.search(r, s, flags)] *)
Definition search (multiline : bool) (r : regex) (s : str) : option Match :=
  search_from multiline r None s.

Definition spend (limit : option nat) : option nat := Nat.pred <$> limit.

(** [re.sub]: [limit] is [None] for [count=0] (no limit); [skip] counts
    the characters of the last match still to be passed over. *)
Fixpoint sub_from (multiline : bool) (r : regex) (repl : Match -> str)
    (limit : option nat) (skip : nat) (prev : option char) (s : str) : str :=
  match skip with
  | S n =>
      match s with
      | c :: t => sub_from multiline r repl limit n (Some c) t
      | [] => []
      end
  | O =>
      let found :=
        match limit with
        | Some O => None
        | _ => exec multiline r prev s
        end in
      match found with
      | Some m =>
          repl m ++
          match length (whole m), s with
          | _, [] => []
          | O, c :: t => c :: sub_from multiline r repl (spend limit) O (Some c) t
          | S n, c :: t => sub_from multiline r repl (spend limit) n (Some c) t
          end
      | None =>
          match s with
          | c :: t => c :: sub_from multiline r repl limit O (Some c) t
          | [] => []
          end
      end
  end.

(** [re.sub(r, repl, s, count=count, flags=flags)] *)
Definition sub (multiline : bool) (r : regex) (repl : Match -> str)
    (count : nat) (s : str) : str :=
  sub_from multiline r repl (match count with O => None | _ => Some count end) O None s.

End Re.

Import Re.

Definition ch (a : ascii) : char := N_of_ascii a.
Arguments ch _%_char.

Definition digit09 : cset := AnyOf [CRange (ch "0") (ch "9")].
Definition not_newline : cset := NoneOf [CChar 10].
Definition spaces : regex := Star true (Lit (py " ")).

Fixpoint alts (l : list regex) : regex :=
  match l with
  | [] => Cls (AnyOf [])
  | [a] => a
  | a :: t => Alt a (alts t)
  end.

(** ** Python values, exceptions *)

Inductive pyval :=
| VNone
| VBool (b : bool)
| VStr (s : str)
| VList (l : list pyval)
| VDict (d : list (str * pyval))
| VAttr (owner : pyval) (name : str).   (* a method or slot of [owner] *)

Inductive exn :=
| Exception (msg : str)
| TypeError
| AttributeError
| KeyError
| ClassNotFound
| RecursionError.

Inductive result (A : Type) :=
| Ok (a : A)
| Raise (e : exn).
Arguments Ok {A} a.
Arguments Raise {A} e.

Definition bind {A B} (m : result A) (f : A -> result B) : result B :=
  match m with
  | Ok a => f a
  | Raise e => Raise e
  end.

Notation "x <- m ;; k" := (bind m (fun x => k))
  (at level 20, m at level 99, k at level 200, only parsing).

(** Truth value of an object. *)
Definition truthy (v : pyval) : bool :=
  match v with
  | VNone => false
  | VBool b => b
  | VStr s => negb (str_eqb s [])
  | VList l => match l with [] => false | _ => true end
  | VDict d => match d with [] => false | _ => true end
  | VAttr _ _ => true
  end.

Fixpoint assoc {A} (k : str) (d : list (str * A)) : option A :=
  match d with
  | [] => None
  | (k', v) :: d' => if str_eqb k' k then Some v else assoc k d'
  end.

(** [d[k] = v] on a dict: an existing key keeps its place. *)
Fixpoint assoc_set {A} (k : str) (v : A) (d : list (str * A)) : list (str * A) :=
  match d with
  | [] => [(k, v)]
  | (k', v') :: d' => if str_eqb k' k then (k', v) :: d' else (k', v') :: assoc_set k v d'
  end.

(** [v[k]] *)
Definition getitem (v : pyval) (k : str) : result pyval :=
  match v with
  | VDict d => match assoc k d with Some x => Ok x | None => Raise KeyError end
  | _ => Raise TypeError
  end.

(** The attributes of the built-in types ([dir] of the type): the keys
    of a dict are not among them. *)
Definition dict_attributes : list string :=
  [
    "__class__"; "__class_getitem__"; "__contains__"; "__delattr__";
    "__delitem__"; "__dir__"; "__doc__"; "__eq__"; "__format__"; "__ge__";
    "__getattribute__"; "__getitem__"; "__getstate__"; "__gt__";
    "__hash__"; "__init__"; "__init_subclass__"; "__ior__"; "__iter__";
    "__le__"; "__len__"; "__lt__"; "__ne__"; "__new__"; "__or__";
    "__reduce__"; "__reduce_ex__"; "__repr__"; "__reversed__"; "__ror__";
    "__setattr__"; "__setitem__"; "__sizeof__"; "__str__";
    "__subclasshook__"; "clear"; "copy"; "fromkeys"; "get"; "items";
    "keys"; "pop"; "popitem"; "setdefault"; "update"; "values"
  ]%string.

Definition list_attributes : list string :=
  [
    "__add__"; "__class__"; "__class_getitem__"; "__contains__";
    "__delattr__"; "__delitem__"; "__dir__"; "__doc__"; "__eq__";
    "__format__"; "__ge__"; "__getattribute__"; "__getitem__";
    "__getstate__"; "__gt__"; "__hash__"; "__iadd__"; "__imul__";
    "__init__"; "__init_subclass__"; "__iter__"; "__le__"; "__len__";
    "__lt__"; "__mul__"; "__ne__"; "__new__"; "__reduce__";
    "__reduce_ex__"; "__repr__"; "__reversed__"; "__rmul__";
    "__setattr__"; "__setitem__"; "__sizeof__"; "__str__";
    "__subclasshook__"; "append"; "clear"; "copy"; "count"; "extend";
    "index"; "insert"; "pop"; "remove"; "reverse"; "sort"
  ]%string.

Definition str_attributes : list string :=
  [
    "__add__"; "__class__"; "__contains__"; "__delattr__"; "__dir__";
    "__doc__"; "__eq__"; "__format__"; "__ge__"; "__getattribute__";
    "__getitem__"; "__getnewargs__"; "__getstate__"; "__gt__"; "__hash__";
    "__init__"; "__init_subclass__"; "__iter__"; "__le__"; "__len__";
    "__lt__"; "__mod__"; "__mul__"; "__ne__"; "__new__"; "__reduce__";
    "__reduce_ex__"; "__repr__"; "__rmod__"; "__rmul__"; "__setattr__";
    "__sizeof__"; "__str__"; "__subclasshook__"; "capitalize"; "casefold";
    "center"; "count"; "encode"; "endswith"; "expandtabs"; "find";
    "format"; "format_map"; "index"; "isalnum"; "isalpha"; "isascii";
    "isdecimal"; "isdigit"; "isidentifier"; "islower"; "isnumeric";
    "isprintable"; "isspace"; "istitle"; "isupper"; "join"; "ljust";
    "lower"; "lstrip"; "maketrans"; "partition"; "removeprefix";
    "removesuffix"; "replace"; "rfind"; "rindex"; "rjust"; "rpartition";
    "rsplit"; "rstrip"; "split"; "splitlines"; "startswith"; "strip";
    "swapcase"; "title"; "translate"; "upper"; "zfill"
  ]%string.

Definition bool_attributes : list string :=
  [
    "__abs__"; "__add__"; "__and__"; "__bool__"; "__ceil__"; "__class__";
    "__delattr__"; "__dir__"; "__divmod__"; "__doc__"; "__eq__";
    "__float__"; "__floor__"; "__floordiv__"; "__format__"; "__ge__";
    "__getattribute__"; "__getnewargs__"; "__getstate__"; "__gt__";
    "__hash__"; "__index__"; "__init__"; "__init_subclass__"; "__int__";
    "__invert__"; "__le__"; "__lshift__"; "__lt__"; "__mod__"; "__mul__";
    "__ne__"; "__neg__"; "__new__"; "__or__"; "__pos__"; "__pow__";
    "__radd__"; "__rand__"; "__rdivmod__"; "__reduce__"; "__reduce_ex__";
    "__repr__"; "__rfloordiv__"; "__rlshift__"; "__rmod__"; "__rmul__";
    "__ror__"; "__round__"; "__rpow__"; "__rrshift__"; "__rshift__";
    "__rsub__"; "__rtruediv__"; "__rxor__"; "__setattr__"; "__sizeof__";
    "__str__"; "__sub__"; "__subclasshook__"; "__truediv__"; "__trunc__";
    "__xor__"; "as_integer_ratio"; "bit_count"; "bit_length"; "conjugate";
    "denominator"; "from_bytes"; "imag"; "numerator"; "real"; "to_bytes"
  ]%string.

Definition none_attributes : list string :=
  [
    "__bool__"; "__class__"; "__delattr__"; "__dir__"; "__doc__";
    "__eq__"; "__format__"; "__ge__"; "__getattribute__"; "__getstate__";
    "__gt__"; "__hash__"; "__init__"; "__init_subclass__"; "__le__";
    "__lt__"; "__ne__"; "__new__"; "__reduce__"; "__reduce_ex__";
    "__repr__"; "__setattr__"; "__sizeof__"; "__str__"; "__subclasshook__"
  ]%string.

Definition attributes_of (v : pyval) : list string :=
  match v with
  | VNone => none_attributes
  | VBool _ => bool_attributes
  | VStr _ => str_attributes
  | VList _ => list_attributes
  | VDict _ => dict_attributes
  | VAttr _ _ => []
  end.

(** [v.name]: an attribute of the type of [v], or [AttributeError].
    Attributes of methods are not modelled. *)
Definition getattr (v : pyval) (name : str) : result pyval :=
  if existsb (fun a => str_eqb (py a) name) (attributes_of v)
  then Ok (VAttr v name)
  else Raise AttributeError.

(** [v == s] for a string [s] *)
Definition eq_str (v : pyval) (s : str) : bool :=
  match v with
  | VStr t => str_eqb t s
  | _ => false
  end.

Definition as_str (v : pyval) : result str :=
  match v with
  | VStr s => Ok s
  | _ => Raise TypeError
  end.

(** [o is not None] *)
Definition given {A} (o : option A) : bool :=
  match o with Some _ => true | None => false end.

Definition str_truthy (s : str) : bool :=
  match s with [] => false | _ => true end.

(** [s.strip()] *)
Fixpoint lstrip (s : str) : str :=
  match s with
  | c :: t => if is_space c then lstrip t else s
  | [] => []
  end.

Definition strip (s : str) : str := rev (lstrip (rev (lstrip s))).

(** [s.split()]: the maximal runs of non-whitespace. *)
Fixpoint split_ws_go (word : str) (s : str) : list str :=
  match s with
  | [] => match word with [] => [] | _ => [rev word] end
  | c :: t =>
      if is_space c
      then match word with [] => split_ws_go [] t | _ => rev word :: split_ws_go [] t end
      else split_ws_go (c :: word) t
  end.

Definition split_ws (s : str) : list str := split_ws_go [] s.

(** ** The parse state

    The dict that [to_html] builds and every rule receives.  [prev_capture]
    is the text of the capture consumed last, which the engine hands to
    [match] as [previous_source]. *)

Record Callbacks := MkCallbacks {
  cb_user : pyval -> result str;
  cb_channel : pyval -> result str;
  cb_role : pyval -> result str;
  cb_everyone : pyval -> result str;
  cb_here : pyval -> result str
}.

Record State := MkState {
  inline : bool;
  in_quote : bool;
  in_emphasis : bool;
  escape_html : bool;
  css_module_names : option (gmap str str);
  discord_callback : Callbacks;
  prev_capture : str
}.

Definition set_in_quote (b : bool) (st : State) : State :=
  MkState (inline st) b (in_emphasis st) (escape_html st)
          (css_module_names st) (discord_callback st) (prev_capture st).

Definition set_in_emphasis (b : bool) (st : State) : State :=
  MkState (inline st) (in_quote st) b (escape_html st)
          (css_module_names st) (discord_callback st) (prev_capture st).

Definition set_prev_capture (s : str) (st : State) : State :=
  MkState (inline st) (in_quote st) (in_emphasis st) (escape_html st)
          (css_module_names st) (discord_callback st) s.

(** Truth value of the state dict: it always holds its flags, so it is a
    non-empty dict.  The rules that call [html_tag] with four positional
    arguments pass the state in the place of [is_closed]; the [state]
    parameter of [html_tag] then keeps its default [None]. *)
Definition state_truthy (st : State) : bool := true.

(** A remap table counts as configured when it is a non-empty dict. *)
Definition table_truthy (t : gmap str str) : bool := negb (bool_decide (t = ∅)).

(** [table.get(cl, cl)] *)
Definition remap (t : gmap str str) (cl : str) : str := default cl (t !! cl).

(** ** Rules *)

(** The matcher objects that [md.inline_regex] and [md.any_scope_regex]
    build from a pattern. *)
Inductive helper :=
| InlineRegex (r : regex) (ignorecase : bool)
| AnyScopeRegex (r : regex).

(** What a rule's [match] returns. *)
Inductive MatchValue :=
| NoMatch
| Matched (m : Match)
| Helper (h : helper).

Definition of_search (o : option Match) : MatchValue :=
  match o with Some m => Matched m | None => NoMatch end.

(** The [parse] and [output] callbacks handed to a rule.  The state dict is
    shared with the callee, so a callback returns the state it leaves. *)
Definition ParseFn : Type := str -> State -> result (pyval * State).
Definition OutputFn : Type := pyval -> State -> result str.

Record Rule := MkRule {
  order : nat;
  rule_match : str -> State -> str -> MatchValue;
  rule_parse : Match -> ParseFn -> State -> result (pyval * State);
  rule_html : pyval -> OutputFn -> State -> result str
}.

(** [capture[n]] *)
Definition capture_at (m : Match) (n : nat) : pyval :=
  match n with
  | O => VStr (whole m)
  | _ => match group m n with Some s => VStr s | None => VNone end
  end.

(** [capture[n] or ''] *)
Definition capture_or_empty (m : Match) (n : nat) : str :=
  default [] (group m n).

(** The rules of the base grammar that the module refers to. *)
Inductive base_name :=
| b_block_quote | b_code_block | b_newline | b_escape | b_autolink | b_url
| b_em | b_strong | b_u | b_del | b_inline_code | b_text | b_br | b_link.

(** ** Reference collaborators

    One choice of the collaborators, for the examples at the end: the
    usual escape codes, Unicode tables that know ASCII only, a lexer
    lookup that knows no language, and a base grammar in the order of
    simple-markdown whose rules match nothing. *)

Definition html_entity (c : char) : str :=
  if c =? 38 then py "&amp;"
  else if c =? 60 then py "&lt;"
  else if c =? 62 then py "&gt;"
  else if c =? 34 then py "&quot;"
  else py "&#x27;".

Definition ascii_only : char -> bool := fun _ => false.

Definition base_order (b : base_name) : nat :=
  match b with
  | b_code_block => 4
  | b_block_quote => 6
  | b_newline => 10
  | b_escape => 12
  | b_autolink => 14
  | b_url => 16
  | b_link => 17
  | b_em | b_strong | b_u => 21
  | b_del => 22
  | b_inline_code => 23
  | b_br => 24
  | b_text => 25
  end%nat.

Definition silent_rule (o : nat) : Rule :=
  MkRule o (fun _ _ _ => NoMatch)
         (fun capture _ st => Ok (VDict [(py "content", VStr (whole capture))], st))
         (fun _ _ _ => Ok []).

Definition silent_rules (b : base_name) : Rule := silent_rule (base_order b).

Definition no_lexer : str -> result (option unit) := fun _ => Ok None.

Definition silent_callbacks : Callbacks :=
  MkCallbacks (fun _ => Ok []) (fun _ => Ok []) (fun _ => Ok [])
              (fun _ => Ok []) (fun _ => Ok []).

(** A state as [to_html] builds it, with callbacks that return nothing. *)
Definition fresh_state : State :=
  MkState true false false true None silent_callbacks [].

Section Dispy.

(** *** Collaborators

    The Unicode tables behind [\w] and [\d] above ASCII, the escape codes
    of the sanitizer, the URL sanitizer, pygments' lexer lookup and
    highlighter, and the base grammar of simpy_markdown. *)

Variable unicode_alnum : char -> bool.
Variable unicode_decimal : char -> bool.
Variable entity : char -> str.
Variable sanitize_url : str -> option str.
Variable Lexer : Type.
Variable get_lexer_by_name : str -> result (option Lexer).
Variable highlight : str -> Lexer -> str.
Variable default_rules : base_name -> Rule.

(** [\w] and [\d] of a [str] pattern. *)
Definition is_word (c : char) : bool :=
  if c <? 128 then is_ascii_alpha c || is_ascii_digit c || (c =? 95)
  else unicode_alnum c.

Definition is_digit (c : char) : bool :=
  if c <? 128 then is_ascii_digit c else unicode_decimal c.

Definition html_unsafe (c : char) : bool :=
  (c =? 38) || (c =? 60) || (c =? 62) || (c =? 34) || (c =? 39).

(** Modelled from the spec: the sanitizer [md.sanitize_text] of
    simpy_markdown, which HTML-escapes the five characters ampersand,
    less-than, greater-than, double quote and apostrophe and leaves every
    other character as it is; the escape code of each of the five is
    [entity]. *)
Definition sanitize_text (s : str) : str :=
  flat_map (fun c => if html_unsafe c then entity c else [c]) s.

(** *** html_tag *)

Definition value_truthy (v : option str) : bool :=
  match v with Some s => str_truthy s | None => false end.

Definition html_tag (tag_name content : str)
    (attributes : option (list (str * option str)))
    (is_closed : bool) (state : option State) : str :=
  let attributes := default [] attributes in
  let table := state ≫= css_module_names in
  let attributes :=
    match assoc (py "class") attributes, table with
    | Some (Some cls), Some t =>
        if str_truthy cls && table_truthy t
        then assoc_set (py "class")
               (Some (join (py " ") (map (remap t) (chars_of cls)))) attributes
        else attributes
    | _, _ => attributes
    end in
  let attr_string :=
    join (py " ")
      (map (fun a => sanitize_text (fst a) ++ py "=\x22"
                     ++ sanitize_text (default [] (snd a)) ++ py "\x22")
           (List.filter (fun a => value_truthy (snd a)) attributes)) in
  let unclosed_tag := py "<" ++ tag_name ++ py " " ++ attr_string ++ py ">" in
  if is_closed
  then unclosed_tag ++ content ++ py "</" ++ tag_name ++ py ">"
  else unclosed_tag.

(** *** BlockQuote *)

(** The test on [previous_source] (core.py:35): empty, or ending in a
    newline followed by spaces only. *)
Definition line_boundary_re : regex :=
  Alt (Seq Bol Eol) (cat [Lit (py "\n"); spaces; Eol]).

(** The quote pattern (core.py:36).  Group 1 is the block form, three
    markers, a space and (group 2) all that follows; group 3 is the line
    form, one or more lines (group 4 the later ones) that start with a
    marker and a space, and an optional final newline. *)
Definition block_quote_re : regex :=
  Alt
    (Seq Bol (Group 1 (cat [spaces; Lit (py ">>> ");
                            Group 2 (Star true (Cls anychar))])))
    (Seq Bol (Group 3 (cat [spaces; Lit (py "> "); Star true (Cls not_newline);
                            Star true (Group 4 (cat [Lit (py "\n"); spaces; Lit (py "> ");
                                                     Star true (Cls not_newline)]));
                            Opt (Lit (py "\n"))]))).

(** The two marker patterns of [parse] (core.py:41-42): leading spaces,
    the marker, an optional space. *)
Definition block_marker_re : regex := cat [Bol; spaces; Lit (py ">>>"); Opt (Lit (py " "))].
Definition line_marker_re : regex := cat [Bol; spaces; Lit (py ">"); Opt (Lit (py " "))].

Definition BlockQuote_match (source : str) (state : State) (previous_source : str)
    : MatchValue :=
  if negb (given (search false line_boundary_re previous_source)) || in_quote state
  then NoMatch
  else of_search (search false block_quote_re source).

Definition BlockQuote_parse (capture : Match) (parse : ParseFn) (state : State)
    : result (pyval * State) :=
  let all_ := whole capture in
  let is_block := given (search false block_marker_re all_) in
  let content :=
    if is_block
    then sub false block_marker_re (fun _ => []) 1 all_
    else sub true line_marker_re (fun _ => []) 0 all_ in
  let state := set_in_quote true state in
  r <- parse content state ;;
  let '(nodes, state) := r in
  Ok (VDict [(py "content", nodes); (py "type", VStr (py "block_quote"))], state).

Definition BlockQuote (o : nat) : Rule :=
  MkRule o BlockQuote_match BlockQuote_parse (rule_html (default_rules b_block_quote)).

(** *** CodeBlock *)

(** The fence pattern (core.py:57): group 2 the language tag, group 3
    the code. *)
Definition code_block_re : regex :=
  cat [Bol; Lit (py "```");
       Opt (Group 1 (cat [Group 2 (Plus false (Cls (AnyOf [CRange (ch "a") (ch "z");
                                                          CRange (ch "0") (ch "9");
                                                          CChar (ch "-")])));
                          Plus true (Lit (py "\n"))]));
       Star true (Lit (py "\n"));
       Group 3 (Plus false (Cls anychar));
       Star true (Lit (py "\n"));
       Lit (py "```")].

Definition CodeBlock_match (source : str) (state : State) (previous_source : str)
    : MatchValue :=
  Helper (InlineRegex code_block_re true).

Definition CodeBlock_parse (capture : Match) (parse : ParseFn) (state : State)
    : result (pyval * State) :=
  Ok (VDict [(py "lang", VStr (strip (capture_or_empty capture 2)));
             (py "content", VStr (capture_or_empty capture 3));
             (py "in_quote", VBool (in_quote state))], state).

(** The opening span tag that the highlighter emits (core.py:74); group 1
    is the class list. *)
Definition span_class_re : regex :=
  cat [Lit (py "<span class=\x22");
       Group 1 (Plus true (Cls (AnyOf [CRange (ch "a") (ch "z");
                                       CRange (ch "0") (ch "9");
                                       CChar (ch "-"); CChar (ch "_"); CChar (ch " ")])));
       Lit (py "\x22>")].

(** The class suffix of the [code] tag. *)
Definition hljs_class (lang : str) (highlighted : bool) : str :=
  py "hljs" ++ (if highlighted then py " " ++ lang else []).

Definition CodeBlock_html (node : pyval) (output : OutputFn) (state : State)
    : result str :=
  lang <- getitem node (py "lang") ;;
  code <-
    (if truthy lang then
       name <- as_str lang ;;
       lexer <- get_lexer_by_name name ;;
       match lexer with
       | Some lx =>
           content <- getitem node (py "content") ;;
           text <- as_str content ;;
           Ok (Some (highlight text lx))
       | None => Ok None
       end
     else Ok None) ;;
  let code :=
    match code, css_module_names state with
    | Some c, Some t =>
        if str_truthy c && table_truthy t
        then Some (sub false span_class_re
                     (fun m => join (py " ") (map (remap t) (split_ws (capture_or_empty m 1))))
                     0 c)
        else code
    | _, _ => code
    end in
  let highlighted := match code with Some c => str_truthy c | None => false end in
  inner <-
    (if highlighted then Ok (default [] code)
     else content <- getattr node (py "content") ;;
          text <- as_str content ;;
          Ok (sanitize_text text)) ;;
  cls <-
    (if highlighted
     then l <- getitem node (py "lang") ;; name <- as_str l ;; Ok (hljs_class name true)
     else Ok (hljs_class [] false)) ;;
  Ok (html_tag (py "pre")
        (html_tag (py "code") inner (Some [(py "class", Some cls)])
                  (state_truthy state) None)
        None (state_truthy state) None).

Definition CodeBlock (o : nat) : Rule :=
  MkRule o CodeBlock_match CodeBlock_parse CodeBlock_html.

(** *** AutoLink, URL *)

Definition AutoLink_parse (capture : Match) (parse : ParseFn) (state : State)
    : result (pyval * State) :=
  Ok (VDict [(py "content", VList [VDict [(py "type", VStr (py "text"));
                                          (py "content", capture_at capture 1)]]);
             (py "target", capture_at capture 1)], state).

Definition AutoLink_html (node : pyval) (output : OutputFn) (state : State)
    : result str :=
  content <- getitem node (py "content") ;;
  inner <- output content state ;;
  target <- getitem node (py "target") ;;
  url <- as_str target ;;
  Ok (html_tag (py "a") inner (Some [(py "href", sanitize_url url)])
               (state_truthy state) None).

Definition AutoLink (o : nat) : Rule :=
  MkRule o (rule_match (default_rules b_autolink)) AutoLink_parse AutoLink_html.

Definition URL_parse (capture : Match) (parse : ParseFn) (state : State)
    : result (pyval * State) :=
  Ok (VDict [(py "content", VList [VDict [(py "type", VStr (py "text"));
                                          (py "content", capture_at capture 1)]]);
             (py "target", capture_at capture 1)], state).

Definition URL_html (node : pyval) (output : OutputFn) (state : State)
    : result str :=
  content <- getitem node (py "content") ;;
  inner <- output content state ;;
  target <- getitem node (py "target") ;;
  url <- as_str target ;;
  Ok (html_tag (py "a") inner (Some [(py "href", sanitize_url url)])
               (state_truthy state) None).

Definition URL (o : nat) : Rule :=
  MkRule o (rule_match (default_rules b_url)) URL_parse URL_html.

(** *** Em *)

(** The classes that matter to [super]: [re.Match], and the rule class
    [Em] with its base class. *)
Inductive pyclass := class_Match | class_base_em | class_Em.

(** [issubclass(a, b)] *)
Definition issubclass (a b : pyclass) : bool :=
  match a, b with
  | class_Match, class_Match => true
  | class_base_em, class_base_em => true
  | class_Em, class_Em => true
  | class_Em, class_base_em => true
  | _, _ => false
  end.

(** A capture is an [re.Match]. *)
Definition class_of_capture (capture : Match) : pyclass := class_Match.

(** [super()] without arguments, inside a function written in the body of
    class [cls], stands for [super(cls, a)] with [a] the first parameter of
    the function; it raises [TypeError] unless [a] is an instance of [cls]
    (or a subclass of it).  [parent] is what the proxy then resolves the
    attribute to. *)
Definition zero_arg_super {A} (cls first_parameter : pyclass) (parent : A) : result A :=
  if issubclass first_parameter cls then Ok parent else Raise TypeError.

(** [Em.parse] is a static method, so the first parameter that [super()]
    finds is [capture].  [_state] is a copy: what the nested parse does to
    it does not reach the caller's [state]. *)
Definition Em_parse (capture : Match) (parse : ParseFn) (state : State)
    : result (pyval * State) :=
  let _state := set_in_emphasis true state in
  base_parse <- zero_arg_super class_Em (class_of_capture capture)
                               (rule_parse (default_rules b_em)) ;;
  r <- base_parse capture parse _state ;;
  let parsed := fst r in
  if in_emphasis state
  then content <- getitem parsed (py "content") ;; Ok (content, state)
  else Ok (parsed, state).

Definition Em (o : nat) : Rule :=
  MkRule o (rule_match (default_rules b_em)) Em_parse (rule_html (default_rules b_em)).

(** *** Strike, InlineCode, Br *)

(** Two tildes, one or more characters (lazily, group 1), two tildes not
    followed by an underscore (core.py:133). *)
Definition strike_re : regex :=
  cat [Bol; Lit (py "~~"); Group 1 (Plus false (Cls anychar)); Lit (py "~~");
       Look false (Lit (py "_"))].

Definition Strike_match (source : str) (state : State) (previous_source : str)
    : MatchValue :=
  Helper (InlineRegex strike_re false).

Definition Strike (o : nat) : Rule :=
  MkRule o Strike_match
         (rule_parse (default_rules b_del)) (rule_html (default_rules b_del)).

Definition backtick : cset := AnyOf [CChar (ch "`")].

(** A run of backticks (group 1), the code (group 2, lazily, ending in a
    character that is no backtick), the same run again, not followed by a
    backtick (core.py:140). *)
Definition inline_code_re : regex :=
  cat [Bol; Group 1 (Plus true (Cls backtick));
       Group 2 (Seq (Star false (Cls anychar)) (Cls (NoneOf [CChar (ch "`")])));
       Backref 1; Look false (Cls backtick)].

Definition InlineCode_match (source : str) (state : State) (previous_source : str)
    : MatchValue :=
  of_search (search false inline_code_re source).

Definition InlineCode_html (node : pyval) (output : OutputFn) (state : State)
    : result str :=
  content <- getitem node (py "content") ;;
  text <- as_str content ;;
  Ok (html_tag (py "code") (sanitize_text (strip text)) None (state_truthy state) None).

Definition InlineCode (o : nat) : Rule :=
  MkRule o InlineCode_match (rule_parse (default_rules b_inline_code)) InlineCode_html.

Definition Br_match (source : str) (state : State) (previous_source : str)
    : MatchValue :=
  Helper (AnyScopeRegex (cat [Bol; Lit (py "\n")])).

Definition Br (o : nat) : Rule :=
  MkRule o Br_match (rule_parse (default_rules b_br)) (rule_html (default_rules b_br)).

(** *** Text *)

(** One or more characters, as few as possible, up to a position that is
    followed by a character outside digits, ASCII letters, whitespace, the
    code points from U+00C0 to U+FFFF and the hyphen, or by a newline, or
    by word characters, a colon and a non-space, or by the end of the
    input (core.py:151). *)
Definition text_stop_re : regex :=
  alts [Cls (NoneOf [CRange (ch "0") (ch "9"); CRange (ch "A") (ch "Z");
                     CRange (ch "a") (ch "z"); CPred is_space;
                     CRange 192 65535; CChar (ch "-")]);
        Lit (py "\n\n");
        Lit (py "\n");
        cat [Plus true (Cls (AnyOf [CPred is_word])); Lit (py ":");
             Cls (AnyOf [CPred (fun c => negb (is_space c))])];
        Eol].

Definition text_re : regex :=
  cat [Bol; Plus false (Cls anychar); Look true text_stop_re].

Definition Text_match (source : str) (state : State) (previous_source : str)
    : MatchValue :=
  of_search (search false text_re source).

Definition Text_html (node : pyval) (output : OutputFn) (state : State) : result str :=
  content <- getitem node (py "content") ;;
  text <- as_str content ;;
  Ok (if escape_html state then sanitize_text text else text).

Definition Text (o : nat) : Rule :=
  MkRule o Text_match (rule_parse (default_rules b_text)) Text_html.

(** *** Emoticon, Spoiler *)

(** The shrug, as code points (core.py:165). *)
Definition emoticon_re : regex :=
  cat [Bol; Group 1 (Lit [175; 92; 95; 40; 12484; 41; 95; 47; 175])].

Definition Emoticon_match (source : str) (state : State) (previous_source : str)
    : MatchValue :=
  of_search (search false emoticon_re source).

Definition Emoticon_parse (capture : Match) (parse : ParseFn) (state : State)
    : result (pyval * State) :=
  Ok (VDict [(py "type", VStr (py "text")); (py "content", capture_at capture 1)], state).

Definition Emoticon_html (node : pyval) (output : OutputFn) (state : State)
    : result str :=
  content <- getitem node (py "content") ;;
  output content state.

Definition Emoticon (o : nat) : Rule :=
  MkRule o Emoticon_match Emoticon_parse Emoticon_html.

(** Two bars, one or more characters (lazily, group 1), two bars
    (core.py:190). *)
Definition spoiler_re : regex :=
  cat [Bol; Lit (py "||"); Group 1 (Plus false (Cls anychar)); Lit (py "||")].

Definition Spoiler_match (source : str) (state : State) (previous_source : str)
    : MatchValue :=
  of_search (search false spoiler_re source).

Definition Spoiler_parse (capture : Match) (parse : ParseFn) (state : State)
    : result (pyval * State) :=
  inner <- as_str (capture_at capture 1) ;;
  r <- parse inner state ;;
  let '(nodes, state) := r in
  Ok (VDict [(py "content", nodes)], state).

Definition Spoiler_html (node : pyval) (output : OutputFn) (state : State)
    : result str :=
  content <- getitem node (py "content") ;;
  inner <- output content state ;;
  Ok (html_tag (py "span") inner (Some [(py "class", Some (py "d-spoiler"))])
               (state_truthy state) None).

Definition Spoiler (o : nat) : Rule :=
  MkRule o Spoiler_match Spoiler_parse Spoiler_html.

(** *** Mentions and emoji *)

Definition discord_callback_defaults : Callbacks :=
  MkCallbacks
    (fun node => id <- getitem node (py "id") ;; s <- as_str id ;;
                 Ok (py "@" ++ sanitize_text s))
    (fun node => id <- getitem node (py "id") ;; s <- as_str id ;;
                 Ok (py "#" ++ sanitize_text s))
    (fun node => id <- getitem node (py "id") ;; s <- as_str id ;;
                 Ok (py "&" ++ sanitize_text s))
    (fun node => Ok (py "@everyone"))
    (fun node => Ok (py "@here")).

(** core.py:235, 252, 269: the bracket, the sigil, the id (group 1), the
    closing bracket. *)
Definition discord_user_re : regex :=
  cat [Bol; Lit (py "<@"); Opt (Lit (py "!")); Group 1 (Star true (Cls digit09));
       Lit (py ">")].

Definition discord_channel_re : regex :=
  cat [Bol; Lit (py "<"); Opt (Lit (py "#")); Group 1 (Star true (Cls digit09));
       Lit (py ">")].

Definition discord_role_re : regex :=
  cat [Bol; Lit (py "<@&"); Group 1 (Star true (Cls digit09)); Lit (py ">")].

Definition DiscordUser_match (source : str) (state : State) (previous_source : str)
    : MatchValue :=
  of_search (search false discord_user_re source).

Definition DiscordUser_parse (capture : Match) (parse : ParseFn) (state : State)
    : result (pyval * State) :=
  Ok (VDict [(py "id", capture_at capture 1)], state).

Definition DiscordUser_html (node : pyval) (output : OutputFn) (state : State)
    : result str :=
  inner <- cb_user (discord_callback state) node ;;
  Ok (html_tag (py "span") inner (Some [(py "class", Some (py "d-mention d-user"))])
               (state_truthy state) None).

Definition DiscordUser (o : nat) : Rule :=
  MkRule o DiscordUser_match DiscordUser_parse DiscordUser_html.

Definition DiscordChannel_match (source : str) (state : State) (previous_source : str)
    : MatchValue :=
  of_search (search false discord_channel_re source).

Definition DiscordChannel_parse (capture : Match) (parse : ParseFn) (state : State)
    : result (pyval * State) :=
  Ok (VDict [(py "id", capture_at capture 1)], state).

Definition DiscordChannel_html (node : pyval) (output : OutputFn) (state : State)
    : result str :=
  inner <- cb_channel (discord_callback state) node ;;
  Ok (html_tag (py "span") inner (Some [(py "class", Some (py "d-mention d-channel"))])
               (state_truthy state) None).

Definition DiscordChannel (o : nat) : Rule :=
  MkRule o DiscordChannel_match DiscordChannel_parse DiscordChannel_html.

Definition DiscordRole_match (source : str) (state : State) (previous_source : str)
    : MatchValue :=
  of_search (search false discord_role_re source).

Definition DiscordRole_parse (capture : Match) (parse : ParseFn) (state : State)
    : result (pyval * State) :=
  Ok (VDict [(py "id", capture_at capture 1)], state).

Definition DiscordRole_html (node : pyval) (output : OutputFn) (state : State)
    : result str :=
  inner <- cb_role (discord_callback state) node ;;
  Ok (html_tag (py "span") inner (Some [(py "class", Some (py "d-mention d-role"))])
               (state_truthy state) None).

Definition DiscordRole (o : nat) : Rule :=
  MkRule o DiscordRole_match DiscordRole_parse DiscordRole_html.

(** core.py:286: the bracket, an optional [a] (group 1), a colon, the name
    (group 2, word characters), a colon, the id (group 3, digits), the
    closing bracket. *)
Definition discord_emoji_re : regex :=
  cat [Bol; Lit (py "<"); Group 1 (Opt (Lit (py "a"))); Lit (py ":");
       Group 2 (Plus true (Cls (AnyOf [CPred is_word]))); Lit (py ":");
       Group 3 (Plus true (Cls (AnyOf [CPred is_digit]))); Lit (py ">")].

Definition DiscordEmoji_match (source : str) (state : State) (previous_source : str)
    : MatchValue :=
  of_search (search false discord_emoji_re source).

Definition DiscordEmoji_parse (capture : Match) (parse : ParseFn) (state : State)
    : result (pyval * State) :=
  Ok (VDict [(py "animated", VBool (eq_str (capture_at capture 1) (py "a")));
             (py "name", capture_at capture 2);
             (py "id", capture_at capture 3)], state).

Definition DiscordEmoji_html (node : pyval) (output : OutputFn) (state : State)
    : result str :=
  animated <- getitem node (py "animated") ;;
  id <- getitem node (py "id") ;;
  id <- as_str id ;;
  name <- getitem node (py "name") ;;
  name <- as_str name ;;
  Ok (html_tag (py "img") []
        (Some [(py "class",
                Some (py "d-emoji" ++ (if truthy animated then py " d-emoji-animated" else [])));
               (py "src",
                Some (py "https://cdn.discordapp.com/emojis/" ++ id ++ py "."
                      ++ (if truthy animated then py "gif" else py "png")));
               (py "alt", Some (py ":" ++ name ++ py ":"))])
        false (Some state)).

Definition DiscordEmoji (o : nat) : Rule :=
  MkRule o DiscordEmoji_match DiscordEmoji_parse DiscordEmoji_html.

Definition DiscordEveryone_match (source : str) (state : State) (previous_source : str)
    : MatchValue :=
  of_search (search false (cat [Bol; Lit (py "@everyone")]) source).

Definition DiscordEveryone_parse (capture : Match) (parse : ParseFn) (state : State)
    : result (pyval * State) :=
  Ok (VDict [], state).

Definition DiscordEveryone_html (node : pyval) (output : OutputFn) (state : State)
    : result str :=
  inner <- cb_everyone (discord_callback state) node ;;
  Ok (html_tag (py "span") inner (Some [(py "class", Some (py "d-mention d-user"))])
               (state_truthy state) None).

Definition DiscordEveryone (o : nat) : Rule :=
  MkRule o DiscordEveryone_match DiscordEveryone_parse DiscordEveryone_html.

Definition DiscordHere_match (source : str) (state : State) (previous_source : str)
    : MatchValue :=
  of_search (search false (cat [Bol; Lit (py "@here")]) source).

Definition DiscordHere_parse (capture : Match) (parse : ParseFn) (state : State)
    : result (pyval * State) :=
  Ok (VDict [], state).

Definition DiscordHere_html (node : pyval) (output : OutputFn) (state : State)
    : result str :=
  inner <- cb_here (discord_callback state) node ;;
  Ok (html_tag (py "span") inner (Some [(py "class", Some (py "d-mention d-user"))])
               (state_truthy state) None).

Definition DiscordHere (o : nat) : Rule :=
  MkRule o DiscordHere_match DiscordHere_parse DiscordHere_html.

(** *** The rule tables

    Dicts keep insertion order; [rules] is the table after
    [rules.update(rules_discord)]. *)

Definition rules_discord : list (str * Rule) :=
  let o := order (default_rules b_strong) in
  [(py "discord_user", DiscordUser o);
   (py "discord_channel", DiscordChannel o);
   (py "discord_role", DiscordRole o);
   (py "discord_emoji", DiscordEmoji o);
   (py "discord_everyone", DiscordEveryone o);
   (py "discord_here", DiscordHere o)].

Definition rules : list (str * Rule) :=
  [(py "block_quote", BlockQuote (order (default_rules b_block_quote)));
   (py "code_block", CodeBlock (order (default_rules b_code_block)));
   (py "newline", default_rules b_newline);
   (py "escape", default_rules b_escape);
   (py "autolink", AutoLink (order (default_rules b_autolink)));
   (py "url", URL (order (default_rules b_url)));
   (py "em", Em (order (default_rules b_em)));
   (py "strong", default_rules b_strong);
   (py "u", default_rules b_u);
   (py "strike", Strike (order (default_rules b_del)));
   (py "inline_code", InlineCode (order (default_rules b_inline_code)));
   (py "text", Text (order (default_rules b_text)));
   (py "emoticon", Emoticon (order (default_rules b_text)));
   (py "br", Br (order (default_rules b_br)));
   (py "spoiler", Spoiler 0)] ++ rules_discord.

Definition rules_discord_only : list (str * Rule) :=
  rules_discord ++ [(py "text", Text (order (default_rules b_text)))].

Definition rules_embed : list (str * Rule) :=
  rules ++ [(py "link", default_rules b_link)].

(** *** The engines of simpy_markdown *)

Variable apply_helper : helper -> str -> State -> str -> option Match.

(** Modelled from the spec: what the engine makes of the value a rule's
    [match] returned.  A match object is a capture, [None] is none; a
    matcher built by [md.inline_regex] or [md.any_scope_regex] is applied by
    the library ([apply_helper]). *)
Definition resolve (v : MatchValue) (source : str) (state : State) (prev : str)
    : option Match :=
  match v with
  | NoMatch => None
  | Matched m => Some m
  | Helper h => apply_helper h source state prev
  end.

(** Modelled from the spec: rules are tried in ascending [order]; rules of
    equal order keep their place in the table. *)
Fixpoint insert_rule (x : str * Rule) (l : list (str * Rule)) : list (str * Rule) :=
  match l with
  | [] => [x]
  | y :: t =>
      if (order (snd x) <=? order (snd y))%nat then x :: l else y :: insert_rule x t
  end.

Definition by_precedence (table : list (str * Rule)) : list (str * Rule) :=
  foldr insert_rule [] table.

(** Modelled from the spec: the first rule, in precedence order, whose
    [match] succeeds at the cursor. *)
Fixpoint first_match (table : list (str * Rule)) (source : str) (state : State)
    : option (str * Rule * Match) :=
  match table with
  | [] => None
  | (name, rule) :: rest =>
      match resolve (rule_match rule source state (prev_capture state))
                    source state (prev_capture state) with
      | Some capture => Some (name, rule, capture)
      | None => first_match rest source state
      end
  end.

(** A parsed dict without a type is tagged with the name of its rule; a
    parsed list is spliced into the result. *)
Definition tagged (name : str) (parsed : pyval) : list pyval :=
  match parsed with
  | VList l => l
  | VDict d =>
      match assoc (py "type") d with
      | Some t => if truthy t then [parsed] else [VDict (assoc_set (py "type") (VStr name) d)]
      | None => [VDict (assoc_set (py "type") (VStr name) d)]
      end
  | _ => [parsed]
  end.

Definition no_rule_message : str := py "Could not find a matching rule".

(** Modelled from the spec: the Parse Engine, the recursive-descent driver
    of simpy_markdown ([md.parser_for]).  While source is left, it takes
    the first matching rule, calls its [parse] with itself as the callback
    for nested content, and goes on behind the capture.  [fuel] bounds the
    number of nested and successive calls. *)
Fixpoint nested_parse (fuel : nat) (table : list (str * Rule)) (source : str)
    (state : State) : result (list pyval * State) :=
  match source with
  | [] => Ok ([], state)
  | _ =>
      match fuel with
      | O => Raise RecursionError
      | S fuel' =>
          match first_match table source state with
          | None => Raise (Exception no_rule_message)
          | Some (name, rule, capture) =>
              let recurse : ParseFn := fun src st =>
                r <- nested_parse fuel' table src st ;;
                Ok (VList (fst r), snd r) in
              r <- rule_parse rule capture recurse state ;;
              let '(parsed, state) := r in
              let state := set_prev_capture (whole capture) state in
              r <- nested_parse fuel' table (drop (length (whole capture)) source) state ;;
              let '(nodes, state) := r in
              Ok (tagged name parsed ++ nodes, state)
          end
      end
  end.

Definition parser_for (fuel : nat) (table : list (str * Rule)) : ParseFn :=
  fun source state =>
    r <- nested_parse fuel (by_precedence table) source state ;;
    Ok (VList (fst r), snd r).

(** Modelled from the spec: the Render Engine ([md.output_for] with
    property [html]): a list of nodes renders to the concatenation of its
    nodes, a node is rendered by the [html] of the rule its type names. *)
Fixpoint nested_output (fuel : nat) (table : list (str * Rule)) (ast : pyval)
    (state : State) : result str :=
  match fuel with
  | O => Raise RecursionError
  | S fuel' =>
      match ast with
      | VList l =>
          foldr (fun node rest =>
                   a <- nested_output fuel' table node state ;;
                   b <- rest ;;
                   Ok (a ++ b)) (Ok []) l
      | VDict _ =>
          ty <- getitem ast (py "type") ;;
          name <- as_str ty ;;
          match assoc name table with
          | Some rule => rule_html rule ast (nested_output fuel' table) state
          | None => Raise KeyError
          end
      | _ => Raise TypeError
      end
  end.

Definition output_for (fuel : nat) (table : list (str * Rule)) : OutputFn :=
  nested_output fuel table.

(** *** to_html *)

Record CallbackOverrides := MkOverrides {
  ov_user : option (pyval -> result str);
  ov_channel : option (pyval -> result str);
  ov_role : option (pyval -> result str);
  ov_everyone : option (pyval -> result str);
  ov_here : option (pyval -> result str)
}.

(** The options dict; [None] is an absent key. *)
Record Options := MkOptions {
  opt_embed : option bool;
  opt_escape_html : option bool;
  opt_discord_only : option bool;
  opt_discord_callback : option CallbackOverrides;
  opt_css_module_names : option (gmap str str)
}.

Definition no_options : Options := MkOptions None None None None None.

(** The merge of the defaults with the overrides, key by key. *)
Definition merge_callbacks (d : Callbacks) (o : option CallbackOverrides) : Callbacks :=
  match o with
  | None => d
  | Some o =>
      MkCallbacks (default (cb_user d) (ov_user o))
                  (default (cb_channel d) (ov_channel o))
                  (default (cb_role d) (ov_role o))
                  (default (cb_everyone d) (ov_everyone o))
                  (default (cb_here d) (ov_here o))
  end.

Definition config_message : str :=
  py "You must pass both a custom parser and custom htmlOutput function, not just one!".

(** The state dict that [to_html] builds from the options. *)
Definition initial_state (options : Options) : State :=
  MkState true false false
          (default true (opt_escape_html options))
          (match opt_css_module_names options with
           | Some t => if table_truthy t then Some t else None
           | None => None
           end)
          (merge_callbacks discord_callback_defaults (opt_discord_callback options))
          [].

(** Calling [None] *)
Definition call_none : OutputFn := fun _ _ => Raise TypeError.

Definition to_html (fuel : nat) (source : str) (options : option Options)
    (custom_parser : option ParseFn) (custom_html_output : option OutputFn)
    : result str :=
  if (given custom_parser || given custom_html_output)
     && (negb (given custom_parser) || negb (given custom_html_output))
  then Raise (Exception config_message)
  else
    let options := default no_options options in
    let '(_parser, _html_output) :=
      match custom_parser with
      | Some p => (p, default call_none custom_html_output)
      | None =>
          if default false (opt_discord_only options)
          then (parser_for fuel rules_discord_only, output_for fuel rules_discord_only)
          else if default false (opt_embed options)
          then (parser_for fuel rules_embed, output_for fuel rules_embed)
          else (parser_for fuel rules, output_for fuel rules)
      end in
    let state := initial_state options in
    r <- _parser source state ;;
    _html_output (fst r) (snd r).

(** *** Specifications used in the proofs *)

(** A repetition of a single class, by recursion on the subject. *)
Fixpoint class_star (greedy : bool) (cs : cset) (k : cursor -> option cursor)
    (prev : option char) (rest : str) (gs : list (nat * str)) : option cursor :=
  match rest with
  | x :: t =>
      if in_cset cs x then
        if greedy
        then match class_star greedy cs k (Some x) t gs with
             | Some r => Some r
             | None => k (Cursor prev rest gs)
             end
        else match k (Cursor prev rest gs) with
             | Some r => Some r
             | None => class_star greedy cs k (Some x) t gs
             end
      else k (Cursor prev rest gs)
  | [] => k (Cursor prev [] gs)
  end.

(** What [BlockQuote.parse] makes of the captured text. *)
Definition quote_content (all_ : str) : str :=
  if given (search false block_marker_re all_)
  then sub false block_marker_re (fun _ => []) 1 all_
  else sub true line_marker_re (fun _ => []) 0 all_.

(** The common shape of the three mention patterns: the opening, an
    optional mark, the id, the closing bracket. *)
Definition mention_re (opening : str) (mark : option char) : regex :=
  cat ([Bol; Lit opening]
       ++ match mark with Some c => [Opt (Lit [c])] | None => [] end
       ++ [Group 1 (Star true (Cls digit09)); Lit (py ">")]).

(** A string of ASCII digits, possibly empty. *)
Definition all_digits (s : str) : bool := forallb is_ascii_digit s.






(** The character before the position reached after reading [s]. *)
Definition prev_after (prev : option char) (s : str) : option char :=
  foldl (fun _ c => Some c) prev s.

(** A pattern that can only match at the start of the subject. *)
Fixpoint anchored (r : regex) : bool :=
  match r with
  | Bol => true
  | Seq a _ => anchored a
  | Alt a b => anchored a && anchored b
  | Group _ a => anchored a
  | _ => false
  end.

(** The node that [CodeBlock.parse] builds. *)
Definition code_node (lang content : str) (quoted : bool) : pyval :=
  VDict [(py "lang", VStr lang); (py "content", VStr content);
         (py "in_quote", VBool quoted)].

(** A state with a remap table configured. *)
Definition remap_state (table : gmap str str) : State :=
  MkState true false false true (Some table) discord_callback_defaults [].

(** A callback that returns the text as it is and leaves the state alone. *)
Definition leaf_parse : ParseFn := fun content st => Ok (VList [VStr content], st).

(** The table, parser and renderer that [to_html] selects when no custom
    pair is given. *)
Definition selected_table (options : Options) : list (str * Rule) :=
  if default false (opt_discord_only options) then rules_discord_only
  else if default false (opt_embed options) then rules_embed
  else rules.

(** The state that [to_html] builds from the default options. *)
Definition default_state : State := initial_state no_options.





(** The options [discord_only] and, possibly, [discord_callback]. *)
Definition discord_only_options (callbacks : option CallbackOverrides) : Options :=
  MkOptions None None (Some true) callbacks None.

(** A user callback that returns [custom]. *)
Definition custom_user : CallbackOverrides :=
  MkOverrides (Some (fun _ => Ok (py "custom"))) None None None None.

(** The id and the closing bracket: the digits are read as far as they
    go, and the bracket has to follow. *)
Definition id_tail : regex :=
  cat [Group 1 (Star true (Cls digit09)); Lit (py ">")].

(** The optional mark is a character that is neither a digit nor the
    closing bracket. *)
Definition mark_ok (mark : option char) : Prop :=
  match mark with
  | Some c => is_ascii_digit c = false /\ c <> 62
  | None => True
  end.

(** The marks that a pattern admits in front of the id. *)
Definition mark_of (mark : option char) (mk : str) : Prop :=
  mk = [] \/ exists c, mark = Some c /\ mk = [c].

(** The classes of word characters and of digits. *)
Definition word_class : cset := AnyOf [CPred is_word].
Definition digit_class : cset := AnyOf [CPred is_digit].

(** The name, the id and the two delimiters behind them. *)
Definition emoji_tail : regex :=
  cat [Group 2 (Plus true (Cls word_class)); Lit (py ":");
       Group 3 (Plus true (Cls digit_class)); Lit (py ">")].

(** The lines of a quote after the first, each behind a newline, a marker
    and a space; and the same lines without markers. *)
Definition later_lines (ls : list str) : str :=
  concat (map (fun l => py "\n> " ++ l) ls).

Definition later_content (ls : list str) : str :=
  concat (map (fun l => py "\n" ++ l) ls).

(** A line: a string without newline. *)
Definition no_newline (l : str) : bool := forallb (in_cset not_newline) l.

(** The group of the later lines in the quote pattern. *)
Definition later_line_re : regex :=
  Group 4 (cat [Lit (py "\n"); spaces; Lit (py "> "); Star true (Cls not_newline)]).

(** The node that [BlockQuote.parse] builds around the parsed [content]. *)
Definition quote_node (parse : ParseFn) (content : str) (state : State)
    : result (pyval * State) :=
  r <- parse content (set_in_quote true state) ;;
  Ok (VDict [(py "content", fst r); (py "type", VStr (py "block_quote"))], snd r).

(** The shrug of the emoticon rule. *)
Definition shrug : str := [175; 92; 95; 40; 12484; 41; 95; 47; 175].

(** A rule's [match] returned a match object. *)
Definition matched (v : MatchValue) : bool :=
  match v with Matched _ => true | _ => false end.

(** The [match] functions of the six rules of [rules_discord]. *)
Definition mention_matchers : list (str -> State -> str -> MatchValue) :=
  [DiscordUser_match; DiscordChannel_match; DiscordRole_match;
   DiscordEmoji_match; DiscordEveryone_match; DiscordHere_match].

(** No mention rule matches [source]. *)
Definition no_mention (source : str) (state : State) (prev : str) : Prop :=
  Forall (fun f => f source state prev = NoMatch) mention_matchers.

(** The shortest prefix of [t] behind which [stop] holds, and what
    follows it. *)
Fixpoint shortest (stop : str -> bool) (t : str) : option (str * str) :=
  if stop t then Some ([], t)
  else match t with
       | c :: t' =>
           match shortest stop t' with
           | Some (b, r) => Some (c :: b, r)
           | None => None
           end
       | [] => None
       end.

(** The characters that the text pattern passes over: digits, ASCII
    letters, whitespace, the code points from U+00C0 to U+FFFF and the
    hyphen. *)
Definition text_plain (c : char) : bool :=
  is_ascii_digit c || is_ascii_alpha c || is_space c
  || ((192 <=? c) && (c <=? 65535)) || (c =? 45).

(** Behind a word character: more word characters, then a colon and a
    character that is no whitespace. *)
Fixpoint word_colon_tail (s : str) : bool :=
  match s with
  | c :: t =>
      if is_word c then word_colon_tail t
      else (c =? 58) && match t with x :: _ => negb (is_space x) | [] => false end
  | [] => false
  end.

(** Where the text pattern may end: at the end of the source, in front of
    a character that is not plain, in front of a newline, and in front of
    a word that is followed by a colon and a character that is no
    whitespace. *)
Definition text_stop (s : str) : bool :=
  match s with
  | [] => true
  | c :: t => negb (text_plain c) || (c =? 10) || (is_word c && word_colon_tail t)
  end.

(** The fourth alternative of the lookahead of the text pattern. *)
Definition word_colon_re : regex :=
  cat [Plus true (Cls word_class); Lit (py ":");
       Cls (AnyOf [CPred (fun c => negb (is_space c))])].

(** [s.startswith(w)] *)
Fixpoint starts_with (w s : str) : bool :=
  match w, s with
  | [], _ => true
  | c :: w', x :: s' => (x =? c) && starts_with w' s'
  | _ :: _, [] => false
  end.

(** A previous source behind which a line starts: it is empty, or it ends
    in a newline followed by spaces only. *)
Definition at_line_start (prev : str) : Prop :=
  prev = [] \/ exists p k, prev = p ++ 10 :: List.repeat 32 k.

(** A text node. *)
Definition text_node (s : str) : pyval :=
  VDict [(py "type", VStr (py "text")); (py "content", VStr s)].

(** The node that [AutoLink.parse] and [URL.parse] build. *)
Definition link_node (url : str) : pyval :=
  VDict [(py "content", VList [text_node url]); (py "target", VStr url)].

(** What follows a quote: nothing, or a line that starts with neither a
    space nor a marker. *)
Definition unmarked (rest : str) : Prop :=
  match rest with [] => True | c :: _ => c <> 32 /\ c <> 62 end.

(** A run of [n] backticks. *)
Definition ticks (n : nat) : str := List.repeat 96 n.

(** Where the code of a span that [n] backticks opened may end: in front
    of a character that is no backtick and that is followed by [n]
    backticks and no further one. *)
Definition code_stop (n : nat) (s : str) : bool :=
  match s with
  | c :: u => negb (c =? 96) && starts_with (ticks n) u && negb (starts_with [96] (drop n u))
  | [] => false
  end.

(** A string without backtick. *)
Definition no_tick (s : str) : bool := forallb (fun c => negb (c =? 96)) s.

(** The inline-code pattern behind its opening run: the code (group 2),
    the opening run again, and no further backtick. *)
Definition code_span_re : regex :=
  cat [Group 2 (Seq (Star false (Cls anychar)) (Cls (NoneOf [CChar (ch "`")])));
       Backref 1; Look false (Cls backtick)].

(** The nodes that the parse engine hands to the renderer for a mention
    with an id, and for a mention without one. *)
Definition mention_node (name id : str) : pyval :=
  VDict [(py "id", VStr id); (py "type", VStr name)].

Definition word_node (name : str) : pyval := VDict [(py "type", VStr name)].

(** Where the body of a strike-through may end: in front of two tildes
    that are not followed by an underscore. *)
Definition strike_stop (s : str) : bool :=
  starts_with (py "~~") s && negb (starts_with (py "_") (drop 2 s)).

(** The start of an opening span tag with a class (the angle bracket, the
    word [span], a space, the word [class], the equals sign and a double
    quote, as code points), and the characters of a class list in the
    pattern of [CodeBlock.html]. *)
Definition span_tail : str :=
  [115; 112; 97; 110; 32; 99; 108; 97; 115; 115; 61; 34].
Definition span_open : str := 60 :: span_tail.

Definition class_list : cset :=
  AnyOf [CRange (ch "a") (ch "z"); CRange (ch "0") (ch "9");
         CChar (ch "-"); CChar (ch "_"); CChar (ch " ")].

(** Markup without an opening span tag with a class: at no position does
    it go on with the start of one. *)
Fixpoint no_span (s : str) : bool :=
  negb (starts_with span_open s)
  && match s with [] => true | _ :: t => no_span t end.

(** What the replacement of [CodeBlock.html] puts in the place of a tag
    with the class list [cls]. *)
Definition remapped (table : gmap str str) (cls : str) : str :=
  join (py " ") (map (remap table) (split_ws cls)).

(** The fence of a code block, three backticks, and the characters of a
    language tag in the fence pattern. *)
Definition fence : str := [96; 96; 96].

Definition lang_class : cset :=
  AnyOf [CRange (ch "a") (ch "z"); CRange (ch "0") (ch "9"); CChar (ch "-")].

(** The optional language line of the fence pattern (group 1: the tag,
    group 2, and the newlines behind it), and the rest of the pattern:
    newlines, the code (group 3), newlines, the closing fence. *)
Definition lang_line_re : regex :=
  Group 1 (cat [Group 2 (Plus false (Cls lang_class)); Plus true (Lit [10])]).

Definition fence_body_re : regex :=
  cat [Star true (Lit [10]); Group 3 (Plus false (Cls anychar));
       Star true (Lit [10]); Lit fence].

(** A string without its leading newlines. *)
Fixpoint drop_newlines (s : str) : str :=
  match s with
  | c :: t => if c =? 10 then drop_newlines t else s
  | [] => []
  end.

(** Where the code of a block may end: in front of newlines, if any, and
    the closing fence. *)
Definition fence_stop (s : str) : bool := starts_with fence (drop_newlines s).





(** An attribute is kept in a tag when its value is neither [None] nor
    empty; how a kept attribute is written; and the class remapping that
    [html_tag] does first (core.py:14-15). *)
Definition kept (a : str * option str) : bool := value_truthy (snd a).

Definition attribute_text (a : str * option str) : str :=
  sanitize_text (fst a) ++ py "=\x22" ++ sanitize_text (default [] (snd a)) ++ py "\x22".

Definition remap_class (table : option (gmap str str))
    (attributes : list (str * option str)) : list (str * option str) :=
  match assoc (py "class") attributes, table with
  | Some (Some cls), Some t =>
      if str_truthy cls && table_truthy t
      then assoc_set (py "class")
             (Some (join (py " ") (map (remap t) (chars_of cls)))) attributes
      else attributes
  | _, _ => attributes
  end.

(** The class of the emoji tag (core.py:299). *)
Definition emoji_class (animated : bool) : str :=
  py "d-emoji" ++ (if animated then py " d-emoji-animated" else []).
(** Evaluating the string literals of the goal. *)
Ltac py_eval :=
  repeat match goal with
         | |- context [py ?s] =>
             let v := eval vm_compute in (py s) in change (py s) with v
         end.

(** ** Strings and dicts *)

Lemma str_eqb_refl s : str_eqb s s = true.
Proof. induction s as [|c s IH]; cbn; [reflexivity|]. rewrite N.eqb_refl. exact IH. Qed.

Lemma str_eqb_eq a b : str_eqb a b = true <-> a = b.
Proof.
  split; [|intros ->; apply str_eqb_refl].
  revert b; induction a as [|x a IH]; intros [|y b]; cbn; try discriminate; [reflexivity|].
  intros H. apply andb_true_iff in H as [H1 H2].
  apply N.eqb_eq in H1. apply IH in H2. congruence.
Qed.

(** ** The matcher *)

Lemma star_loop_S greedy body k fuel cu :
  star_loop greedy body k (S fuel) cu =
  if greedy
  then match body cu (fun cu' =>
                 if (length (c_rest cu') <? length (c_rest cu))%nat
                 then star_loop greedy body k fuel cu' else None) with
       | Some r => Some r
       | None => k cu
       end
  else match k cu with
       | Some r => Some r
       | None => body cu (fun cu' =>
                   if (length (c_rest cu') <? length (c_rest cu))%nat
                   then star_loop greedy body k fuel cu' else None)
       end.
Proof. reflexivity. Qed.

(** Once the fuel exceeds the length of the rest, more fuel changes
    nothing. *)
Lemma star_loop_fuel greedy body k :
  forall f1 f2 cu,
    (length (c_rest cu) < f1)%nat -> (length (c_rest cu) < f2)%nat ->
    star_loop greedy body k f1 cu = star_loop greedy body k f2 cu.
Proof.
  induction f1 as [|f1 IH]; intros f2 cu H1 H2; [lia|].
  destruct f2 as [|f2]; [lia|].
  rewrite !star_loop_S.
  assert (E : (fun cu' : cursor =>
                 if (length (c_rest cu') <? length (c_rest cu))%nat
                 then star_loop greedy body k f1 cu' else None) =
              (fun cu' : cursor =>
                 if (length (c_rest cu') <? length (c_rest cu))%nat
                 then star_loop greedy body k f2 cu' else None)).
  { apply functional_extensionality; intros cu'.
    destruct (Nat.ltb_spec (length (c_rest cu')) (length (c_rest cu))); [|reflexivity].
    apply IH; lia. }
  rewrite E. reflexivity.
Qed.

Lemma run_star_class ml greedy cs k prev rest gs :
  run ml (Star greedy (Cls cs)) (Cursor prev rest gs) k =
  class_star greedy cs k prev rest gs.
Proof.
  cbn [run c_rest].
  generalize (Nat.lt_succ_diag_r (length rest)).
  generalize (S (length rest)) as fuel.
  revert prev.
  induction rest as [|x t IH]; intros prev fuel Hf.
  - destruct fuel; [lia|]. rewrite star_loop_S. cbn. destruct greedy; destruct (k _); reflexivity.
  - destruct fuel; [simpl in Hf; lia|]. rewrite star_loop_S.
    cbn [run c_rest class_star].
    destruct (in_cset cs x) eqn:Hx.
    + unfold advance. cbn [c_rest c_groups length].
      replace (length t <? S (length t))%nat with true
        by (symmetry; apply Nat.ltb_lt; lia).
      rewrite IH by (simpl in Hf; lia). reflexivity.
    + destruct greedy; [reflexivity|]. destruct (k _); reflexivity.
Qed.

(** A greedy class repetition in front of a continuation that rejects
    every position followed by a character of the class takes the longest
    run. *)
Lemma class_star_longest cs k :
  (forall p x t g, in_cset cs x = true -> k (Cursor p (x :: t) g) = None) ->
  forall pre post prev gs,
    forallb (in_cset cs) pre = true ->
    match post with x :: _ => in_cset cs x = false | [] => True end ->
    class_star true cs k prev (pre ++ post) gs =
    k (Cursor (prev_after prev pre) post gs).
Proof.
  intros Hk pre. induction pre as [|x pre IH]; intros post prev gs Hpre Hpost.
  - cbn. destruct post as [|y post]; [reflexivity|]. cbn. rewrite Hpost. reflexivity.
  - cbn in Hpre. apply andb_true_iff in Hpre as [Hx Hpre].
    cbn [app class_star]. rewrite Hx, IH by assumption.
    change (prev_after prev (x :: pre)) with (prev_after (Some x) pre).
    rewrite (Hk _ _ _ _ Hx).
    destruct (k _); reflexivity.
Qed.


(** Every string splits into its longest run of a class and the rest. *)
Lemma longest_run (p : char -> bool) (s : str) :
  exists pre post : str,
    s = pre ++ post /\ forallb p pre = true /\
    match post with x :: _ => p x = false | [] => True end.
Proof.
  induction s as [|x s (pre & post & -> & Hpre & Hpost)].
  - exists [], []. repeat split.
  - destruct (p x) eqn:Hx.
    + exists (x :: pre), post. cbn. rewrite Hx, Hpre. repeat split. exact Hpost.
    + exists [], (x :: pre ++ post). repeat split. exact Hx.
Qed.

Lemma in_anychar x : in_cset anychar x = true.
Proof. cbn. destruct (is_space x); reflexivity. Qed.

Lemma consumed_app p1 p2 g1 g2 (a b : str) :
  consumed (Cursor p1 (a ++ b) g1) (Cursor p2 b g2) = a.
Proof.
  unfold consumed. cbn [c_rest]. rewrite length_app.
  replace (length a + length b - length b)%nat with (length a) by lia.
  apply take_app_length.
Qed.

(** An anchored pattern fails away from the start of the subject. *)
Lemma anchored_fails r :
  anchored r = true ->
  forall c s gs k, run false r (Cursor (Some c) s gs) k = None.
Proof.
  induction r; cbn [anchored]; try discriminate; intros Ha c s gs k.
  - cbn [run]. apply IHr1; assumption.
  - apply andb_true_iff in Ha as [Ha Hb]. cbn [run].
    rewrite IHr1, IHr2 by assumption. reflexivity.
  - cbn [run]. apply IHr; assumption.
  - reflexivity.
Qed.

(** So a search with an anchored pattern is one attempt at the start. *)
Lemma search_anchored r s :
  anchored r = true -> search false r s = exec false r None s.
Proof.
  intros Ha. unfold search. destruct s as [|c t]; cbn [search_from].
  - destruct (exec false r None []); reflexivity.
  - destruct (exec false r None (c :: t)) eqn:E; [reflexivity|].
    clear E. revert c. induction t as [|c' t IH]; intros c; cbn [search_from];
      unfold exec; rewrite anchored_fails by assumption.
    + reflexivity.
    + apply IH.
Qed.

(** ** CodeBlock.html *)

(** C1 (as the code has it).  For a code-block node without a language
    the highlighter is not consulted and [CodeBlock.html] takes its
    fallback, which reads [node.content] from a dict: whatever the
    collaborators, the content, the callback and the state, rendering
    raises [AttributeError] instead of returning the escaped text in a
    [code] tag of class [hljs]. *)
Theorem CodeBlock_html_fallback_raises content quoted output state :
  CodeBlock_html (code_node [] content quoted) output state = Raise AttributeError.
Proof. reflexivity. Qed.

Lemma getitem_lang lang content quoted :
  getitem (code_node lang content quoted) (py "lang") = Ok (VStr lang).
Proof. reflexivity. Qed.

Lemma getitem_content lang content quoted :
  getitem (code_node lang content quoted) (py "content") = Ok (VStr content).
Proof. reflexivity. Qed.

(** The same for a language that the lexer lookup does not know, be it
    that the lookup returns nothing or that it raises. *)
Lemma CodeBlock_html_unknown_language lang content quoted output state :
  lang <> [] ->
  (get_lexer_by_name lang = Ok None ->
   CodeBlock_html (code_node lang content quoted) output state = Raise AttributeError)
  /\ (forall e, get_lexer_by_name lang = Raise e ->
      CodeBlock_html (code_node lang content quoted) output state = Raise e).
Proof.
  intros Hl. destruct lang as [|c l]; [congruence|].
  split; [intros E | intros e E]; unfold CodeBlock_html;
    rewrite getitem_lang; cbn [bind truthy str_eqb negb as_str];
    rewrite E; reflexivity.
Qed.

(** With a recognised language and highlighted markup the class of the
    [code] tag is [hljs], a space and the language. *)
Lemma CodeBlock_html_recognised lang content quoted lx output state :
  lang <> [] ->
  get_lexer_by_name lang = Ok (Some lx) ->
  highlight content lx <> [] ->
  css_module_names state = None ->
  CodeBlock_html (code_node lang content quoted) output state =
  Ok (html_tag (py "pre")
        (html_tag (py "code") (highlight content lx)
                  (Some [(py "class", Some (py "hljs " ++ lang))]) true None)
        None true None).
Proof.
  intros Hl E Hh Hc. destruct lang as [|c l]; [congruence|].
  unfold CodeBlock_html.
  rewrite !getitem_lang, getitem_content. cbn [bind truthy str_eqb negb as_str].
  rewrite E. cbn [bind]. rewrite Hc.
  destruct (highlight content lx) as [|h t] eqn:Eh; [congruence|].
  reflexivity.
Qed.

(** ** html_tag *)

(** C3 (as the code has it).  With the remap table that sends [d-emoji]
    to [x], the tag builder emits for the class [d-emoji] the characters
    of the class separated by spaces, not the remapped token [x]. *)
Theorem html_tag_splits_class_into_characters :
  html_tag (py "img") [] (Some [(py "class", Some (py "d-emoji"))]) false
           (Some (remap_state {[ py "d-emoji" := py "x" ]}))
  = py "<img class=\x22d - e m o j i\x22>".
Proof. vm_compute. reflexivity. Qed.

(** In general the remapped class is the join of the remapped
    one-character strings of the class. *)
Lemma html_tag_class_remap tag content cls table flag st :
  cls <> [] -> table <> ∅ -> css_module_names st = Some table ->
  html_tag tag content (Some [(py "class", Some cls)]) flag (Some st) =
  html_tag tag content
    (Some [(py "class", Some (join (py " ") (map (remap table) (chars_of cls))))])
    flag None.
Proof.
  intros Hc Ht Hs. unfold html_tag.
  cbn [default mbind option_bind]. unfold id. cbn [assoc].
  rewrite Hs, !str_eqb_refl.
  destruct cls as [|c cls]; [congruence|]. cbn [str_truthy andb].
  unfold table_truthy. rewrite bool_decide_eq_false_2 by assumption.
  cbn [negb assoc_set]. rewrite str_eqb_refl. reflexivity.
Qed.

(** ** Em.parse *)

(** C5 (as the code has it).  [Em.parse] is a static method that calls
    [super()] without arguments, so the capture stands in for the
    instance and every call raises [TypeError]: no emphasis node, wrapped
    or collapsed, is ever returned. *)
Theorem Em_parse_raises_TypeError capture parse state :
  Em_parse capture parse state = Raise TypeError.
Proof. reflexivity. Qed.

(** ** BlockQuote.parse and the shared state *)

(** [BlockQuote.parse] hands the callback the capture without its
    markers and a state in which [in_quote] is set, and returns the state
    that the callback leaves. *)
Lemma BlockQuote_parse_eq capture parse state :
  BlockQuote_parse capture parse state =
  (r <- parse (quote_content (whole capture)) (set_in_quote true state) ;;
   Ok (VDict [(py "content", fst r); (py "type", VStr (py "block_quote"))], snd r)).
Proof.
  unfold BlockQuote_parse, quote_content.
  destruct (parse _ _) as [[nodes st1]|e]; reflexivity.
Qed.

(** C2 (as the code has it).  [BlockQuote.parse] sets [in_quote] on the
    state it was given and does not restore it: after it returns, the
    caller's state has [in_quote] set whatever it was before, and the
    quote rule matches no later source with that state. *)
Theorem BlockQuote_parse_leaves_in_quote_set capture state source prev :
  exists node st',
    BlockQuote_parse capture leaf_parse state = Ok (node, st') /\
    in_quote st' = true /\
    BlockQuote_match source st' prev = NoMatch.
Proof.
  eexists _, _. split; [reflexivity|]. split; [reflexivity|].
  unfold BlockQuote_match. cbn [in_quote set_in_quote].
  rewrite orb_true_r. reflexivity.
Qed.

(** ** to_html *)

(** C10.  Whatever the source and the options: with a custom parser only,
    or a custom renderer only, [to_html] raises the configuration error;
    with both it runs the custom parser and hands its nodes and state to
    the custom renderer, no table being selected; with neither the check
    passes and the parser and renderer of the selected table run, so that
    for instance the empty source renders to the empty string. *)
Theorem to_html_custom_pair fuel source options :
  (forall p, to_html fuel source options (Some p) None = Raise (Exception config_message))
  /\ (forall h, to_html fuel source options None (Some h) = Raise (Exception config_message))
  /\ (forall p h,
        to_html fuel source options (Some p) (Some h) =
        (r <- p source (initial_state (default no_options options)) ;; h (fst r) (snd r)))
  /\ to_html fuel source options None None =
       (let table := selected_table (default no_options options) in
        r <- parser_for fuel table source (initial_state (default no_options options)) ;;
        output_for fuel table (fst r) (snd r))
  /\ to_html (S fuel) [] options None None = Ok [].
Proof.
  repeat split; try reflexivity.
  - unfold to_html, selected_table. cbn [given orb andb negb].
    destruct (default false (opt_discord_only (default no_options options)));
      [reflexivity|].
    destruct (default false (opt_embed (default no_options options))); reflexivity.
  - unfold to_html, selected_table. cbn [given orb andb negb].
    destruct (default false (opt_discord_only (default no_options options)));
      [reflexivity|].
    destruct (default false (opt_embed (default no_options options))); reflexivity.
Qed.

(** ** Mentions and emoji, rendered *)

(** With the state of the default options, the emoji rule by itself:
    match, parse and html of the two tokens. *)
Lemma DiscordEmoji_renders_img prev parse output :
  (exists m node,
     DiscordEmoji_match (py "<a:wave:999>") default_state prev = Matched m /\
     whole m = py "<a:wave:999>" /\
     DiscordEmoji_parse m parse default_state = Ok (node, default_state) /\
     DiscordEmoji_html node output default_state =
       Ok (py "<img class=\x22d-emoji d-emoji-animated\x22 src=\x22https://cdn.discordapp.com/emojis/999.gif\x22 alt=\x22:wave:\x22>"))
  /\
  (exists m node,
     DiscordEmoji_match (py "<:wave:999>") default_state prev = Matched m /\
     whole m = py "<:wave:999>" /\
     DiscordEmoji_parse m parse default_state = Ok (node, default_state) /\
     DiscordEmoji_html node output default_state =
       Ok (py "<img class=\x22d-emoji\x22 src=\x22https://cdn.discordapp.com/emojis/999.png\x22 alt=\x22:wave:\x22>")).
Proof.
  split; eexists _, _; (split; [vm_compute; reflexivity|]);
    (split; [reflexivity|]); (split; [reflexivity|]); vm_compute; reflexivity.
Qed.

(** With the text rule behind the mention rules in the base ordering, the
    mentions-only table is in precedence order as it stands. *)
Lemma discord_only_precedence :
  (order (default_rules b_strong) < order (default_rules b_text))%nat ->
  by_precedence rules_discord_only = rules_discord_only.
Proof.
  intros H.
  assert (E1 : (order (default_rules b_strong) <=? order (default_rules b_text))%nat = true)
    by (apply Nat.leb_le; lia).
  unfold by_precedence, rules_discord_only, rules_discord.
  cbn [app foldr insert_rule snd order Text DiscordUser DiscordChannel DiscordRole
       DiscordEmoji DiscordEveryone DiscordHere].
  rewrite E1.
  repeat (cbn [insert_rule snd order DiscordUser DiscordChannel DiscordRole
               DiscordEmoji DiscordEveryone DiscordHere];
          rewrite Nat.leb_refl).
  reflexivity.
Qed.

(** C4.  When the text rule comes after the mention rules in the base
    ordering, [to_html] with [discord_only] set renders [<@123>] with the
    default callbacks as a [span] of class [d-mention d-user] around
    [@123]; with a [user] callback that returns [custom] (the option is
    called [discord_callback] in the source) the span is the same and its
    text is [custom]. *)
Theorem to_html_user_mention fuel :
  (order (default_rules b_strong) < order (default_rules b_text))%nat ->
  to_html (2 + fuel) (py "<@123>") (Some (discord_only_options None)) None None
    = Ok (py "<span class=\x22d-mention d-user\x22>@123</span>")
  /\ to_html (2 + fuel) (py "<@123>") (Some (discord_only_options (Some custom_user)))
             None None
    = Ok (py "<span class=\x22d-mention d-user\x22>custom</span>").
Proof.
  intros H. unfold to_html, parser_for.
  cbn [given orb andb negb default discord_only_options opt_discord_only].
  rewrite (discord_only_precedence H).
  split; vm_compute; reflexivity.
Qed.

(** ** Stepping the matcher *)

Lemma run_Lit_nil ml cu k : run ml (Lit []) cu k = k cu.
Proof. reflexivity. Qed.

Lemma run_Lit_cons ml c s p x t g k :
  run ml (Lit (c :: s)) (Cursor p (x :: t) g) k =
  if x =? c then run ml (Lit s) (Cursor (Some x) t g) k else None.
Proof. cbn. destruct (x =? c); reflexivity. Qed.

Lemma run_Lit_end ml c s p g k : run ml (Lit (c :: s)) (Cursor p [] g) k = None.
Proof. reflexivity. Qed.

Lemma run_Cls_cons ml cs p x t g k :
  run ml (Cls cs) (Cursor p (x :: t) g) k =
  if in_cset cs x then k (Cursor (Some x) t g) else None.
Proof. reflexivity. Qed.

Lemma run_Cls_end ml cs p g k : run ml (Cls cs) (Cursor p [] g) k = None.
Proof. reflexivity. Qed.

Lemma run_Seq ml a b cu k :
  run ml (Seq a b) cu k = run ml a cu (fun cu' => run ml b cu' k).
Proof. reflexivity. Qed.

Lemma run_Alt ml a b cu k :
  run ml (Alt a b) cu k =
  match run ml a cu k with Some r => Some r | None => run ml b cu k end.
Proof. reflexivity. Qed.

Lemma run_Group ml n a cu k :
  run ml (Group n a) cu k = run ml a cu (fun cu' => k (set_group n cu cu')).
Proof. reflexivity. Qed.

Lemma run_Bol_start ml s g k : run ml Bol (Cursor None s g) k = k (Cursor None s g).
Proof. reflexivity. Qed.

Lemma run_Look ml a cu k :
  run ml (Look true a) cu k =
  match run ml a cu Some with
  | Some cu' => k (Cursor (c_prev cu) (c_rest cu) (c_groups cu'))
  | None => None
  end.
Proof. reflexivity. Qed.

Lemma star_loop_class ml greedy cs k fuel prev rest gs :
  (length rest < fuel)%nat ->
  star_loop greedy (run ml (Cls cs)) k fuel (Cursor prev rest gs) =
  class_star greedy cs k prev rest gs.
Proof.
  intros H. rewrite <- run_star_class with (ml := ml). cbn [run c_rest].
  apply star_loop_fuel; cbn [c_rest]; lia.
Qed.

(** One round of a repetition. *)
Lemma run_Star ml greedy a cu k :
  run ml (Star greedy a) cu k =
  let again :=
    run ml a cu (fun cu' =>
      if (length (c_rest cu') <? length (c_rest cu))%nat
      then run ml (Star greedy a) cu' k else None) in
  if greedy
  then match again with Some r => Some r | None => k cu end
  else match k cu with Some r => Some r | None => again end.
Proof.
  cbn [run]. rewrite star_loop_S. cbv zeta.
  assert (E : (fun cu' : cursor =>
                 if (length (c_rest cu') <? length (c_rest cu))%nat
                 then star_loop greedy (run ml a) k (length (c_rest cu)) cu' else None) =
              (fun cu' : cursor =>
                 if (length (c_rest cu') <? length (c_rest cu))%nat
                 then star_loop greedy (run ml a) k (S (length (c_rest cu'))) cu'
                 else None)).
  { apply functional_extensionality; intros cu'.
    destruct (Nat.ltb_spec (length (c_rest cu')) (length (c_rest cu))); [|reflexivity].
    apply star_loop_fuel; lia. }
  rewrite E. reflexivity.
Qed.

(** A repetition of a one-character literal stops at another character
    and at the end. *)
Lemma run_Star_lit_stop ml c p x t g k :
  (x =? c) = false ->
  run ml (Star true (Lit [c])) (Cursor p (x :: t) g) k = k (Cursor p (x :: t) g).
Proof. intros H. rewrite run_Star. cbv zeta. rewrite run_Lit_cons, H. reflexivity. Qed.

Lemma run_Star_lit_end ml c p g k :
  run ml (Star true (Lit [c])) (Cursor p [] g) k = k (Cursor p [] g).
Proof. rewrite run_Star. reflexivity. Qed.





(** ** BlockQuote: the block form *)

Lemma line_boundary_empty : given (search false line_boundary_re []) = true.
Proof. vm_compute. reflexivity. Qed.





(** ** The Text rule *)

Lemma run_Eol_end ml p g k : run ml Eol (Cursor p [] g) k = k (Cursor p [] g).
Proof. reflexivity. Qed.

(** A lazy repetition of any character in front of a continuation that
    accepts at the end of the subject, and that stays where it is when it
    accepts, succeeds without leaving the subject. *)
Lemma lazy_any_succeeds k :
  (forall prev gs, k (Cursor prev [] gs) <> None) ->
  (forall cu r, k cu = Some r -> c_rest r = c_rest cu) ->
  forall t prev gs,
    exists r, class_star false anychar k prev t gs = Some r /\
              (length (c_rest r) <= length t)%nat.
Proof.
  intros Hend Hstay t. induction t as [|x t IH]; intros prev gs.
  - cbn [class_star]. destruct (k (Cursor prev [] gs)) as [r|] eqn:E.
    + exists r. split; [reflexivity|]. rewrite (Hstay _ _ E). reflexivity.
    + exfalso. exact (Hend _ _ E).
  - cbn [class_star]. rewrite in_anychar.
    destruct (k (Cursor prev (x :: t) gs)) as [r|] eqn:E.
    + exists r. split; [reflexivity|]. rewrite (Hstay _ _ E). reflexivity.
    + destruct (IH (Some x) gs) as (r & Hr & Hlen).
      exists r. split; [exact Hr|]. cbn [length]. lia.
Qed.

(** The lookahead of the text pattern accepts at the end of the subject. *)
Lemma text_stop_at_end p g :
  run false text_stop_re (Cursor p [] g) Some = Some (Cursor p [] g).
Proof.
  unfold text_stop_re, alts, cat, Plus. py_eval. cbn [foldr].
  rewrite !run_Alt, run_Cls_end, !run_Lit_end, !run_Seq, run_Cls_end, run_Eol_end.
  reflexivity.
Qed.

(** On a source that is not empty the text pattern matches at the start,
    and what it matches is not empty. *)
Lemma exec_text x t :
  exists m, exec false text_re None (x :: t) = Some m /\
            whole m <> [] /\ exists rest, x :: t = whole m ++ rest.
Proof.
  unfold exec, text_re, cat, Plus. cbn [foldr].
  rewrite !run_Seq, run_Bol_start. cbv beta.
  rewrite !run_Seq, run_Cls_cons, in_anychar. cbv beta.
  rewrite run_star_class.
  match goal with
  | |- context [class_star false anychar ?k ?p ?s ?g] =>
      destruct (lazy_any_succeeds k) with (t := s) (prev := p) (gs := g)
        as (r & Hr & Hlen)
  end.
  - intros prev gs. cbv beta. rewrite run_Seq, run_Look, text_stop_at_end.
    unfold Eps. rewrite run_Lit_nil. discriminate.
  - intros cu r. cbv beta. rewrite run_Seq, run_Look.
    destruct (run false text_stop_re cu Some); [|discriminate].
    unfold Eps. rewrite run_Lit_nil. intros [= <-]. reflexivity.
  - rewrite Hr. eexists. split; [reflexivity|].
    unfold consumed. cbn [whole c_rest length].
    destruct (c_rest r) as [|y u] eqn:Er.
    + cbn [length Nat.sub take]. split; [discriminate|].
      exists []. rewrite firstn_all, app_nil_r. reflexivity.
    + cbn [length] in *.
      replace (S (length t) - S (length u))%nat with (S (length t - S (length u)))
        by lia.
      cbn [take]. split; [discriminate|].
      exists (drop (S (length t - S (length u))) (x :: t)).
      cbn [drop app]. rewrite take_drop. reflexivity.
Qed.

Lemma In_insert_rule x y l : In x (insert_rule y l) <-> x = y \/ In x l.
Proof.
  induction l as [|z l IH]; cbn [insert_rule In]; [intuition congruence|].
  destruct (order (snd y) <=? order (snd z))%nat; cbn [In]; [intuition congruence|].
  rewrite IH. intuition congruence.
Qed.

Lemma In_by_precedence x table : In x (by_precedence table) <-> In x table.
Proof.
  unfold by_precedence. induction table as [|y l IH]; cbn [foldr In]; [reflexivity|].
  rewrite In_insert_rule, IH. intuition congruence.
Qed.

(** A table that holds the text rule has a matching rule for every source
    that is not empty. *)
Lemma first_match_with_text table name o parse html x t state :
  In (name, MkRule o Text_match parse html) table ->
  first_match table (x :: t) state <> None.
Proof.
  induction table as [|[n r] table IH]; cbn [In first_match]; [tauto|].
  intros [E | H].
  - inversion E; subst. cbn [rule_match]. unfold Text_match.
    rewrite search_anchored by reflexivity.
    destruct (exec_text x t) as (m & -> & _). cbn [of_search resolve]. discriminate.
  - destruct (resolve _ _ _ _); [discriminate|]. apply IH, H.
Qed.

(** C9.  On every source that is not empty the text rule matches, and
    what it matches is a prefix of the source of at least one character;
    so in each of the three tables, taken in precedence order, the search
    for the first matching rule finds one. *)
Theorem Text_match_never_fails x t state prev :
  (exists m, Text_match (x :: t) state prev = Matched m /\
             whole m <> [] /\ exists rest, x :: t = whole m ++ rest)
  /\ first_match (by_precedence rules) (x :: t) state <> None
  /\ first_match (by_precedence rules_discord_only) (x :: t) state <> None
  /\ first_match (by_precedence rules_embed) (x :: t) state <> None.
Proof.
  split.
  - unfold Text_match. rewrite search_anchored by reflexivity.
    destruct (exec_text x t) as (m & -> & H). exists m. split; [reflexivity|exact H].
  - repeat split;
      apply first_match_with_text
        with (name := py "text") (o := order (default_rules b_text))
             (parse := rule_parse (default_rules b_text)) (html := Text_html);
      apply In_by_precedence.
    + unfold rules. apply in_or_app. left. cbn [In]. tauto.
    + unfold rules_discord_only. apply in_or_app. right. cbn [In]. tauto.
    + unfold rules_embed, rules. apply in_or_app. left. apply in_or_app. left.
      cbn [In]. tauto.
Qed.

(** ** The mention rules *)

Lemma in_digit09 x : in_cset digit09 x = is_ascii_digit x.
Proof. cbn. apply orb_false_r. Qed.

Lemma forallb_digit09 s : forallb (in_cset digit09) s = all_digits s.
Proof.
  unfold all_digits. induction s as [|x s IH]; [reflexivity|].
  cbn [forallb]. rewrite in_digit09, IH. reflexivity.
Qed.

Lemma eat_app s : forall p t g, eat s (Cursor p (s ++ t) g) = Some (Cursor (prev_after p s) t g).
Proof.
  induction s as [|c s IH]; intros p t g; [reflexivity|].
  cbn [eat app c_rest]. rewrite N.eqb_refl. unfold advance. cbn [c_groups].
  rewrite IH. reflexivity.
Qed.

Lemma eat_inv s : forall p u g cu,
  eat s (Cursor p u g) = Some cu ->
  exists t, u = s ++ t /\ cu = Cursor (prev_after p s) t g.
Proof.
  induction s as [|c s IH]; intros p u g cu H.
  - cbn in H. inversion H; subst. exists u. split; reflexivity.
  - cbn [eat c_rest] in H. destruct u as [|x u]; [discriminate|].
    destruct (N.eqb_spec x c) as [->|]; [|discriminate].
    unfold advance in H. cbn [c_groups] in H.
    apply IH in H as (t & -> & ->). exists t. split; reflexivity.
Qed.

Lemma run_Lit_app ml s p t g k :
  run ml (Lit s) (Cursor p (s ++ t) g) k = k (Cursor (prev_after p s) t g).
Proof. cbn [run]. rewrite eat_app. reflexivity. Qed.

Lemma run_Lit_inv ml s p u g k r :
  run ml (Lit s) (Cursor p u g) k = Some r ->
  exists t, u = s ++ t /\ k (Cursor (prev_after p s) t g) = Some r.
Proof.
  cbn [run]. destruct (eat s (Cursor p u g)) as [cu|] eqn:E; [|discriminate].
  apply eat_inv in E as (t & -> & ->). intros H. exists t. split; [reflexivity|exact H].
Qed.

Lemma run_id_tail pre post p g k :
  forallb (in_cset digit09) pre = true ->
  match post with x :: _ => in_cset digit09 x = false | [] => True end ->
  run false id_tail (Cursor p (pre ++ post) g) k =
  match post with
  | y :: rest => if y =? 62 then k (Cursor (Some y) rest ((1%nat, pre) :: g)) else None
  | [] => None
  end.
Proof.
  intros Hpre Hpost. unfold id_tail, cat, Eps. py_eval. cbn [foldr].
  rewrite run_Seq, run_Group, run_star_class.
  rewrite class_star_longest; [| |assumption..].
  - cbv beta. unfold set_group. cbn [c_prev c_rest c_groups].
    rewrite consumed_app, run_Seq.
    destruct post as [|y rest]; [reflexivity|].
    rewrite run_Lit_cons. destruct (y =? 62); [|reflexivity].
    rewrite !run_Lit_nil. reflexivity.
  - intros p' x t g' Hx. cbv beta. unfold set_group. cbn [c_prev c_rest c_groups].
    rewrite run_Seq, run_Lit_cons.
    rewrite in_digit09 in Hx. unfold is_ascii_digit in Hx.
    apply andb_true_iff in Hx as [_ Hx]. apply N.leb_le in Hx.
    destruct (N.eqb_spec x 62); [lia|reflexivity].
Qed.

Lemma run_id_tail_digits id rest p g k :
  all_digits id = true ->
  run false id_tail (Cursor p (id ++ 62 :: rest) g) k =
  k (Cursor (Some 62) rest ((1%nat, id) :: g)).
Proof.
  intros H. rewrite run_id_tail; [reflexivity| |reflexivity].
  rewrite forallb_digit09. exact H.
Qed.

Lemma run_id_tail_inv u p g k r :
  run false id_tail (Cursor p u g) k = Some r ->
  exists id rest,
    all_digits id = true /\ u = id ++ 62 :: rest /\
    k (Cursor (Some 62) rest ((1%nat, id) :: g)) = Some r.
Proof.
  destruct (longest_run (in_cset digit09) u) as (pre & post & -> & Hpre & Hpost).
  rewrite run_id_tail by assumption.
  destruct post as [|y rest]; [discriminate|].
  destruct (N.eqb_spec y 62) as [->|]; [|discriminate].
  intros H. exists pre, rest. rewrite <- forallb_digit09. auto.
Qed.

Lemma mention_re_marked opening c :
  mention_re opening (Some c) = Seq Bol (Seq (Lit opening) (Seq (Opt (Lit [c])) id_tail)).
Proof. reflexivity. Qed.

Lemma mention_re_plain opening :
  mention_re opening None = Seq Bol (Seq (Lit opening) id_tail).
Proof. reflexivity. Qed.

Lemma run_mention opening mark source r :
  mark_ok mark ->
  run false (mention_re opening mark) (Cursor None source []) Some = Some r <->
  exists mk id rest,
    mark_of mark mk /\ all_digits id = true /\
    source = opening ++ mk ++ id ++ 62 :: rest /\
    r = Cursor (Some 62) rest [(1%nat, id)].
Proof.
  intros Hm. split.
  - destruct mark as [c|].
    + rewrite mention_re_marked, run_Seq, run_Bol_start. cbv beta. rewrite run_Seq.
      intros H. apply run_Lit_inv in H as (u & -> & H).
      rewrite run_Seq in H. unfold Opt in H. rewrite run_Alt in H.
      destruct (run false (Lit [c]) _ _) as [r'|] eqn:E.
      * inversion H; subst r'. apply run_Lit_inv in E as (t & -> & E).
        apply run_id_tail_inv in E as (id & rest & Hid & -> & E).
        inversion E; subst. exists [c], id, rest. unfold mark_of. eauto 10.
      * unfold Eps in H. rewrite run_Lit_nil in H.
        apply run_id_tail_inv in H as (id & rest & Hid & -> & H).
        inversion H; subst. exists [], id, rest. unfold mark_of. eauto 10.
    + rewrite mention_re_plain, run_Seq, run_Bol_start. cbv beta. rewrite run_Seq.
      intros H. apply run_Lit_inv in H as (u & -> & H).
      apply run_id_tail_inv in H as (id & rest & Hid & -> & H).
      inversion H; subst. exists [], id, rest. unfold mark_of. eauto 10.
  - intros (mk & id & rest & Hmk & Hid & -> & ->).
    assert (Hplain : forall p,
              run false id_tail (Cursor p (id ++ 62 :: rest) []) Some =
              Some (Cursor (Some 62) rest [(1%nat, id)]))
      by (intros p; apply run_id_tail_digits, Hid).
    destruct mark as [c|].
    + rewrite mention_re_marked, run_Seq, run_Bol_start. cbv beta.
      rewrite run_Seq, run_Lit_app. cbv beta. rewrite run_Seq. unfold Opt.
      rewrite run_Alt.
      destruct Hmk as [-> | (c' & [= <-] & ->)].
      * cbn [app].
        assert (E : run false (Lit [c])
                      (Cursor (prev_after None opening) (id ++ 62 :: rest) [])
                      (fun cu' => run false id_tail cu' Some) = None).
        { destruct Hm as [Hd Hc]. destruct id as [|d id].
          - cbn [app]. rewrite run_Lit_cons.
            destruct (N.eqb_spec 62 c); [congruence|reflexivity].
          - cbn [app]. rewrite run_Lit_cons.
            destruct (N.eqb_spec d c) as [->|]; [|reflexivity].
            cbn in Hid. rewrite Hd in Hid. discriminate. }
        rewrite E. unfold Eps. rewrite run_Lit_nil. apply Hplain.
      * cbn [app]. rewrite run_Lit_cons, N.eqb_refl, run_Lit_nil, Hplain. reflexivity.
    + rewrite mention_re_plain, run_Seq, run_Bol_start. cbv beta.
      rewrite run_Seq, run_Lit_app. cbv beta.
      destruct Hmk as [-> | (c' & [=] & _)]. cbn [app]. apply Hplain.
Qed.

Lemma exec_mention opening mark source m :
  mark_ok mark ->
  exec false (mention_re opening mark) None source = Some m <->
  exists mk id rest,
    mark_of mark mk /\ all_digits id = true /\
    source = opening ++ mk ++ id ++ 62 :: rest /\
    m = MkMatch (opening ++ mk ++ id ++ [62]) [(1%nat, id)].
Proof.
  intros Hm. unfold exec. split.
  - destruct (run false _ _ Some) as [r|] eqn:E; [|discriminate].
    apply (run_mention _ _ _ _ Hm) in E as (mk & id & rest & Hmk & Hid & -> & ->).
    intros [= <-]. exists mk, id, rest. repeat split; try assumption.
    f_equal.
    replace (opening ++ mk ++ id ++ 62 :: rest)
      with ((opening ++ mk ++ id ++ [62]) ++ rest)
      by (rewrite <- !app_assoc; reflexivity).
    apply consumed_app.
  - intros (mk & id & rest & Hmk & Hid & -> & ->).
    assert (E : run false (mention_re opening mark)
                  (Cursor None (opening ++ mk ++ id ++ 62 :: rest) []) Some =
                Some (Cursor (Some 62) rest [(1%nat, id)]))
      by (apply run_mention; [assumption|]; exists mk, id, rest; auto).
    rewrite E. f_equal. f_equal.
    replace (opening ++ mk ++ id ++ 62 :: rest)
      with ((opening ++ mk ++ id ++ [62]) ++ rest)
      by (rewrite <- !app_assoc; reflexivity).
    apply consumed_app.
Qed.

(** ** The emoji rule *)

(** A group of one or more characters of a class, read greedily, in front
    of a literal character outside the class: the group is the longest
    run, and the literal has to follow it. *)
Lemma run_group_plus_then ml n cs c R pre post p g k :
  in_cset cs c = false ->
  forallb (in_cset cs) pre = true ->
  match post with x :: _ => in_cset cs x = false | [] => True end ->
  run ml (Seq (Group n (Plus true (Cls cs))) (Seq (Lit [c]) R))
      (Cursor p (pre ++ post) g) k =
  match pre, post with
  | _ :: _, y :: rest =>
      if y =? c then run ml R (Cursor (Some y) rest ((n, pre) :: g)) k else None
  | _, _ => None
  end.
Proof.
  intros Hc Hpre Hpost. unfold Plus. rewrite run_Seq, run_Group, run_Seq.
  destruct pre as [|x pre].
  - cbn [app]. destruct post as [|y rest]; [reflexivity|].
    rewrite run_Cls_cons, Hpost. reflexivity.
  - cbn [app]. cbn [forallb] in Hpre. apply andb_true_iff in Hpre as [Hx Hpre].
    rewrite run_Cls_cons, Hx. cbv beta. rewrite run_star_class.
    rewrite class_star_longest; [| |assumption..].
    + cbv beta. unfold set_group. cbn [c_prev c_rest c_groups].
      change (x :: pre ++ post) with ((x :: pre) ++ post).
      rewrite consumed_app.
      destruct post as [|y rest]; [reflexivity|].
      rewrite run_Seq, run_Lit_cons. destruct (y =? c); [|reflexivity].
      rewrite run_Lit_nil. reflexivity.
    + intros p' z t g' Hz. cbv beta. unfold set_group. cbn [c_prev c_rest c_groups].
      rewrite run_Seq, run_Lit_cons.
      destruct (N.eqb_spec z c) as [->|]; [congruence|reflexivity].
Qed.

Lemma run_group_plus_then_inv ml n cs c R u p g k r :
  in_cset cs c = false ->
  run ml (Seq (Group n (Plus true (Cls cs))) (Seq (Lit [c]) R)) (Cursor p u g) k = Some r ->
  exists body rest,
    body <> [] /\ forallb (in_cset cs) body = true /\ u = body ++ c :: rest /\
    run ml R (Cursor (Some c) rest ((n, body) :: g)) k = Some r.
Proof.
  intros Hc.
  destruct (longest_run (in_cset cs) u) as (pre & post & -> & Hpre & Hpost).
  rewrite run_group_plus_then by assumption.
  destruct pre as [|x pre]; [discriminate|].
  destruct post as [|y rest]; [discriminate|].
  destruct (N.eqb_spec y c) as [->|]; [|discriminate].
  intros H. exists (x :: pre), rest. repeat split; [discriminate|assumption|exact H].
Qed.

Lemma run_group_plus_then_run ml n cs c R body rest p g k :
  in_cset cs c = false ->
  body <> [] -> forallb (in_cset cs) body = true ->
  run ml (Seq (Group n (Plus true (Cls cs))) (Seq (Lit [c]) R))
      (Cursor p (body ++ c :: rest) g) k =
  run ml R (Cursor (Some c) rest ((n, body) :: g)) k.
Proof.
  intros Hc Hb Hall. rewrite run_group_plus_then; [|assumption..].
  destruct body; [congruence|]. rewrite N.eqb_refl. reflexivity.
Qed.

Lemma discord_emoji_re_eq :
  discord_emoji_re =
  Seq Bol (Seq (Lit (py "<")) (Seq (Group 1 (Opt (Lit (py "a"))))
                                   (Seq (Lit (py ":")) emoji_tail))).
Proof. reflexivity. Qed.

Lemma colon_no_word : in_cset word_class 58 = false.
Proof. reflexivity. Qed.

Lemma bracket_no_digit : in_cset digit_class 62 = false.
Proof. reflexivity. Qed.

Lemma run_emoji_tail name id rest p g :
  name <> [] -> forallb (in_cset word_class) name = true ->
  id <> [] -> forallb (in_cset digit_class) id = true ->
  run false emoji_tail (Cursor p (name ++ 58 :: id ++ 62 :: rest) g) Some =
  Some (Cursor (Some 62) rest ((3%nat, id) :: (2%nat, name) :: g)).
Proof.
  intros Hn Hw Hi Hd. unfold emoji_tail, cat. py_eval. cbn [foldr].
  rewrite (run_group_plus_then_run _ _ _ _ _ _ _ _ _ _ colon_no_word Hn Hw).
  rewrite (run_group_plus_then_run _ _ _ _ _ _ _ _ _ _ bracket_no_digit Hi Hd).
  reflexivity.
Qed.

Lemma run_emoji_tail_inv u p g r :
  run false emoji_tail (Cursor p u g) Some = Some r ->
  exists name id rest,
    name <> [] /\ forallb (in_cset word_class) name = true /\
    id <> [] /\ forallb (in_cset digit_class) id = true /\
    u = name ++ 58 :: id ++ 62 :: rest /\
    r = Cursor (Some 62) rest ((3%nat, id) :: (2%nat, name) :: g).
Proof.
  unfold emoji_tail, cat. py_eval. cbn [foldr]. intros H.
  apply (run_group_plus_then_inv _ _ _ _ _ _ _ _ _ _ colon_no_word) in H
    as (name & u' & Hn & Hw & -> & H).
  apply (run_group_plus_then_inv _ _ _ _ _ _ _ _ _ _ bracket_no_digit) in H
    as (id & rest & Hi & Hd & -> & H).
  unfold Eps in H. rewrite run_Lit_nil in H. inversion H; subst.
  exists name, id, rest. repeat split; assumption.
Qed.

Lemma consumed_same p1 p2 g1 g2 (s : str) :
  consumed (Cursor p1 s g1) (Cursor p2 s g2) = [].
Proof. unfold consumed. cbn [c_rest]. rewrite Nat.sub_diag. reflexivity. Qed.

Lemma run_emoji source r :
  run false discord_emoji_re (Cursor None source []) Some = Some r <->
  exists a name id rest,
    (a = [] \/ a = [97]) /\
    name <> [] /\ forallb (in_cset word_class) name = true /\
    id <> [] /\ forallb (in_cset digit_class) id = true /\
    source = 60 :: a ++ 58 :: name ++ 58 :: id ++ 62 :: rest /\
    r = Cursor (Some 62) rest [(3%nat, id); (2%nat, name); (1%nat, a)].
Proof.
  rewrite discord_emoji_re_eq. py_eval.
  rewrite run_Seq, run_Bol_start. cbv beta. rewrite run_Seq. split.
  - intros H. apply run_Lit_inv in H as (u & -> & H).
    rewrite run_Seq, run_Group in H. unfold Opt in H. rewrite run_Alt in H.
    destruct (run false (Lit [97]) _ _) as [r'|] eqn:E.
    + inversion H; subst r'. apply run_Lit_inv in E as (t & -> & E).
      unfold set_group in E. cbn [c_prev c_rest c_groups] in E.
      rewrite consumed_app, run_Seq in E.
      apply run_Lit_inv in E as (t' & -> & E).
      apply run_emoji_tail_inv in E as (name & id & rest & Hn & Hw & Hi & Hd & -> & ->).
      exists [97], name, id, rest. repeat split; auto.
    + unfold Eps in H. rewrite run_Lit_nil in H.
      unfold set_group in H. cbn [c_prev c_rest c_groups] in H.
      rewrite consumed_same, run_Seq in H.
      apply run_Lit_inv in H as (t' & -> & H).
      apply run_emoji_tail_inv in H as (name & id & rest & Hn & Hw & Hi & Hd & -> & ->).
      exists [], name, id, rest. repeat split; auto.
  - intros (a & name & id & rest & Ha & Hn & Hw & Hi & Hd & -> & ->).
    rewrite run_Lit_cons. cbn [N.eqb Pos.eqb]. rewrite run_Lit_nil.
    rewrite run_Seq, run_Group. unfold Opt. rewrite run_Alt.
    destruct Ha as [-> | ->]; cbn [app].
    + rewrite run_Lit_cons. cbn [N.eqb Pos.eqb].
      unfold Eps. rewrite run_Lit_nil.
      unfold set_group. cbn [c_prev c_rest c_groups].
      rewrite consumed_same, run_Seq, run_Lit_cons. cbn [N.eqb Pos.eqb].
      rewrite run_Lit_nil. apply run_emoji_tail; assumption.
    + rewrite run_Lit_cons. cbn [N.eqb Pos.eqb]. rewrite run_Lit_nil.
      unfold set_group. cbn [c_prev c_rest c_groups].
      change (97 :: 58 :: name ++ 58 :: id ++ 62 :: rest)
        with ([97] ++ 58 :: name ++ 58 :: id ++ 62 :: rest).
      rewrite consumed_app, run_Seq, run_Lit_cons. cbn [N.eqb Pos.eqb].
      rewrite run_Lit_nil, run_emoji_tail by assumption. reflexivity.
Qed.

Lemma exec_emoji source m :
  exec false discord_emoji_re None source = Some m <->
  exists a name id rest,
    (a = [] \/ a = [97]) /\
    name <> [] /\ forallb (in_cset word_class) name = true /\
    id <> [] /\ forallb (in_cset digit_class) id = true /\
    source = 60 :: a ++ 58 :: name ++ 58 :: id ++ 62 :: rest /\
    m = MkMatch (60 :: a ++ 58 :: name ++ 58 :: id ++ [62])
                [(3%nat, id); (2%nat, name); (1%nat, a)].
Proof.
  assert (E : forall a name id rest : str,
            60 :: a ++ 58 :: name ++ 58 :: id ++ 62 :: rest =
            (60 :: a ++ 58 :: name ++ 58 :: id ++ [62]) ++ rest).
  { intros. cbn [app]. f_equal. rewrite <- !app_assoc. cbn [app].
    f_equal. f_equal. rewrite <- !app_assoc. cbn [app].
    f_equal. f_equal. rewrite <- !app_assoc. reflexivity. }
  unfold exec. split.
  - destruct (run false _ _ Some) as [r|] eqn:H; [|discriminate].
    apply run_emoji in H as (a & name & id & rest & Ha & Hn & Hw & Hi & Hd & -> & ->).
    intros [= <-]. exists a, name, id, rest. repeat split; try assumption.
    f_equal. rewrite E. apply consumed_app.
  - intros (a & name & id & rest & Ha & Hn & Hw & Hi & Hd & -> & ->).
    assert (H : run false discord_emoji_re
                  (Cursor None (60 :: a ++ 58 :: name ++ 58 :: id ++ 62 :: rest) []) Some =
                Some (Cursor (Some 62) rest [(3%nat, id); (2%nat, name); (1%nat, a)]))
      by (apply run_emoji; exists a, name, id, rest; repeat split; assumption).
    rewrite H. f_equal. f_equal. rewrite E. apply consumed_app.
Qed.

Lemma of_search_Matched o m : of_search o = Matched m <-> o = Some m.
Proof. destruct o; cbn; split; congruence. Qed.

Lemma of_search_cases o : of_search o = NoMatch \/ exists m, of_search o = Matched m.
Proof. destruct o as [m|]; [right; exists m|left]; reflexivity. Qed.

Lemma forallb_word s : forallb (in_cset word_class) s = forallb is_word s.
Proof.
  induction s as [|x s IH]; [reflexivity|]. cbn [forallb]. rewrite IH.
  cbn. rewrite orb_false_r. reflexivity.
Qed.

Lemma forallb_digit s : forallb (in_cset digit_class) s = forallb is_digit s.
Proof.
  induction s as [|x s IH]; [reflexivity|]. cbn [forallb]. rewrite IH.
  cbn. rewrite orb_false_r. reflexivity.
Qed.

Lemma DiscordUser_match_spec source state prev m :
  DiscordUser_match source state prev = Matched m <->
  exists mark id rest,
    (mark = [] \/ mark = py "!") /\ all_digits id = true /\
    source = py "<@" ++ mark ++ id ++ py ">" ++ rest /\
    m = MkMatch (py "<@" ++ mark ++ id ++ py ">") [(1%nat, id)].
Proof.
  unfold DiscordUser_match. rewrite search_anchored by reflexivity.
  rewrite of_search_Matched.
  change discord_user_re with (mention_re (py "<@") (Some 33)).
  rewrite exec_mention by (split; [reflexivity|discriminate]).
  split; intros (mk & id & rest & Hmk & Hid & Hs & Hm); exists mk, id, rest;
    (split; [|split; [exact Hid|split; [exact Hs|exact Hm]]]).
  - destruct Hmk as [->|(c & [= <-] & ->)]; [left|right]; reflexivity.
  - destruct Hmk as [->| ->]; [left; reflexivity|right; exists 33; split; reflexivity].
Qed.

Lemma DiscordChannel_match_spec source state prev m :
  DiscordChannel_match source state prev = Matched m <->
  exists mark id rest,
    (mark = [] \/ mark = py "#") /\ all_digits id = true /\
    source = py "<" ++ mark ++ id ++ py ">" ++ rest /\
    m = MkMatch (py "<" ++ mark ++ id ++ py ">") [(1%nat, id)].
Proof.
  unfold DiscordChannel_match. rewrite search_anchored by reflexivity.
  rewrite of_search_Matched.
  change discord_channel_re with (mention_re (py "<") (Some 35)).
  rewrite exec_mention by (split; [reflexivity|discriminate]).
  split; intros (mk & id & rest & Hmk & Hid & Hs & Hm); exists mk, id, rest;
    (split; [|split; [exact Hid|split; [exact Hs|exact Hm]]]).
  - destruct Hmk as [->|(c & [= <-] & ->)]; [left|right]; reflexivity.
  - destruct Hmk as [->| ->]; [left; reflexivity|right; exists 35; split; reflexivity].
Qed.

Lemma DiscordRole_match_spec source state prev m :
  DiscordRole_match source state prev = Matched m <->
  exists id rest,
    all_digits id = true /\
    source = py "<@&" ++ id ++ py ">" ++ rest /\
    m = MkMatch (py "<@&" ++ id ++ py ">") [(1%nat, id)].
Proof.
  unfold DiscordRole_match. rewrite search_anchored by reflexivity.
  rewrite of_search_Matched.
  change discord_role_re with (mention_re (py "<@&") None).
  rewrite exec_mention by exact I.
  split.
  - intros (mk & id & rest & [->|(c & [=] & _)] & Hid & Hs & Hm).
    exists id, rest. split; [exact Hid|split; [exact Hs|exact Hm]].
  - intros (id & rest & Hid & Hs & Hm). exists [], id, rest.
    split; [left; reflexivity|split; [exact Hid|split; [exact Hs|exact Hm]]].
Qed.

Lemma DiscordEmoji_match_spec source state prev m :
  DiscordEmoji_match source state prev = Matched m <->
  exists a name id rest,
    (a = [] \/ a = py "a") /\
    name <> [] /\ forallb is_word name = true /\
    id <> [] /\ forallb is_digit id = true /\
    source = py "<" ++ a ++ py ":" ++ name ++ py ":" ++ id ++ py ">" ++ rest /\
    m = MkMatch (py "<" ++ a ++ py ":" ++ name ++ py ":" ++ id ++ py ">")
                [(3%nat, id); (2%nat, name); (1%nat, a)].
Proof.
  unfold DiscordEmoji_match. rewrite search_anchored by reflexivity.
  rewrite of_search_Matched, exec_emoji.
  split; intros (a & name & id & rest & Ha & Hn & Hw & Hi & Hd & Hs & Hm);
    exists a, name, id, rest.
  - rewrite forallb_word in Hw. rewrite forallb_digit in Hd.
    repeat split; try assumption.
  - rewrite <- forallb_word in Hw. rewrite <- forallb_digit in Hd.
    repeat split; try assumption.
Qed.

(** What the engine finds first is an entry of the table, and the capture
    is the one of its [match]. *)
Lemma first_match_In table source state name rule cap :
  first_match table source state = Some (name, rule, cap) ->
  In (name, rule) table /\
  resolve (rule_match rule source state (prev_capture state))
          source state (prev_capture state) = Some cap.
Proof.
  induction table as [|[n r] table IH]; cbn [first_match]; [discriminate|].
  destruct (resolve (rule_match r source state (prev_capture state))
                    source state (prev_capture state)) as [c|] eqn:E.
  - intros [= <- <- <-]. split; [left; reflexivity|exact E].
  - intros H. destruct (IH H) as [Hin Hres]. split; [right; exact Hin|exact Hres].
Qed.

(** A mention rule that does not match is not what the engine finds. *)
Lemma first_match_no_mention table source state prev name rule cap :
  no_mention source state prev ->
  first_match table source state = Some (name, rule, cap) ->
  ~ In (name, rule) rules_discord.
Proof.
  intros Hno Hfirst Hin. apply first_match_In in Hfirst as [_ Hres].
  unfold no_mention, mention_matchers in Hno.
  apply Forall_cons in Hno as [H1 Hno]. apply Forall_cons in Hno as [H2 Hno].
  apply Forall_cons in Hno as [H3 Hno]. apply Forall_cons in Hno as [H4 Hno].
  apply Forall_cons in Hno as [H5 Hno]. apply Forall_cons in Hno as [H6 _].
  unfold rules_discord in Hin. cbv zeta in Hin. cbn [In] in Hin.
  destruct Hin as [E|[E|[E|[E|[E|[E|[]]]]]]]; injection E as <- <-;
    cbn [rule_match DiscordUser DiscordChannel DiscordRole DiscordEmoji
         DiscordEveryone DiscordHere] in Hres.
  - change (DiscordUser_match source state (prev_capture state))
      with (DiscordUser_match source state prev) in Hres.
    rewrite H1 in Hres. discriminate.
  - change (DiscordChannel_match source state (prev_capture state))
      with (DiscordChannel_match source state prev) in Hres.
    rewrite H2 in Hres. discriminate.
  - change (DiscordRole_match source state (prev_capture state))
      with (DiscordRole_match source state prev) in Hres.
    rewrite H3 in Hres. discriminate.
  - change (DiscordEmoji_match source state (prev_capture state))
      with (DiscordEmoji_match source state prev) in Hres.
    rewrite H4 in Hres. discriminate.
  - change (DiscordEveryone_match source state (prev_capture state))
      with (DiscordEveryone_match source state prev) in Hres.
    rewrite H5 in Hres. discriminate.
  - change (DiscordHere_match source state (prev_capture state))
      with (DiscordHere_match source state prev) in Hres.
    rewrite H6 in Hres. discriminate.
Qed.

(** C7 (amended).  The user rule matches exactly the sources that start
    with [<@], an optional [!], a run of digits that may be empty, and
    [>]; the channel rule those that start with [<], an optional [#], such
    a run and [>], so with or without the [#]; the role rule those that
    start with [<@&], such a run and [>]; the emoji rule those that start
    with [<], an optional [a], [:], one or more word characters, [:], one
    or more digits and [>].  The capture is the token, the id group the
    digits.  On every other source the rule returns no match, without
    raising, and on every source that is not empty the text rule matches.
    When no mention rule matches a source that is not empty, the first
    rule that the engine finds in the mentions-only table is the text
    rule with its capture, and in no table is it a mention rule. *)
Theorem mention_rules_match_tokens source state prev :
  (forall m, DiscordUser_match source state prev = Matched m <->
     exists mark id rest,
       (mark = [] \/ mark = py "!") /\ all_digits id = true /\
       source = py "<@" ++ mark ++ id ++ py ">" ++ rest /\
       m = MkMatch (py "<@" ++ mark ++ id ++ py ">") [(1%nat, id)])
  /\ (forall m, DiscordChannel_match source state prev = Matched m <->
     exists mark id rest,
       (mark = [] \/ mark = py "#") /\ all_digits id = true /\
       source = py "<" ++ mark ++ id ++ py ">" ++ rest /\
       m = MkMatch (py "<" ++ mark ++ id ++ py ">") [(1%nat, id)])
  /\ (forall m, DiscordRole_match source state prev = Matched m <->
     exists id rest,
       all_digits id = true /\
       source = py "<@&" ++ id ++ py ">" ++ rest /\
       m = MkMatch (py "<@&" ++ id ++ py ">") [(1%nat, id)])
  /\ (forall m, DiscordEmoji_match source state prev = Matched m <->
     exists a name id rest,
       (a = [] \/ a = py "a") /\
       name <> [] /\ forallb is_word name = true /\
       id <> [] /\ forallb is_digit id = true /\
       source = py "<" ++ a ++ py ":" ++ name ++ py ":" ++ id ++ py ">" ++ rest /\
       m = MkMatch (py "<" ++ a ++ py ":" ++ name ++ py ":" ++ id ++ py ">")
                   [(3%nat, id); (2%nat, name); (1%nat, a)])
  /\ (DiscordUser_match source state prev = NoMatch \/
      exists m, DiscordUser_match source state prev = Matched m)
  /\ (DiscordChannel_match source state prev = NoMatch \/
      exists m, DiscordChannel_match source state prev = Matched m)
  /\ (DiscordRole_match source state prev = NoMatch \/
      exists m, DiscordRole_match source state prev = Matched m)
  /\ (DiscordEmoji_match source state prev = NoMatch \/
      exists m, DiscordEmoji_match source state prev = Matched m)
  /\ (source = [] \/ exists m, Text_match source state prev = Matched m)
  /\ (no_mention source state prev -> source <> [] ->
      exists m,
        Text_match source state (prev_capture state) = Matched m /\
        first_match (by_precedence rules_discord_only) source state =
        Some (py "text", Text (order (default_rules b_text)), m))
  /\ (no_mention source state prev ->
      forall table name rule cap,
        first_match table source state = Some (name, rule, cap) ->
        ~ In (name, rule) rules_discord).
Proof.
  split; [intros m; apply DiscordUser_match_spec|].
  split; [intros m; apply DiscordChannel_match_spec|].
  split; [intros m; apply DiscordRole_match_spec|].
  split; [intros m; apply DiscordEmoji_match_spec|].
  split; [apply of_search_cases|]. split; [apply of_search_cases|].
  split; [apply of_search_cases|]. split; [apply of_search_cases|].
  split; [|split].
  - destruct source as [|x t]; [left; reflexivity|right].
    unfold Text_match. rewrite search_anchored by reflexivity.
    destruct (exec_text x t) as (m & -> & _). exists m. reflexivity.
  - intros Hno Hs. destruct source as [|x t]; [congruence|].
    destruct (exec_text x t) as (m & Hm & _).
    assert (Ht : Text_match (x :: t) state (prev_capture state) = Matched m)
      by (unfold Text_match; rewrite search_anchored by reflexivity;
          rewrite Hm; reflexivity).
    exists m. split; [exact Ht|].
    destruct (first_match (by_precedence rules_discord_only) (x :: t) state)
      as [[[name rule] cap]|] eqn:E.
    + pose proof (first_match_no_mention _ _ _ _ _ _ _ Hno E) as Hout.
      apply first_match_In in E as [Hin Hres].
      rewrite In_by_precedence in Hin. unfold rules_discord_only in Hin.
      apply in_app_or in Hin as [Hin|Hin]; [contradiction|].
      cbn [In] in Hin. destruct Hin as [Hin|[]]. injection Hin as <- <-.
      cbn [rule_match Text] in Hres. rewrite Ht in Hres.
      injection Hres as <-. reflexivity.
    + exfalso. revert E.
      apply first_match_with_text
        with (name := py "text") (o := order (default_rules b_text))
             (parse := rule_parse (default_rules b_text)) (html := Text_html).
      apply In_by_precedence. unfold rules_discord_only.
      apply in_or_app. right. left. reflexivity.
  - intros Hno table name rule cap Hfirst.
    exact (first_match_no_mention _ _ _ _ _ _ _ Hno Hfirst).
Qed.

(** ** BlockQuote: the line form *)

(** A greedy class repetition takes the longest run when the continuation
    accepts behind it. *)
Lemma class_star_accept cs k r :
  forall pre post prev gs,
    forallb (in_cset cs) pre = true ->
    match post with x :: _ => in_cset cs x = false | [] => True end ->
    k (Cursor (prev_after prev pre) post gs) = Some r ->
    class_star true cs k prev (pre ++ post) gs = Some r.
Proof.
  intros pre. induction pre as [|x pre IH]; intros post prev gs Hpre Hpost Hk.
  - cbn [app]. destruct post as [|y post]; [exact Hk|].
    cbn [class_star]. rewrite Hpost. exact Hk.
  - cbn [forallb] in Hpre. apply andb_true_iff in Hpre as [Hx Hpre].
    cbn [app class_star]. rewrite Hx.
    rewrite (IH post (Some x) gs Hpre Hpost Hk). reflexivity.
Qed.


Lemma later_lines_cons l ls :
  later_lines (l :: ls) = 10 :: 62 :: 32 :: l ++ later_lines ls.
Proof. reflexivity. Qed.



Lemma line_marker_at_start p s :
  (p = None \/ p = Some 10) ->
  exec true line_marker_re p (62 :: 32 :: s) = Some (MkMatch [62; 32] []).
Proof.
  intros Hp. unfold exec, line_marker_re, spaces, cat, Opt, Eps. py_eval. cbn [foldr].
  rewrite run_Seq.
  assert (E : forall k, run true Bol (Cursor p (62 :: 32 :: s) []) k =
                        k (Cursor p (62 :: 32 :: s) []))
    by (intros k; destruct Hp as [-> | ->]; reflexivity).
  rewrite E. cbv beta.
  rewrite run_Seq, run_Star_lit_stop by reflexivity. cbv beta.
  rewrite run_Seq, run_Lit_cons. cbn [N.eqb Pos.eqb].
  rewrite run_Lit_nil, run_Seq, run_Alt, run_Lit_cons. cbn [N.eqb Pos.eqb].
  rewrite !run_Lit_nil. cbn [c_groups].
  change (62 :: 32 :: s) with ([62; 32] ++ s). rewrite consumed_app. reflexivity.
Qed.

Lemma line_marker_inside c s :
  c <> 10 -> exec true line_marker_re (Some c) s = None.
Proof.
  intros Hc. unfold exec, line_marker_re, cat. cbn [foldr].
  rewrite run_Seq. cbn [run at_bol c_prev andb].
  destruct (N.eqb_spec c 10); [congruence|reflexivity].
Qed.

Lemma prev_after_no_newline l : forall c,
  c <> 10 -> no_newline l = true ->
  exists c', prev_after (Some c) l = Some c' /\ c' <> 10.
Proof.
  induction l as [|x l IH]; intros c Hc Hl.
  - exists c. split; [reflexivity|exact Hc].
  - cbn [no_newline forallb] in Hl. apply andb_true_iff in Hl as [Hx Hl].
    change (prev_after (Some c) (x :: l)) with (prev_after (Some x) l).
    apply IH; [|exact Hl].
    cbn in Hx. rewrite orb_false_r in Hx. intros ->. discriminate.
Qed.

(** Inside a line nothing is replaced. *)
Lemma sub_line_body repl l : forall c tail,
  c <> 10 -> no_newline l = true ->
  sub_from true line_marker_re repl None O (Some c) (l ++ tail) =
  l ++ sub_from true line_marker_re repl None O (prev_after (Some c) l) tail.
Proof.
  induction l as [|x l IH]; intros c tail Hc Hl; [reflexivity|].
  cbn [no_newline forallb] in Hl. apply andb_true_iff in Hl as [Hx Hl].
  cbn [app sub_from]. rewrite (line_marker_inside _ _ Hc).
  rewrite IH; [reflexivity| |exact Hl].
  cbn in Hx. rewrite orb_false_r in Hx. intros ->. discriminate.
Qed.



Lemma join_cons sep (a b : str) rest :
  join sep (a :: b :: rest) = a ++ sep ++ join sep (b :: rest).
Proof. reflexivity. Qed.

Lemma join_marked_lines l ls :
  join (py "\n") (map (fun l => py "> " ++ l) (l :: ls)) = py "> " ++ l ++ later_lines ls.
Proof.
  revert l. induction ls as [|l' ls IH]; intros l.
  - cbn [map join later_lines concat]. rewrite app_nil_r. reflexivity.
  - specialize (IH l'). cbn [map] in IH. cbn [map]. rewrite join_cons, IH.
    rewrite later_lines_cons. rewrite <- !app_assoc. reflexivity.
Qed.

Lemma join_lines l ls :
  join (py "\n") (l :: ls) = l ++ later_content ls.
Proof.
  revert l. induction ls as [|l' ls IH]; intros l.
  - cbn [join later_content map concat]. rewrite app_nil_r. reflexivity.
  - rewrite join_cons, IH. reflexivity.
Qed.

(** ** Precedence *)





(** ** The emoji token through [to_html] *)

(** One round of the parse engine on a source that the capture covers. *)
Lemma nested_parse_single fuel table x t state name rule cap parsed st1 :
  first_match table (x :: t) state = Some (name, rule, cap) ->
  (forall p, rule_parse rule cap p state = Ok (parsed, st1)) ->
  drop (length (whole cap)) (x :: t) = [] ->
  nested_parse (S fuel) table (x :: t) state =
  Ok (tagged name parsed ++ [], set_prev_capture (whole cap) st1).
Proof.
  intros Hfirst Hparse Hdrop. cbn [nested_parse]. rewrite Hfirst, Hparse.
  cbn [bind]. rewrite Hdrop. destruct fuel; reflexivity.
Qed.








(** ** The tag builder, in general *)

Lemma assoc_In {A} k (d : list (str * A)) v :
  assoc k d = Some v -> exists k', In (k', v) d.
Proof.
  induction d as [|[k' v'] d IH]; cbn [assoc]; [discriminate|].
  destruct (str_eqb k' k).
  - intros [= ->]. exists k'. left. reflexivity.
  - intros H. destruct (IH H) as (k'' & Hin). exists k''. right. exact Hin.
Qed.

Lemma filter_none {A} (f : A -> bool) l :
  Forall (fun a => f a = false) l -> List.filter f l = [].
Proof.
  induction 1 as [|a l Ha Hl IH]; [reflexivity|].
  cbn [List.filter]. rewrite Ha. exact IH.
Qed.

Lemma filter_all {A} (f : A -> bool) l :
  Forall (fun a => f a = true) l -> List.filter f l = l.
Proof.
  induction 1 as [|a l Ha Hl IH]; [reflexivity|].
  cbn [List.filter]. rewrite Ha, IH. reflexivity.
Qed.

(** [html_tag] in terms of its two steps. *)
Lemma html_tag_steps tag_name content attributes is_closed state :
  html_tag tag_name content (Some attributes) is_closed state =
  py "<" ++ tag_name ++ py " "
  ++ join (py " ")
       (map attribute_text
            (List.filter kept (remap_class (state ≫= css_module_names) attributes)))
  ++ py ">" ++ (if is_closed then content ++ py "</" ++ tag_name ++ py ">" else []).
Proof.
  unfold html_tag, remap_class, attribute_text, kept. cbn [default]. unfold Datatypes.id.
  destruct is_closed; rewrite <- ?app_assoc; [reflexivity|].
  rewrite app_nil_r. reflexivity.
Qed.

Lemma filter_kept_twice l : List.filter kept (List.filter kept l) = List.filter kept l.
Proof.
  induction l as [|a l IH]; [reflexivity|]. cbn [List.filter].
  destruct (kept a) eqn:E; [|exact IH]. cbn [List.filter]. rewrite E, IH. reflexivity.
Qed.

(** The first entry of a key stays the first when it is kept, and a key
    that occurs once is gone when its entry is not kept. *)
Lemma assoc_filter_kept k v : forall l,
  assoc k l = Some v -> value_truthy v = true -> assoc k (List.filter kept l) = Some v.
Proof.
  induction l as [|[k' x] l IH]; cbn [assoc List.filter]; [discriminate|].
  destruct (str_eqb k' k) eqn:E.
  - intros [= ->] Hv. unfold kept. cbn [snd]. rewrite Hv. cbn [assoc]. rewrite E.
    reflexivity.
  - intros H Hv. destruct (kept (k', x)); [cbn [assoc]; rewrite E|]; apply IH; assumption.
Qed.

Lemma assoc_filter_absent {A} k (f : str * A -> bool) : forall l,
  assoc k l = None -> assoc k (List.filter f l) = None.
Proof.
  induction l as [|[k' x] l IH]; cbn [assoc List.filter]; [reflexivity|].
  destruct (str_eqb k' k) eqn:E; [discriminate|].
  intros H. destruct (f (k', x)); [cbn [assoc]; rewrite E|]; apply IH, H.
Qed.

Lemma assoc_absent {A} k : forall l : list (str * A),
  ~ In k (map fst l) -> assoc k l = None.
Proof.
  induction l as [|[k' x] l IH]; cbn [assoc map fst In]; [reflexivity|].
  intros H. destruct (str_eqb k' k) eqn:E.
  - apply str_eqb_eq in E. exfalso. apply H. left. exact E.
  - apply IH. intros Hin. apply H. right. exact Hin.
Qed.

Lemma assoc_filter_dropped k v : forall l,
  List.NoDup (map fst l) ->
  assoc k l = Some v -> value_truthy v = false -> assoc k (List.filter kept l) = None.
Proof.
  induction l as [|[k' x] l IH]; cbn [assoc List.filter map fst]; [discriminate|].
  intros Hd. apply List.NoDup_cons_iff in Hd as [Hk Hd].
  destruct (str_eqb k' k) eqn:E.
  - intros [= ->] Hv. unfold kept at 1. cbn [snd]. rewrite Hv.
    apply str_eqb_eq in E. subst k'.
    apply assoc_filter_absent, assoc_absent, Hk.
  - intros H Hv. destruct (kept (k', x)); [cbn [assoc]; rewrite E|]; apply IH; assumption.
Qed.

(** Setting a kept key commutes with leaving out the other entries. *)
Lemma filter_assoc_set k v x : forall l,
  assoc k l = Some x -> value_truthy x = true ->
  List.filter kept (assoc_set k v l) = List.filter kept (assoc_set k v (List.filter kept l)).
Proof.
  induction l as [|[k' x'] l IH]; cbn [assoc]; [discriminate|].
  destruct (str_eqb k' k) eqn:E.
  - intros [= ->] Hx. cbn [assoc_set List.filter]. rewrite E.
    unfold kept at 3. cbn [snd]. rewrite Hx. cbn [assoc_set]. rewrite E.
    cbn [List.filter]. rewrite filter_kept_twice. reflexivity.
  - intros H Hx. cbn [assoc_set List.filter]. rewrite E. cbn [List.filter].
    destruct (kept (k', x')) eqn:Ek.
    + cbn [assoc_set]. rewrite E. cbn [List.filter]. rewrite Ek.
      rewrite (IH H Hx). reflexivity.
    + apply IH; assumption.
Qed.

(** The remapping of the class sees no difference when the attributes
    without value are taken away first. *)
Lemma remap_class_filter table attributes :
  List.NoDup (map fst attributes) ->
  List.filter kept (remap_class table attributes) =
  List.filter kept (remap_class table (List.filter kept attributes)).
Proof.
  intros Hd.
  assert (Hsame : forall l, assoc (py "class") l = None ->
                            remap_class table l = l).
  { intros l H. unfold remap_class. rewrite H. reflexivity. }
  unfold remap_class at 1.
  destruct (assoc (py "class") attributes) as [[cls|]|] eqn:E.
  - destruct (str_truthy cls) eqn:Hc.
    + pose proof (assoc_filter_kept _ _ _ E Hc) as E'.
      unfold remap_class. rewrite E'. destruct table as [t|].
      * rewrite Hc. cbn [andb]. destruct (table_truthy t).
        -- apply (filter_assoc_set _ _ _ _ E Hc).
        -- symmetry. apply filter_kept_twice.
      * symmetry. apply filter_kept_twice.
    + rewrite (Hsame (List.filter kept attributes))
        by (apply (assoc_filter_dropped _ _ _ Hd E); exact Hc).
      rewrite filter_kept_twice. destruct table; reflexivity.
  - rewrite (Hsame (List.filter kept attributes))
      by (apply (assoc_filter_dropped _ _ _ Hd E); reflexivity).
    rewrite filter_kept_twice. reflexivity.
  - rewrite (Hsame (List.filter kept attributes)) by (apply assoc_filter_absent, E).
    rewrite filter_kept_twice. reflexivity.
Qed.

(** X1.  An attribute whose value is [None] or the empty string is left
    out of the tag: for every dict of attributes, every state and either
    closing flag, the tag is the one that [html_tag] builds from the
    attributes that have a value alone.  Without a remap table these are
    written in their order as name, equals sign and quoted value, both
    escaped, with one space between two of them.  When no attribute has a
    value, the opening tag is the tag name followed by one space; the
    content and the tag name are copied as they are. *)
Theorem html_tag_omits_empty_attributes tag_name content attributes is_closed state :
  List.NoDup (map fst attributes) ->
  html_tag tag_name content (Some attributes) is_closed state =
    html_tag tag_name content (Some (List.filter kept attributes)) is_closed state
  /\ (state ≫= css_module_names = None ->
      html_tag tag_name content (Some attributes) is_closed state =
      py "<" ++ tag_name ++ py " "
      ++ join (py " ") (map attribute_text (List.filter kept attributes))
      ++ py ">" ++ (if is_closed then content ++ py "</" ++ tag_name ++ py ">" else []))
  /\ (Forall (fun a => value_truthy (snd a) = false) attributes ->
      html_tag tag_name content (Some attributes) is_closed state =
      if is_closed
      then py "<" ++ tag_name ++ py " >" ++ content ++ py "</" ++ tag_name ++ py ">"
      else py "<" ++ tag_name ++ py " >").
Proof.
  intros Hd. split; [|split].
  - rewrite !html_tag_steps. rewrite (remap_class_filter _ _ Hd). reflexivity.
  - intros Hs. rewrite html_tag_steps, Hs. unfold remap_class.
    destruct (assoc (py "class") attributes) as [[cls|]|]; reflexivity.
  - intros H. rewrite html_tag_steps.
    assert (E : remap_class (state ≫= css_module_names) attributes = attributes).
    { unfold remap_class.
      destruct (assoc (py "class") attributes) as [[cls|]|] eqn:E; try reflexivity.
      destruct (state ≫= css_module_names) as [t|]; [|reflexivity].
      destruct (assoc_In _ _ _ E) as (k & Hin).
      rewrite List.Forall_forall in H. specialize (H _ Hin). cbn in H.
      rewrite H. reflexivity. }
    rewrite E. unfold kept. rewrite (filter_none _ _ H). cbn [map join].
    destruct is_closed; rewrite <- ?app_assoc; [reflexivity|].
    rewrite app_nil_r. reflexivity.
Qed.

(** ** The spans of the mention rules *)

(** X3.  The mention rules and the spoiler rule hand their state to the
    tag builder in the place of [is_closed], so the builder sees no remap
    table: whatever the state holds, the span keeps its class as written.
    The text that the callback returns is inserted as it is, and an
    exception of the callback is the result. *)
Theorem mention_spans_keep_their_class node output state :
  DiscordUser_html node output state =
    (inner <- cb_user (discord_callback state) node ;;
     Ok (py "<span class=\x22d-mention d-user\x22>" ++ inner ++ py "</span>"))
  /\ DiscordChannel_html node output state =
    (inner <- cb_channel (discord_callback state) node ;;
     Ok (py "<span class=\x22d-mention d-channel\x22>" ++ inner ++ py "</span>"))
  /\ DiscordRole_html node output state =
    (inner <- cb_role (discord_callback state) node ;;
     Ok (py "<span class=\x22d-mention d-role\x22>" ++ inner ++ py "</span>"))
  /\ DiscordEveryone_html node output state =
    (inner <- cb_everyone (discord_callback state) node ;;
     Ok (py "<span class=\x22d-mention d-user\x22>" ++ inner ++ py "</span>"))
  /\ DiscordHere_html node output state =
    (inner <- cb_here (discord_callback state) node ;;
     Ok (py "<span class=\x22d-mention d-user\x22>" ++ inner ++ py "</span>"))
  /\ Spoiler_html node output state =
    (content <- getitem node (py "content") ;;
     inner <- output content state ;;
     Ok (py "<span class=\x22d-spoiler\x22>" ++ inner ++ py "</span>")).
Proof.
  unfold DiscordUser_html, DiscordChannel_html, DiscordRole_html, DiscordEveryone_html,
    DiscordHere_html, Spoiler_html.
  split; [|split; [|split; [|split; [|split]]]].
  - destruct (cb_user _ _) as [inner|e]; [|reflexivity]. vm_compute. reflexivity.
  - destruct (cb_channel _ _) as [inner|e]; [|reflexivity]. vm_compute. reflexivity.
  - destruct (cb_role _ _) as [inner|e]; [|reflexivity]. vm_compute. reflexivity.
  - destruct (cb_everyone _ _) as [inner|e]; [|reflexivity]. vm_compute. reflexivity.
  - destruct (cb_here _ _) as [inner|e]; [|reflexivity]. vm_compute. reflexivity.
  - destruct (getitem node _) as [content|e]; [|reflexivity]. cbn [bind].
    destruct (output content state) as [inner|e]; [|reflexivity]. vm_compute. reflexivity.
Qed.

(** ** The rules of one word *)

Lemma exec_literal s source m :
  exec false (cat [Bol; Lit s]) None source = Some m <->
  (exists rest, source = s ++ rest) /\ m = MkMatch s [].
Proof.
  unfold exec, cat, Eps. cbn [foldr]. rewrite run_Seq, run_Bol_start. cbv beta.
  rewrite run_Seq. split.
  - destruct (run false (Lit s) _ _) as [r|] eqn:E; [|discriminate].
    apply run_Lit_inv in E as (t & -> & E). rewrite run_Lit_nil in E.
    inversion E; subst r. intros [= <-]. split; [exists t; reflexivity|].
    rewrite consumed_app. reflexivity.
  - intros [(rest & ->) ->]. rewrite run_Lit_app, run_Lit_nil, consumed_app. reflexivity.
Qed.

Lemma exec_emoticon source m :
  exec false emoticon_re None source = Some m <->
  (exists rest, source = shrug ++ rest) /\ m = MkMatch shrug [(1%nat, shrug)].
Proof.
  unfold exec, emoticon_re, cat, Eps. cbn [foldr].
  change [175; 92; 95; 40; 12484; 41; 95; 47; 175] with shrug.
  rewrite run_Seq, run_Bol_start. cbv beta. rewrite run_Seq, run_Group. split.
  - destruct (run false (Lit shrug) _ _) as [r|] eqn:E; [|discriminate].
    apply run_Lit_inv in E as (t & -> & E). rewrite run_Lit_nil in E.
    unfold set_group in E. cbn [c_prev c_rest c_groups] in E.
    rewrite consumed_app in E.
    injection E as <-. intros [= <-]. split; [exists t; reflexivity|].
    f_equal. apply (consumed_app None (Some 175) [] [(1%nat, shrug)] shrug t).
  - intros [(rest & ->) ->]. rewrite run_Lit_app, run_Lit_nil.
    unfold set_group. cbn [c_prev c_rest c_groups]. rewrite !consumed_app. reflexivity.
Qed.

Lemma DiscordEveryone_match_spec source state prev m :
  DiscordEveryone_match source state prev = Matched m <->
  (exists rest, source = py "@everyone" ++ rest) /\ m = MkMatch (py "@everyone") [].
Proof.
  unfold DiscordEveryone_match. rewrite search_anchored by reflexivity.
  rewrite of_search_Matched. apply exec_literal.
Qed.

Lemma DiscordHere_match_spec source state prev m :
  DiscordHere_match source state prev = Matched m <->
  (exists rest, source = py "@here" ++ rest) /\ m = MkMatch (py "@here") [].
Proof.
  unfold DiscordHere_match. rewrite search_anchored by reflexivity.
  rewrite of_search_Matched. apply exec_literal.
Qed.

(** X4.  The rules for [@everyone] and [@here] and the emoticon rule match
    exactly the sources that start with their word, whatever follows it
    (a letter or a digit too), and capture the word alone; the emoticon
    rule captures the shrug as its group 1 and parses it into a text node.
    The two mention rules parse into an empty node. *)
Theorem word_rules_match_prefix source state prev m :
  (DiscordEveryone_match source state prev = Matched m <->
     (exists rest, source = py "@everyone" ++ rest) /\ m = MkMatch (py "@everyone") [])
  /\ (DiscordHere_match source state prev = Matched m <->
     (exists rest, source = py "@here" ++ rest) /\ m = MkMatch (py "@here") [])
  /\ (Emoticon_match source state prev = Matched m <->
     (exists rest, source = shrug ++ rest) /\ m = MkMatch shrug [(1%nat, shrug)])
  /\ (forall parse,
        DiscordEveryone_parse m parse state = Ok (VDict [], state) /\
        DiscordHere_parse m parse state = Ok (VDict [], state) /\
        Emoticon_parse (MkMatch shrug [(1%nat, shrug)]) parse state =
          Ok (VDict [(py "type", VStr (py "text")); (py "content", VStr shrug)], state)).
Proof.
  split; [apply DiscordEveryone_match_spec|].
  split; [apply DiscordHere_match_spec|].
  split.
  - unfold Emoticon_match. rewrite search_anchored by reflexivity.
    rewrite of_search_Matched. apply exec_emoticon.
  - intros parse. repeat split.
Qed.

(** ** The mention rules exclude one another *)

Lemma digit_head d id : all_digits (d :: id) = true -> 48 <= d <= 57.
Proof.
  unfold all_digits. cbn [forallb]. intros H. apply andb_true_iff in H as [H _].
  unfold is_ascii_digit in H. apply andb_true_iff in H as [H1 H2].
  apply N.leb_le in H1. apply N.leb_le in H2. lia.
Qed.

(** The first characters of a source that a mention rule matches. *)
Lemma mention_heads source state prev :
  let a := nth 0 source 0 in
  let b := nth 1 source 0 in
  let c := nth 2 source 0 in
  (matched (DiscordUser_match source state prev) = true -> a = 60 /\ b = 64 /\ c <> 38)
  /\ (matched (DiscordChannel_match source state prev) = true ->
      a = 60 /\ b <> 64 /\ b <> 58 /\ b <> 97)
  /\ (matched (DiscordRole_match source state prev) = true -> a = 60 /\ b = 64 /\ c = 38)
  /\ (matched (DiscordEmoji_match source state prev) = true -> a = 60 /\ (b = 58 \/ b = 97))
  /\ (matched (DiscordEveryone_match source state prev) = true -> a = 64 /\ b = 101)
  /\ (matched (DiscordHere_match source state prev) = true -> a = 64 /\ b = 104).
Proof.
  cbv zeta. repeat apply conj.
  - destruct (DiscordUser_match _ _ _) as [|m|h] eqn:E; try discriminate. intros _.
    apply DiscordUser_match_spec in E as (mark & id & rest & Hmark & Hid & -> & _).
    destruct Hmark as [-> | ->]; destruct id as [|d id];
      try (apply digit_head in Hid); py_eval; cbn [app nth];
      repeat split; try reflexivity; lia.
  - destruct (DiscordChannel_match _ _ _) as [|m|h] eqn:E; try discriminate. intros _.
    apply DiscordChannel_match_spec in E as (mark & id & rest & Hmark & Hid & -> & _).
    destruct Hmark as [-> | ->]; destruct id as [|d id];
      try (apply digit_head in Hid); py_eval; cbn [app nth];
      repeat split; try reflexivity; lia.
  - destruct (DiscordRole_match _ _ _) as [|m|h] eqn:E; try discriminate. intros _.
    apply DiscordRole_match_spec in E as (id & rest & Hid & -> & _).
    py_eval. cbn [app nth]. repeat split; reflexivity.
  - destruct (DiscordEmoji_match _ _ _) as [|m|h] eqn:E; try discriminate. intros _.
    apply DiscordEmoji_match_spec in E
      as (a & name & id & rest & Ha & _ & _ & _ & _ & -> & _).
    destruct Ha as [-> | ->]; py_eval; cbn [app nth]; split; try reflexivity;
      [left|right]; reflexivity.
  - destruct (DiscordEveryone_match _ _ _) as [|m|h] eqn:E; try discriminate. intros _.
    apply DiscordEveryone_match_spec in E as [(rest & ->) _].
    py_eval. cbn [app nth]. split; reflexivity.
  - destruct (DiscordHere_match _ _ _) as [|m|h] eqn:E; try discriminate. intros _.
    apply DiscordHere_match_spec in E as [(rest & ->) _].
    py_eval. cbn [app nth]. split; reflexivity.
Qed.

(** X5.  On every source at most one of the six rules of [rules_discord]
    (user, channel, role, emoji, everyone, here) matches, so the order in
    which rules of the same precedence are tried does not matter for
    them. *)
Theorem at_most_one_mention_rule_matches source state prev :
  (length (List.filter (fun f => matched (f source state prev)) mention_matchers) <= 1)%nat.
Proof.
  destruct (mention_heads source state prev) as (H1 & H2 & H3 & H4 & H5 & H6).
  cbv zeta in *. unfold mention_matchers. cbn [List.filter].
  destruct (matched (DiscordUser_match source state prev));
    destruct (matched (DiscordChannel_match source state prev));
    destruct (matched (DiscordRole_match source state prev));
    destruct (matched (DiscordEmoji_match source state prev));
    destruct (matched (DiscordEveryone_match source state prev));
    destruct (matched (DiscordHere_match source state prev));
    cbn [length];
    try lia;
    exfalso;
    repeat match goal with
           | H : true = true -> _ |- _ => specialize (H eq_refl)
           | H : false = true -> _ |- _ => clear H
           end;
    lia.
Qed.

(** ** Mentions, from the token to the span *)

Lemma sanitize_text_app a b : sanitize_text (a ++ b) = sanitize_text a ++ sanitize_text b.
Proof. unfold sanitize_text. apply flat_map_app. Qed.

(** Text without any of the five characters is left as it is. *)
Lemma sanitize_text_safe s :
  forallb (fun c => negb (html_unsafe c)) s = true -> sanitize_text s = s.
Proof.
  unfold sanitize_text. induction s as [|c s IH]; [reflexivity|].
  cbn [forallb flat_map]. intros H. apply andb_true_iff in H as [Hc Hs].
  apply negb_true_iff in Hc. rewrite Hc, IH by exact Hs. reflexivity.
Qed.

Lemma ascii_digit_safe c : is_ascii_digit c = true -> html_unsafe c = false.
Proof.
  unfold is_ascii_digit, html_unsafe. intros H. apply andb_true_iff in H as [H1 H2].
  apply N.leb_le in H1. apply N.leb_le in H2.
  repeat match goal with
         | |- context [?x =? ?y] => destruct (N.eqb_spec x y); [lia|]
         end.
  reflexivity.
Qed.

Lemma sanitize_text_digits id : all_digits id = true -> sanitize_text id = id.
Proof.
  intros H. apply sanitize_text_safe. unfold all_digits in H.
  induction id as [|d id IH]; [reflexivity|].
  cbn [forallb] in *. apply andb_true_iff in H as [Hd Hid].
  rewrite (ascii_digit_safe _ Hd), IH by exact Hid. reflexivity.
Qed.

Lemma getitem_id v : getitem (VDict [(py "id", v)]) (py "id") = Ok v.
Proof. reflexivity. Qed.

(** X6.  With the default callbacks, for every run of digits [id] and
    whatever follows the token: the user rule captures [<@id>] and
    [<@!id>] and renders a span of class [d-mention d-user] around [@id];
    the channel rule captures [<#id>] and renders a span of class
    [d-mention d-channel] around [#id]; the role rule captures [<@&id>]
    and renders a span of class [d-mention d-role] around an ampersand,
    written as it is, and the id.  Parsing leaves the state as it was. *)
Theorem mention_rules_render_id id rest prev parse output state :
  all_digits id = true ->
  discord_callback state = discord_callback_defaults ->
  (forall mark, mark = [] \/ mark = py "!" ->
     exists m node,
       DiscordUser_match (py "<@" ++ mark ++ id ++ py ">" ++ rest) state prev = Matched m /\
       whole m = py "<@" ++ mark ++ id ++ py ">" /\
       DiscordUser_parse m parse state = Ok (node, state) /\
       DiscordUser_html node output state =
         Ok (py "<span class=\x22d-mention d-user\x22>@" ++ id ++ py "</span>"))
  /\ (exists m node,
       DiscordChannel_match (py "<#" ++ id ++ py ">" ++ rest) state prev = Matched m /\
       whole m = py "<#" ++ id ++ py ">" /\
       DiscordChannel_parse m parse state = Ok (node, state) /\
       DiscordChannel_html node output state =
         Ok (py "<span class=\x22d-mention d-channel\x22>#" ++ id ++ py "</span>"))
  /\ (exists m node,
       DiscordRole_match (py "<@&" ++ id ++ py ">" ++ rest) state prev = Matched m /\
       whole m = py "<@&" ++ id ++ py ">" /\
       DiscordRole_parse m parse state = Ok (node, state) /\
       DiscordRole_html node output state =
         Ok (py "<span class=\x22d-mention d-role\x22>&" ++ id ++ py "</span>")).
Proof.
  intros Hid Hcb. split; [|split].
  - intros mark Hmark.
    exists (MkMatch (py "<@" ++ mark ++ id ++ py ">") [(1%nat, id)]), (VDict [(py "id", VStr id)]).
    split; [apply DiscordUser_match_spec; exists mark, id, rest; auto|].
    split; [reflexivity|]. split; [reflexivity|].
    unfold DiscordUser_html. rewrite Hcb. cbn [cb_user discord_callback_defaults].
    rewrite getitem_id. cbn [bind as_str]. rewrite (sanitize_text_digits _ Hid).
    vm_compute. reflexivity.
  - exists (MkMatch (py "<#" ++ id ++ py ">") [(1%nat, id)]), (VDict [(py "id", VStr id)]).
    split; [apply DiscordChannel_match_spec; exists (py "#"), id, rest; auto|].
    split; [reflexivity|]. split; [reflexivity|].
    unfold DiscordChannel_html. rewrite Hcb. cbn [cb_channel discord_callback_defaults].
    rewrite getitem_id. cbn [bind as_str]. rewrite (sanitize_text_digits _ Hid).
    vm_compute. reflexivity.
  - exists (MkMatch (py "<@&" ++ id ++ py ">") [(1%nat, id)]), (VDict [(py "id", VStr id)]).
    split; [apply DiscordRole_match_spec; exists id, rest; auto|].
    split; [reflexivity|]. split; [reflexivity|].
    unfold DiscordRole_html. rewrite Hcb. cbn [cb_role discord_callback_defaults].
    rewrite getitem_id. cbn [bind as_str]. rewrite (sanitize_text_digits _ Hid).
    vm_compute. reflexivity.
Qed.

(** ** The emoji rule, from the token to the image *)

(** Escaping the string literals of the goal. *)
Ltac py_lit :=
  repeat match goal with
         | |- context [sanitize_text (py ?s)] =>
             let v := eval vm_compute in (sanitize_text (py s)) in
             change (sanitize_text (py s)) with v
         | |- context [sanitize_text []] => change (sanitize_text []) with (@nil N)
         end.

Lemma word_safe c : is_word c = true -> html_unsafe c = false.
Proof.
  unfold is_word, html_unsafe, is_ascii_alpha, is_ascii_digit.
  destruct (N.ltb_spec c 128) as [Hc|Hc].
  - intros H.
    repeat match goal with
           | |- context [?x =? ?y] => destruct (N.eqb_spec x y); [subst; discriminate H|]
           end.
    reflexivity.
  - intros _.
    repeat match goal with
           | |- context [?x =? ?y] => destruct (N.eqb_spec x y); [lia|]
           end.
    reflexivity.
Qed.

Lemma digit_safe c : is_digit c = true -> html_unsafe c = false.
Proof.
  unfold is_digit. destruct (N.ltb_spec c 128) as [Hc|Hc].
  - apply ascii_digit_safe.
  - intros _. unfold html_unsafe.
    repeat match goal with
           | |- context [?x =? ?y] => destruct (N.eqb_spec x y); [lia|]
           end.
    reflexivity.
Qed.

Lemma sanitize_text_all (p : char -> bool) s :
  (forall c, p c = true -> html_unsafe c = false) ->
  forallb p s = true -> sanitize_text s = s.
Proof.
  intros Hp H. apply sanitize_text_safe.
  induction s as [|c s IH]; [reflexivity|].
  cbn [forallb] in *. apply andb_true_iff in H as [Hc Hs].
  rewrite (Hp _ Hc), IH by exact Hs. reflexivity.
Qed.

(** Without a remap table the state does not matter to the tag builder. *)
Lemma html_tag_no_table tag_name content attributes is_closed state :
  css_module_names state = None ->
  html_tag tag_name content attributes is_closed (Some state) =
  html_tag tag_name content attributes is_closed None.
Proof.
  intros H. unfold html_tag. cbn [mbind option_bind]. rewrite H.
  destruct (assoc (py "class") (default [] attributes)) as [[cls|]|]; reflexivity.
Qed.

Lemma DiscordEmoji_html_plain node animated name id output state :
  getitem node (py "animated") = Ok (VBool animated) ->
  getitem node (py "id") = Ok (VStr id) ->
  getitem node (py "name") = Ok (VStr name) ->
  css_module_names state = None ->
  forallb is_word name = true -> forallb is_digit id = true ->
  DiscordEmoji_html node output state =
  Ok (py "<img class=\x22d-emoji" ++ (if animated then py " d-emoji-animated" else [])
      ++ py "\x22 src=\x22https://cdn.discordapp.com/emojis/" ++ id
      ++ (if animated then py ".gif" else py ".png")
      ++ py "\x22 alt=\x22:" ++ name ++ py ":\x22>").
Proof.
  intros Ha Hi Hn Hcss Hname Hid. unfold DiscordEmoji_html.
  rewrite Ha, Hi, Hn.
  cbn [bind as_str truthy]. rewrite (html_tag_no_table _ _ _ _ _ Hcss).
  f_equal. unfold html_tag. cbn [default]. unfold Datatypes.id.
  change (assoc (py "class") _) with
    (Some (Some (py "d-emoji" ++ (if animated then py " d-emoji-animated" else [])))).
  cbn [mbind option_bind].
  rewrite filter_all
    by (repeat (apply List.Forall_cons; [vm_compute; reflexivity|]); apply List.Forall_nil).
  cbn [map fst snd join from_option].
  rewrite !sanitize_text_app.
  rewrite (sanitize_text_all _ _ word_safe Hname), (sanitize_text_all _ _ digit_safe Hid).
  destruct animated; py_lit; py_eval; rewrite <- ?app_assoc; reflexivity.
Qed.

(** X7.  Without a remap table, for every name of word characters and
    every id of digits, both non-empty, and whatever follows the token:
    the emoji rule captures the token alone and renders one [img] tag
    without closing tag, of class [d-emoji] (and [d-emoji-animated] for an
    animated one), whose [src] is the CDN address of the id with the
    extension [gif] or [png] and whose [alt] is the name between colons.
    Parsing leaves the state as it was. *)
Theorem DiscordEmoji_renders_token (animated : bool) name id rest prev parse output state :
  name <> [] -> forallb is_word name = true ->
  id <> [] -> forallb is_digit id = true ->
  css_module_names state = None ->
  exists m node,
    DiscordEmoji_match
      (py "<" ++ (if animated then py "a" else []) ++ py ":" ++ name ++ py ":" ++ id
       ++ py ">" ++ rest) state prev = Matched m /\
    whole m = py "<" ++ (if animated then py "a" else []) ++ py ":" ++ name ++ py ":" ++ id
              ++ py ">" /\
    DiscordEmoji_parse m parse state = Ok (node, state) /\
    DiscordEmoji_html node output state =
      Ok (py "<img class=\x22d-emoji" ++ (if animated then py " d-emoji-animated" else [])
          ++ py "\x22 src=\x22https://cdn.discordapp.com/emojis/" ++ id
          ++ (if animated then py ".gif" else py ".png")
          ++ py "\x22 alt=\x22:" ++ name ++ py ":\x22>").
Proof.
  intros Hn Hname Hi Hid Hcss.
  exists (MkMatch (py "<" ++ (if animated then py "a" else []) ++ py ":" ++ name ++ py ":"
                   ++ id ++ py ">")
                  [(3%nat, id); (2%nat, name); (1%nat, if animated then py "a" else [])]),
         (VDict [(py "animated", VBool animated); (py "name", VStr name); (py "id", VStr id)]).
  split.
  - apply DiscordEmoji_match_spec.
    exists (if animated then py "a" else []), name, id, rest.
    repeat split; try assumption. destruct animated; [right|left]; reflexivity.
  - split; [reflexivity|]. split.
    + destruct animated; reflexivity.
    + apply DiscordEmoji_html_plain; solve [reflexivity | assumption].
Qed.

(** ** The class of a tag under a remap table *)

(** The tag of the emoji rule, without remap table, for a class that
    needs no escaping. *)
Lemma emoji_tag_plain cls (animated : bool) name id :
  cls <> [] -> sanitize_text cls = cls ->
  forallb is_word name = true -> forallb is_digit id = true ->
  html_tag (py "img") []
    (Some [(py "class", Some cls);
           (py "src", Some (py "https://cdn.discordapp.com/emojis/" ++ id ++ py "."
                            ++ (if animated then py "gif" else py "png")));
           (py "alt", Some (py ":" ++ name ++ py ":"))])
    false None =
  py "<img class=\x22" ++ cls
  ++ py "\x22 src=\x22https://cdn.discordapp.com/emojis/" ++ id
  ++ (if animated then py ".gif" else py ".png")
  ++ py "\x22 alt=\x22:" ++ name ++ py ":\x22>".
Proof.
  intros Hc Hcls Hname Hid. rewrite html_tag_steps.
  cbn [mbind option_bind]. unfold remap_class.
  replace (match assoc (py "class")
                   [(py "class", Some cls);
                    (py "src", Some (py "https://cdn.discordapp.com/emojis/" ++ id ++ py "."
                                     ++ (if animated then py "gif" else py "png")));
                    (py "alt", Some (py ":" ++ name ++ py ":"))] with
           | Some (Some _) | _ =>
               [(py "class", Some cls);
                (py "src", Some (py "https://cdn.discordapp.com/emojis/" ++ id ++ py "."
                                 ++ (if animated then py "gif" else py "png")));
                (py "alt", Some (py ":" ++ name ++ py ":"))]
           end)
    with [(py "class", Some cls);
          (py "src", Some (py "https://cdn.discordapp.com/emojis/" ++ id ++ py "."
                           ++ (if animated then py "gif" else py "png")));
          (py "alt", Some (py ":" ++ name ++ py ":"))]
    by (destruct (assoc (py "class") _) as [[?|]|]; reflexivity).
  rewrite filter_all.
  2:{ apply List.Forall_cons;
        [unfold kept; cbn [snd value_truthy]; destruct cls; [congruence|reflexivity]|].
      repeat (apply List.Forall_cons; [vm_compute; reflexivity|]). apply List.Forall_nil. }
  unfold attribute_text. cbn [map fst snd join from_option default].
  unfold Datatypes.id. rewrite !sanitize_text_app, Hcls.
  rewrite (sanitize_text_all _ _ word_safe Hname), (sanitize_text_all _ _ digit_safe Hid).
  destruct animated; py_lit; py_eval; rewrite <- ?app_assoc; reflexivity.
Qed.

(** X2.  With a remap table configured, the class of a tag is looked up
    one character at a time, whatever other attributes the tag has.  So a
    table none of whose keys is a single character is never applied: the
    tag is the one that is built without table from the same attributes
    with, for the class, its characters separated by spaces.  The emoji
    rule, the one rule that hands its state to the tag builder, so
    renders its [img] tag with the class [d-emoji] spelled out character
    by character. *)
Theorem html_tag_class_by_character tag_name content attributes cls table is_closed state
    (animated : bool) name id output :
  assoc (py "class") attributes = Some (Some cls) -> cls <> [] ->
  table <> ∅ -> css_module_names state = Some table ->
  (forall k, is_Some (table !! k) -> length k <> 1%nat) ->
  forallb is_word name = true -> forallb is_digit id = true ->
  html_tag tag_name content (Some attributes) is_closed (Some state) =
    html_tag tag_name content
      (Some (assoc_set (py "class") (Some (join (py " ") (chars_of cls))) attributes))
      is_closed None
  /\ DiscordEmoji_html
       (VDict [(py "animated", VBool animated); (py "name", VStr name); (py "id", VStr id)])
       output state =
     Ok (py "<img class=\x22" ++ join (py " ") (chars_of (emoji_class animated))
         ++ py "\x22 src=\x22https://cdn.discordapp.com/emojis/" ++ id
         ++ (if animated then py ".gif" else py ".png")
         ++ py "\x22 alt=\x22:" ++ name ++ py ":\x22>").
Proof.
  intros Hassoc Hc Ht Hs Hk Hname Hid.
  assert (Hchars : forall c, map (remap table) (chars_of c) = chars_of c).
  { unfold chars_of. induction c as [|x c IH]; [reflexivity|].
    cbn [map]. rewrite IH. f_equal. unfold remap.
    destruct (table !! [x]) as [v|] eqn:E; [|reflexivity].
    exfalso. apply (Hk [x]); [rewrite E; eexists; reflexivity|reflexivity]. }
  assert (Hgen : forall tag body attrs c closed,
            assoc (py "class") attrs = Some (Some c) -> c <> [] ->
            html_tag tag body (Some attrs) closed (Some state) =
            html_tag tag body
              (Some (assoc_set (py "class") (Some (join (py " ") (chars_of c))) attrs))
              closed None).
  { intros tag body attrs c closed Ha Hne. rewrite !html_tag_steps.
    cbn [mbind option_bind]. rewrite Hs. unfold remap_class. rewrite Ha.
    destruct c as [|x c]; [congruence|]. cbn [str_truthy andb].
    unfold table_truthy. rewrite bool_decide_eq_false_2 by exact Ht. cbn [negb].
    rewrite Hchars.
    destruct (assoc (py "class") (assoc_set _ _ attrs)) as [[?|]|]; reflexivity. }
  split; [apply Hgen; assumption|].
  unfold DiscordEmoji_html.
  assert (Ea : getitem (VDict [(py "animated", VBool animated); (py "name", VStr name);
                               (py "id", VStr id)]) (py "animated") = Ok (VBool animated))
    by (vm_compute; reflexivity).
  assert (Ei : getitem (VDict [(py "animated", VBool animated); (py "name", VStr name);
                               (py "id", VStr id)]) (py "id") = Ok (VStr id))
    by (vm_compute; reflexivity).
  assert (En : getitem (VDict [(py "animated", VBool animated); (py "name", VStr name);
                               (py "id", VStr id)]) (py "name") = Ok (VStr name))
    by (vm_compute; reflexivity).
  rewrite Ea, Ei, En. cbn [bind as_str truthy]. f_equal.
  unfold emoji_class.
  rewrite (Hgen _ _ _ (py "d-emoji" ++ (if animated then py " d-emoji-animated" else [])))
    by (solve [destruct animated; discriminate
              |cbn [assoc]; rewrite str_eqb_refl; reflexivity]).
  cbn [assoc_set]. rewrite str_eqb_refl.
  apply emoji_tag_plain; [destruct animated; discriminate| |exact Hname|exact Hid].
  destruct animated; vm_compute; reflexivity.
Qed.

(** ** Lazy repetitions *)

Lemma shortest_spec stop : forall t b r,
  shortest stop t = Some (b, r) ->
  t = b ++ r /\ stop r = true /\
  forall b1 b2, b = b1 ++ b2 -> b2 <> [] -> stop (b2 ++ r) = false.
Proof.
  induction t as [|c t IH]; intros b r; cbn [shortest].
  - destruct (stop []) eqn:E; [|discriminate]. intros [= <- <-].
    split; [reflexivity|]. split; [exact E|].
    intros b1 b2 H. symmetry in H. apply app_eq_nil in H as [_ ->]. congruence.
  - destruct (stop (c :: t)) eqn:E.
    + intros [= <- <-]. split; [reflexivity|]. split; [exact E|].
      intros b1 b2 H. symmetry in H. apply app_eq_nil in H as [_ ->]. congruence.
    + destruct (shortest stop t) as [[b' r']|] eqn:Es; [|discriminate].
      intros [= <- <-]. destruct (IH _ _ eq_refl) as (-> & Hr & Hmin).
      split; [reflexivity|]. split; [exact Hr|].
      intros [|c1 b1] b2 H Hb2; cbn [app] in H.
      * subst b2. exact E.
      * injection H as <- ->. apply Hmin with (b1 := b1); [reflexivity|exact Hb2].
Qed.

Lemma shortest_complete stop : forall b r,
  stop r = true ->
  (forall b1 b2, b = b1 ++ b2 -> b2 <> [] -> stop (b2 ++ r) = false) ->
  shortest stop (b ++ r) = Some (b, r).
Proof.
  induction b as [|c b IH]; intros r Hr Hmin.
  - cbn [app]. destruct r; cbn [shortest]; rewrite Hr; reflexivity.
  - assert (E : stop (c :: b ++ r) = false)
      by (apply (Hmin [] (c :: b)); [reflexivity|discriminate]).
    cbn [app shortest]. rewrite E.
    rewrite IH; [reflexivity|exact Hr|].
    intros b1 b2 -> Hb2. apply (Hmin (c :: b1) b2); [reflexivity|exact Hb2].
Qed.

Lemma shortest_total stop :
  stop [] = true -> forall t, exists b r, shortest stop t = Some (b, r).
Proof.
  intros H t. induction t as [|c t (b & r & IH)]; cbn [shortest].
  - rewrite H. eauto.
  - destruct (stop (c :: t)); [eauto|]. rewrite IH. eauto.
Qed.

(** A lazy repetition of any character stops at the first position that
    the continuation accepts. *)
Lemma lazy_any_shortest stop k :
  (forall p s g, stop s = false -> k (Cursor p s g) = None) ->
  (forall p s g, stop s = true -> k (Cursor p s g) <> None) ->
  forall t p g,
    class_star false anychar k p t g =
    match shortest stop t with
    | Some (b, r) => k (Cursor (prev_after p b) r g)
    | None => None
    end.
Proof.
  intros Hno Hyes. induction t as [|x t IH]; intros p g; cbn [class_star shortest].
  - destruct (stop []) eqn:E; [reflexivity|]. apply Hno, E.
  - rewrite in_anychar. destruct (stop (x :: t)) eqn:E.
    + specialize (Hyes p _ g E). cbn [prev_after foldl].
      destruct (k (Cursor p (x :: t) g)); [reflexivity|congruence].
    + rewrite (Hno p _ g E), IH.
      destruct (shortest stop t) as [[b r]|]; reflexivity.
Qed.

(** ** The text rule, exactly *)

Lemma text_class_plain c :
  in_cset (NoneOf [CRange (ch "0") (ch "9"); CRange (ch "A") (ch "Z");
                   CRange (ch "a") (ch "z"); CPred is_space;
                   CRange 192 65535; CChar (ch "-")]) c = negb (text_plain c).
Proof.
  unfold text_plain, is_ascii_digit, is_ascii_alpha.
  cbn [in_cset existsb in_citem]. rewrite orb_false_r, !orb_assoc. reflexivity.
Qed.

Lemma in_word_class x : in_cset word_class x = is_word x.
Proof. cbn. apply orb_false_r. Qed.

Lemma word_colon_tail_app pre post :
  forallb (in_cset word_class) pre = true ->
  match post with x :: _ => in_cset word_class x = false | [] => True end ->
  word_colon_tail (pre ++ post) =
  match post with
  | y :: rest => (y =? 58) && match rest with x :: _ => negb (is_space x) | [] => false end
  | [] => false
  end.
Proof.
  intros Hpre Hpost. induction pre as [|c pre IH].
  - cbn [app]. destruct post as [|y rest]; [reflexivity|].
    cbn [word_colon_tail]. rewrite in_word_class in Hpost. rewrite Hpost. reflexivity.
  - cbn [forallb] in Hpre. apply andb_true_iff in Hpre as [Hc Hpre].
    cbn [app word_colon_tail]. rewrite in_word_class in Hc. rewrite Hc. apply IH, Hpre.
Qed.

(** A word in front of a colon and a character that is no whitespace. *)
Lemma run_word_colon p s g :
  match run false word_colon_re (Cursor p s g) Some with
  | Some r =>
      c_groups r = g /\
      match s with c :: t => is_word c && word_colon_tail t | [] => false end = true
  | None => match s with c :: t => is_word c && word_colon_tail t | [] => false end = false
  end.
Proof.
  unfold word_colon_re, cat, Plus, Eps. py_eval. cbn [foldr].
  rewrite !run_Seq. destruct s as [|c t]; [rewrite run_Cls_end; reflexivity|].
  rewrite run_Cls_cons, in_word_class.
  destruct (is_word c) eqn:Hc; [|reflexivity]. cbv beta. rewrite run_star_class.
  destruct (longest_run (in_cset word_class) t) as (pre & post & -> & Hpre & Hpost).
  rewrite class_star_longest; [| |assumption..].
  - rewrite (word_colon_tail_app _ _ Hpre Hpost). cbn [andb].
    destruct post as [|y rest]; [rewrite run_Seq, run_Lit_end; reflexivity|].
    rewrite run_Seq, run_Lit_cons.
    destruct (y =? 58); [|reflexivity]. rewrite run_Lit_nil, run_Seq. cbn [andb].
    destruct rest as [|x rest]; [rewrite run_Cls_end; reflexivity|].
    rewrite run_Cls_cons. cbn [in_cset existsb in_citem]. rewrite orb_false_r.
    destruct (is_space x); cbn [negb]; [reflexivity|].
    rewrite run_Lit_nil. split; reflexivity.
  - intros p' x t' g' Hx. rewrite run_Seq, run_Lit_cons.
    destruct (N.eqb_spec x 58) as [->|]; [|reflexivity].
    rewrite colon_no_word in Hx. discriminate.
Qed.

Lemma text_stop_re_eq :
  text_stop_re =
  Alt (Cls (NoneOf [CRange (ch "0") (ch "9"); CRange (ch "A") (ch "Z");
                    CRange (ch "a") (ch "z"); CPred is_space;
                    CRange 192 65535; CChar (ch "-")]))
      (Alt (Lit [10; 10]) (Alt (Lit [10]) (Alt word_colon_re Eol))).
Proof. reflexivity. Qed.

(** The lookahead of the text pattern accepts exactly at the positions of
    [text_stop], and captures nothing. *)
Lemma run_text_stop p s g :
  match run false text_stop_re (Cursor p s g) Some with
  | Some r => c_groups r = g /\ text_stop s = true
  | None => text_stop s = false
  end.
Proof.
  destruct s as [|c t]; [rewrite text_stop_at_end; split; reflexivity|].
  rewrite text_stop_re_eq, run_Alt, run_Cls_cons, text_class_plain.
  cbn [text_stop].
  destruct (text_plain c); cbn [negb orb]; [|split; reflexivity].
  rewrite run_Alt, run_Lit_cons.
  destruct (N.eqb_spec c 10) as [->|Hc].
  - cbn [orb]. cbv iota.
    destruct (run false (Lit [10]) (Cursor (Some 10) t g) Some) as [r|] eqn:E.
    + apply run_Lit_inv in E as (u & -> & E). injection E as <-. split; reflexivity.
    + rewrite run_Alt, run_Lit_cons, run_Lit_nil. cbn [N.eqb Pos.eqb].
      split; reflexivity.
  - rewrite run_Alt, run_Lit_cons.
    destruct (N.eqb_spec c 10) as [|_]; [congruence|].
    rewrite run_Alt. cbn [orb].
    pose proof (run_word_colon p (c :: t) g) as H.
    destruct (run false word_colon_re (Cursor p (c :: t) g) Some) as [r|]; [exact H|].
    rewrite H. cbn [run at_eol c_rest].
    destruct t as [|c' t]; [|reflexivity].
    destruct (N.eqb_spec c 10); [congruence|reflexivity].
Qed.

Lemma text_lookahead p s g :
  run false (Seq (Look true text_stop_re) Eps) (Cursor p s g) Some =
  if text_stop s then Some (Cursor p s g) else None.
Proof.
  rewrite run_Seq, run_Look. pose proof (run_text_stop p s g) as H.
  destruct (run false text_stop_re (Cursor p s g) Some) as [r|].
  - destruct H as [Hg ->]. unfold Eps. rewrite run_Lit_nil.
    cbn [c_prev c_rest]. rewrite Hg. reflexivity.
  - rewrite H. reflexivity.
Qed.

(** X8.  The text rule does not match the empty source.  On any other
    source it captures the first character and then as few characters as
    possible up to a position where the pattern may end: the end of the
    source, a character that is not a digit, an ASCII letter, whitespace,
    a hyphen or a code point from U+00C0 to U+FFFF, a newline, or a word
    followed by a colon and a character that is no whitespace.  No earlier
    position behind the first character is such a position, and the
    capture has no groups. *)
Theorem Text_match_shortest x t state prev :
  Text_match [] state prev = NoMatch /\
  exists body rest,
    t = body ++ rest /\
    Text_match (x :: t) state prev = Matched (MkMatch (x :: body) []) /\
    text_stop rest = true /\
    (forall b1 b2, body = b1 ++ b2 -> b2 <> [] -> text_stop (b2 ++ rest) = false).
Proof.
  split; [vm_compute; reflexivity|].
  destruct (shortest_total text_stop eq_refl t) as (body & rest & Hs).
  destruct (shortest_spec _ _ _ _ Hs) as (-> & Hstop & Hmin).
  exists body, rest. split; [reflexivity|]. split; [|split; [exact Hstop|exact Hmin]].
  unfold Text_match. rewrite search_anchored by reflexivity.
  unfold exec, text_re, cat, Plus. cbn [foldr].
  rewrite !run_Seq, run_Bol_start. cbv beta.
  rewrite !run_Seq, run_Cls_cons, in_anychar. cbv beta.
  rewrite run_star_class.
  rewrite (lazy_any_shortest text_stop).
  - rewrite Hs, text_lookahead, Hstop. cbn [of_search c_groups]. f_equal. f_equal.
    apply (consumed_app None _ [] [] (x :: body) rest).
  - intros p s g E. rewrite text_lookahead, E. reflexivity.
  - intros p s g E. rewrite text_lookahead, E. discriminate.
Qed.

(** ** The spoiler rule *)

Lemma starts_with_app w : forall s, starts_with w s = true -> exists t, s = w ++ t.
Proof.
  induction w as [|c w IH]; intros s H; [exists s; reflexivity|].
  destruct s as [|x s]; [discriminate|]. cbn [starts_with] in H.
  apply andb_true_iff in H as [Hx H]. apply N.eqb_eq in Hx. subst x.
  destruct (IH _ H) as (t & ->). exists t. reflexivity.
Qed.

Lemma starts_with_refl w t : starts_with w (w ++ t) = true.
Proof.
  induction w as [|c w IH]; [reflexivity|]. cbn [app starts_with].
  rewrite N.eqb_refl. exact IH.
Qed.

Lemma run_Lit_fails ml w p s g k :
  starts_with w s = false -> run ml (Lit w) (Cursor p s g) k = None.
Proof.
  intros H. destruct (run ml (Lit w) (Cursor p s g) k) as [r|] eqn:E; [|reflexivity].
  apply run_Lit_inv in E as (t & -> & _). rewrite starts_with_refl in H. discriminate.
Qed.

(** The body of a spoiler: one character and as few more as possible up
    to the first two bars. *)
Lemma run_spoiler_body p0 x t :
  run false (Seq (Group 1 (Seq (Cls anychar) (Star false (Cls anychar))))
                 (Seq (Lit [124; 124]) Eps))
      (Cursor p0 (x :: t) []) Some =
  match shortest (starts_with [124; 124]) t with
  | Some (b, r) => Some (Cursor (Some 124) (drop 2 r) [(1%nat, x :: b)])
  | None => None
  end.
Proof.
  rewrite run_Seq, run_Group, run_Seq, run_Cls_cons, in_anychar. cbv beta.
  rewrite run_star_class.
  rewrite (lazy_any_shortest (starts_with [124; 124])).
  - destruct (shortest (starts_with [124; 124]) t) as [[b r]|] eqn:Es; [|reflexivity].
    destruct (shortest_spec _ _ _ _ Es) as (-> & Hr & _).
    apply starts_with_app in Hr as (rest & ->).
    unfold set_group. cbn [c_prev c_rest c_groups].
    rewrite run_Seq, run_Lit_app. unfold Eps. rewrite run_Lit_nil.
    rewrite (consumed_app p0 _ [] [] (x :: b) ([124; 124] ++ rest)). reflexivity.
  - intros p s g E. unfold set_group. cbn [c_prev c_rest c_groups].
    rewrite run_Seq. apply run_Lit_fails, E.
  - intros p s g E. apply starts_with_app in E as (rest & ->).
    unfold set_group. cbn [c_prev c_rest c_groups].
    rewrite run_Seq, run_Lit_app. unfold Eps. rewrite run_Lit_nil. discriminate.
Qed.

Lemma consumed_spoiler x b rest p g :
  consumed (Cursor None (124 :: 124 :: x :: b ++ 124 :: 124 :: rest) []) (Cursor p rest g) =
  124 :: 124 :: x :: b ++ [124; 124].
Proof.
  replace (124 :: 124 :: x :: b ++ 124 :: 124 :: rest)
    with ((124 :: 124 :: x :: b ++ [124; 124]) ++ rest)
    by (cbn [app]; rewrite <- app_assoc; reflexivity).
  apply consumed_app.
Qed.

Lemma exec_spoiler source m :
  exec false spoiler_re None source = Some m <->
  exists x body rest,
    source = py "||" ++ x :: body ++ py "||" ++ rest /\
    (forall b1 b2, body = b1 ++ b2 -> b2 <> [] ->
                   starts_with (py "||") (b2 ++ py "||" ++ rest) = false) /\
    m = MkMatch (py "||" ++ x :: body ++ py "||") [(1%nat, x :: body)].
Proof.
  unfold exec, spoiler_re, cat, Plus. py_eval. cbn [foldr].
  rewrite run_Seq, run_Bol_start. cbv beta. rewrite run_Seq. split.
  - destruct (run false (Lit [124; 124]) _ _) as [cu|] eqn:E; [|discriminate].
    apply run_Lit_inv in E as (u & -> & E).
    destruct u as [|x t].
    { rewrite run_Seq, run_Group, run_Seq, run_Cls_end in E. discriminate. }
    rewrite run_spoiler_body in E.
    destruct (shortest (starts_with [124; 124]) t) as [[b r]|] eqn:Es; [|discriminate].
    destruct (shortest_spec _ _ _ _ Es) as (-> & Hr & Hmin).
    apply starts_with_app in Hr as (rest & ->).
    injection E as <-. intros [= <-]. exists x, b, rest.
    split; [reflexivity|]. split; [exact Hmin|].
    change (drop 2 ([124; 124] ++ rest)) with rest. cbn [c_groups app].
    rewrite consumed_spoiler. reflexivity.
  - intros (x & body & rest & -> & Hmin & ->).
    rewrite run_Lit_app, run_spoiler_body.
    rewrite (shortest_complete (starts_with [124; 124]) body ([124; 124] ++ rest));
      [|reflexivity|exact Hmin].
    change (drop 2 ([124; 124] ++ rest)) with rest. cbn [c_groups app].
    rewrite consumed_spoiler. reflexivity.
Qed.

(** X9.  The spoiler rule matches exactly the sources that start with two
    bars, at least one character and two bars again.  The body, group 1,
    is as short as possible: behind its first character it ends at the
    first two bars, so it is never empty.  [parse] hands the body to the
    nested parser with the state as it stands and returns the state that
    the nested parser leaves. *)
Theorem Spoiler_match_shortest source state prev m :
  (Spoiler_match source state prev = Matched m <->
   exists x body rest,
     source = py "||" ++ x :: body ++ py "||" ++ rest /\
     (forall b1 b2, body = b1 ++ b2 -> b2 <> [] ->
                    starts_with (py "||") (b2 ++ py "||" ++ rest) = false) /\
     m = MkMatch (py "||" ++ x :: body ++ py "||") [(1%nat, x :: body)])
  /\ (forall w inner parse,
        Spoiler_parse (MkMatch w [(1%nat, inner)]) parse state =
        (r <- parse inner state ;; Ok (VDict [(py "content", fst r)], snd r))).
Proof.
  split.
  - unfold Spoiler_match. rewrite search_anchored by reflexivity.
    rewrite of_search_Matched. apply exec_spoiler.
  - intros w inner parse. unfold Spoiler_parse.
    change (capture_at (MkMatch w [(1%nat, inner)]) 1) with (VStr inner).
    cbn [as_str bind]. destruct (parse inner state) as [[nodes st]|e]; reflexivity.
Qed.

(** ** BlockQuote: where a quote may start *)

Lemma search_from_split ml r : forall s prev m,
  search_from ml r prev s = Some m ->
  exists a b, s = a ++ b /\ exec ml r (prev_after prev a) b = Some m.
Proof.
  induction s as [|c s IH]; intros prev m; cbn [search_from].
  - destruct (exec ml r prev []) as [m'|] eqn:E; [|discriminate].
    intros [= <-]. exists [], []. split; [reflexivity|exact E].
  - destruct (exec ml r prev (c :: s)) as [m'|] eqn:E.
    + intros [= <-]. exists [], (c :: s). split; [reflexivity|exact E].
    + intros H. destruct (IH _ _ H) as (a & b & -> & Hb).
      exists (c :: a), b. split; [reflexivity|exact Hb].
Qed.

Lemma search_from_reaches ml r : forall a b prev,
  exec ml r (prev_after prev a) b <> None ->
  search_from ml r prev (a ++ b) <> None.
Proof.
  induction a as [|c a IH]; intros b prev H.
  - cbn [app]. cbn [prev_after foldl] in H.
    destruct b; cbn [search_from]; destruct (exec ml r prev _); congruence.
  - cbn [app search_from]. destruct (exec ml r prev (c :: a ++ b)); [discriminate|].
    apply IH. exact H.
Qed.

Lemma prev_after_snoc p a x : prev_after p (a ++ [x]) = Some x.
Proof. unfold prev_after. rewrite foldl_app. reflexivity. Qed.

Lemma prev_after_None a : prev_after None a = None -> a = [].
Proof.
  destruct a as [|x a] using rev_ind; [reflexivity|].
  rewrite prev_after_snoc. discriminate.
Qed.

(** A greedy run of one character gives back as much as the continuation
    needs. *)
Lemma run_Star_lit_inv ml c k g : forall u p r,
  run ml (Star true (Lit [c])) (Cursor p u g) k = Some r ->
  exists j u' p', u = List.repeat c j ++ u' /\ k (Cursor p' u' g) = Some r.
Proof.
  induction u as [|x u IH]; intros p r.
  - rewrite run_Star_lit_end. intros H. exists 0%nat, [], p. split; [reflexivity|exact H].
  - rewrite run_Star. cbv zeta. rewrite run_Lit_cons.
    destruct (N.eqb_spec x c) as [->|Hx].
    + rewrite run_Lit_nil. cbn [c_rest length].
      replace (length u <? S (length u))%nat with true
        by (symmetry; apply Nat.ltb_lt; lia).
      destruct (run ml (Star true (Lit [c])) (Cursor (Some c) u g) k) as [r'|] eqn:E.
      * intros [= <-]. destruct (IH _ _ E) as (j & u' & p' & -> & Hk).
        exists (S j), u', p'. split; [reflexivity|exact Hk].
      * intros H. exists 0%nat, (c :: u), p. split; [reflexivity|exact H].
    + intros H. exists 0%nat, (x :: u), p. split; [reflexivity|exact H].
Qed.

Lemma run_Star_lit_all ml c k g :
  (forall p, k (Cursor p [] g) <> None) ->
  forall j p, run ml (Star true (Lit [c])) (Cursor p (List.repeat c j) g) k <> None.
Proof.
  intros Hk. induction j as [|j IH]; intros p.
  - cbn [List.repeat]. rewrite run_Star_lit_end. apply Hk.
  - cbn [List.repeat]. rewrite run_Star. cbv zeta.
    rewrite run_Lit_cons, N.eqb_refl, run_Lit_nil. cbn [c_rest length].
    replace (length (List.repeat c j) <? S (length (List.repeat c j)))%nat with true
      by (symmetry; apply Nat.ltb_lt; lia).
    specialize (IH (Some c)).
    destruct (run ml (Star true (Lit [c])) (Cursor (Some c) (List.repeat c j) g) k);
      [discriminate|congruence].
Qed.

Lemma at_eol_end p u g : at_eol false (Cursor p u g) = true -> u = [] \/ u = [10].
Proof.
  destruct u as [|x [|y u]]; cbn [at_eol c_rest andb]; [auto| |discriminate].
  intros H. apply N.eqb_eq in H. subst. auto.
Qed.

Lemma line_boundary_spec prev :
  given (search false line_boundary_re prev) = true <-> at_line_start prev.
Proof.
  split.
  - destruct (search false line_boundary_re prev) as [m|] eqn:E; [|discriminate].
    intros _. apply search_from_split in E as (a & b & -> & E).
    unfold exec in E.
    destruct (run false line_boundary_re _ Some) as [r|] eqn:Er; [|discriminate].
    clear E. unfold line_boundary_re, cat, spaces, Eps in Er. py_eval.
    cbn [foldr] in Er. rewrite run_Alt in Er.
    destruct (run false (Seq Bol Eol) _ Some) as [r1|] eqn:E1.
    + clear Er. rewrite run_Seq in E1. cbn [run at_bol c_prev] in E1.
      destruct (prev_after None a) as [c|] eqn:Ea; [discriminate|].
      apply prev_after_None in Ea. subst a. cbn [app].
      destruct (at_eol false (Cursor None b [])) eqn:Ee; [|discriminate].
      apply at_eol_end in Ee as [-> | ->]; [left; reflexivity|].
      right. exists [], 0%nat. reflexivity.
    + rewrite run_Seq in Er. apply run_Lit_inv in Er as (u & -> & Er).
      rewrite run_Seq in Er.
      apply run_Star_lit_inv in Er as (j & u' & p' & -> & Er).
      rewrite run_Seq in Er. cbn [run] in Er.
      destruct (at_eol false (Cursor p' u' [])) eqn:Ee; [|discriminate].
      right. apply at_eol_end in Ee as [-> | ->].
      * exists a, j. rewrite app_nil_r. reflexivity.
      * exists (a ++ 10 :: List.repeat 32 j), 0%nat.
        rewrite <- app_assoc. reflexivity.
  - intros [-> | (p & k & ->)]; [apply line_boundary_empty|].
    unfold search.
    destruct (search_from false line_boundary_re None (p ++ 10 :: List.repeat 32 k))
      eqn:E; [reflexivity|].
    exfalso. revert E. apply search_from_reaches. unfold exec.
    match goal with
    | |- match ?x with _ => _ end <> None =>
        assert (H : x <> None); [|destruct x; congruence]
    end.
    unfold line_boundary_re, cat, spaces, Eps. py_eval. cbn [foldr].
    rewrite run_Alt. destruct (run false (Seq Bol Eol) _ Some); [discriminate|].
    rewrite run_Seq, run_Lit_cons. cbn [N.eqb Pos.eqb]. rewrite run_Lit_nil, run_Seq.
    apply run_Star_lit_all. intros p'. rewrite run_Seq. cbn. discriminate.
Qed.

(** X10.  The quote rule matches only where a line starts and outside a
    quote: [match] returns [None] unless [previous_source] is empty or
    ends in a newline followed by spaces only, and unless [in_quote] is
    not set; when both hold, the result is that of the quote pattern on
    the source. *)
Theorem BlockQuote_match_guard source state prev :
  (BlockQuote_match source state prev <> NoMatch ->
   in_quote state = false /\ at_line_start prev)
  /\ (in_quote state = false -> at_line_start prev ->
      BlockQuote_match source state prev = of_search (search false block_quote_re source)).
Proof.
  unfold BlockQuote_match. split.
  - destruct (given (search false line_boundary_re prev)) eqn:E; cbn [negb orb];
      [|congruence].
    destruct (in_quote state); [congruence|]. intros _.
    split; [reflexivity|]. apply line_boundary_spec, E.
  - intros Hq Hp. apply line_boundary_spec in Hp. rewrite Hp, Hq. reflexivity.
Qed.

(** ** Links *)

(** A tag with one attribute that has a value, and no remap table. *)
Lemma html_tag_one tag_name content k v is_closed :
  v <> [] ->
  html_tag tag_name content (Some [(k, Some v)]) is_closed None =
  py "<" ++ tag_name ++ py " " ++ sanitize_text k ++ py "=\x22" ++ sanitize_text v
  ++ py "\x22>" ++ (if is_closed then content ++ py "</" ++ tag_name ++ py ">" else []).
Proof.
  intros Hv. destruct v as [|c v]; [congruence|].
  unfold html_tag. cbn [default mbind option_bind]. unfold Datatypes.id.
  replace (match assoc (py "class") [(k, Some (c :: v))] with
           | Some (Some _) | _ => [(k, Some (c :: v))]
           end) with [(k, Some (c :: v))]
    by (destruct (assoc (py "class") [(k, Some (c :: v))]) as [[?|]|]; reflexivity).
  cbn [List.filter value_truthy str_truthy snd fst map join from_option].
  destruct is_closed; rewrite <- ?app_assoc; [reflexivity|].
  rewrite app_nil_r. reflexivity.
Qed.

Lemma getitem_link_content url :
  getitem (link_node url) (py "content") = Ok (VList [text_node url]).
Proof. reflexivity. Qed.

Lemma getitem_link_target url : getitem (link_node url) (py "target") = Ok (VStr url).
Proof. reflexivity. Qed.

(** X11.  [AutoLink] and [URL] parse a capture with group 1 into the same
    node, a text node of the address and the address as target, and
    render it the same way: an [a] tag around the rendered content whose
    [href] is the escaped result of [sanitize_url].  When [sanitize_url]
    rejects the address (it returns [None], or an empty string), the tag
    has no [href] at all. *)
Theorem link_rules_render_href m url parse output state :
  group m 1 = Some url ->
  URL_parse m parse state = Ok (link_node url, state)
  /\ AutoLink_parse m parse state = Ok (link_node url, state)
  /\ URL_html (link_node url) output state = AutoLink_html (link_node url) output state
  /\ (sanitize_url url = None \/ sanitize_url url = Some [] ->
      AutoLink_html (link_node url) output state =
      (inner <- output (VList [text_node url]) state ;;
       Ok (py "<a >" ++ inner ++ py "</a>")))
  /\ (forall href, href <> [] -> sanitize_url url = Some href ->
      AutoLink_html (link_node url) output state =
      (inner <- output (VList [text_node url]) state ;;
       Ok (py "<a href=\x22" ++ sanitize_text href ++ py "\x22>" ++ inner ++ py "</a>"))).
Proof.
  intros Hg.
  assert (Hc : capture_at m 1 = VStr url) by (unfold capture_at; rewrite Hg; reflexivity).
  split; [unfold URL_parse; rewrite Hc; reflexivity|].
  split; [unfold AutoLink_parse; rewrite Hc; reflexivity|].
  split; [reflexivity|].
  unfold AutoLink_html. rewrite getitem_link_content, getitem_link_target.
  cbn [bind as_str]. split.
  - intros Hs. destruct (output _ state) as [inner|e]; [|reflexivity]. cbn [bind].
    f_equal. unfold state_truthy.
    destruct Hs as [-> | ->]; vm_compute; reflexivity.
  - intros href Hh Hs. destruct (output _ state) as [inner|e]; [|reflexivity]. cbn [bind].
    f_equal. unfold state_truthy. rewrite Hs, (html_tag_one _ _ _ _ _ Hh).
    py_lit. py_eval. reflexivity.
Qed.

(** ** CodeBlock.html, when it returns *)

Lemma html_tag_bare tag_name content :
  html_tag tag_name content None true None =
  py "<" ++ tag_name ++ py " >" ++ content ++ py "</" ++ tag_name ++ py ">".
Proof. unfold html_tag. cbn. rewrite <- !app_assoc. reflexivity. Qed.

Lemma CodeBlock_html_empty_markup lang content quoted lx output state :
  lang <> [] ->
  get_lexer_by_name lang = Ok (Some lx) ->
  highlight content lx = [] ->
  css_module_names state = None ->
  CodeBlock_html (code_node lang content quoted) output state = Raise AttributeError.
Proof.
  intros Hl E Hh Hc. destruct lang as [|c l]; [congruence|].
  unfold CodeBlock_html.
  rewrite !getitem_lang, getitem_content. cbn [bind truthy str_eqb negb as_str].
  rewrite E. cbn [bind]. rewrite Hc, Hh. reflexivity.
Qed.

(** X12.  Without a remap table, [CodeBlock.html] returns for a node of
    [CodeBlock.parse] exactly when the language is not empty, the lexer
    lookup finds a lexer for it and the highlighter returns markup that
    is not empty; the result is then the markup, as it is, in a [code]
    tag of class [hljs] and the escaped language, inside a [pre] tag.  In
    every other case it raises. *)
Theorem CodeBlock_html_returns_iff lang content quoted output state html :
  css_module_names state = None ->
  CodeBlock_html (code_node lang content quoted) output state = Ok html <->
  exists lx,
    lang <> [] /\ get_lexer_by_name lang = Ok (Some lx) /\ highlight content lx <> [] /\
    html = py "<pre ><code class=\x22hljs " ++ sanitize_text lang ++ py "\x22>"
           ++ highlight content lx ++ py "</code></pre>".
Proof.
  intros Hc.
  assert (Hok : forall lx, lang <> [] -> get_lexer_by_name lang = Ok (Some lx) ->
                highlight content lx <> [] ->
                CodeBlock_html (code_node lang content quoted) output state =
                Ok (py "<pre ><code class=\x22hljs " ++ sanitize_text lang ++ py "\x22>"
                    ++ highlight content lx ++ py "</code></pre>")).
  { intros lx Hl E Hh.
    rewrite (CodeBlock_html_recognised _ _ _ lx _ _ Hl E Hh Hc). f_equal.
    rewrite html_tag_bare, html_tag_one by discriminate.
    rewrite sanitize_text_app. py_lit. py_eval. rewrite <- !app_assoc. reflexivity. }
  split.
  - intros H. destruct lang as [|c l] eqn:El; [discriminate H|]. rewrite <- El in *.
    assert (Hl : lang <> []) by (rewrite El; discriminate).
    destruct (get_lexer_by_name lang) as [[lx|]|e] eqn:E.
    + destruct (highlight content lx) as [|h t] eqn:Eh.
      * rewrite (CodeBlock_html_empty_markup _ _ _ lx _ _ Hl E Eh Hc) in H. discriminate.
      * assert (Hh : highlight content lx <> []) by (rewrite Eh; discriminate).
        exists lx. rewrite (Hok lx Hl eq_refl Hh) in H. injection H as <-.
        rewrite Eh. auto.
    + destruct (CodeBlock_html_unknown_language lang content quoted output state Hl)
        as [Hnone _].
      rewrite (Hnone E) in H. discriminate.
    + destruct (CodeBlock_html_unknown_language lang content quoted output state Hl)
        as [_ Hraise].
      rewrite (Hraise e E) in H. discriminate.
  - intros (lx & Hl & E & Hh & ->). apply Hok; assumption.
Qed.

(** ** BlockQuote: where a quote in line form ends *)

Lemma later_lines_tail_head ls rest :
  match later_lines ls ++ 10 :: rest with
  | x :: _ => in_cset not_newline x = false
  | [] => True
  end.
Proof. destruct ls as [|l ls]; reflexivity. Qed.

(** In front of a line without marker the repetition of later lines
    stops. *)
Lemma later_line_fails p rest g k :
  unmarked rest -> run false later_line_re (Cursor p (10 :: rest) g) k = None.
Proof.
  intros Hr. unfold later_line_re, cat, spaces, Eps. py_eval. cbn [foldr].
  rewrite run_Group, run_Seq, run_Lit_cons. cbn [N.eqb Pos.eqb].
  rewrite run_Lit_nil, run_Seq.
  destruct rest as [|c rest].
  - rewrite run_Star_lit_end, run_Seq, run_Lit_end. reflexivity.
  - destruct Hr as [H32 H62].
    rewrite run_Star_lit_stop by (apply N.eqb_neq; exact H32).
    rewrite run_Seq, run_Lit_cons.
    destruct (N.eqb_spec c 62); [congruence|reflexivity].
Qed.

Lemma run_later_lines_then rest k :
  unmarked rest ->
  (forall p g, exists r, k (Cursor p (10 :: rest) g) = Some r /\ c_rest r = rest) ->
  forall ls, Forall (fun l => no_newline l = true) ls ->
  forall p g, exists r,
    run false (Star true later_line_re) (Cursor p (later_lines ls ++ 10 :: rest) g) k = Some r /\
    c_rest r = rest.
Proof.
  intros Hr Hk ls Hls. induction Hls as [|l ls Hl Hls IH]; intros p g.
  - cbn [later_lines map concat app]. rewrite run_Star. cbv zeta.
    rewrite (later_line_fails _ _ _ _ Hr). apply Hk.
  - rewrite run_Star. cbv zeta. rewrite later_lines_cons.
    unfold later_line_re at 1. unfold cat, spaces, Eps. py_eval. cbn [foldr app].
    rewrite run_Group, run_Seq, run_Lit_cons. cbn [N.eqb Pos.eqb].
    rewrite run_Lit_nil, run_Seq, run_Star_lit_stop by reflexivity.
    cbv beta. rewrite run_Seq, !run_Lit_cons. cbn [N.eqb Pos.eqb].
    rewrite run_Lit_nil, run_Seq, run_star_class.
    destruct (IH (prev_after (Some 32) l)
                 ((4%nat, 10 :: 62 :: 32 :: l) :: g)) as (r & Hrun & Hrest).
    rewrite <- app_assoc.
    rewrite (class_star_accept _ _ r); [exists r; split; [reflexivity|exact Hrest]
                                       |exact Hl|apply later_lines_tail_head|].
    cbv beta. rewrite run_Lit_nil. unfold set_group. cbn [c_prev c_rest c_groups length].
    replace (length (later_lines ls ++ 10%N :: rest)
             <? S (S (S (length (l ++ later_lines ls ++ 10%N :: rest)))))%nat
      with true by (symmetry; apply Nat.ltb_lt; rewrite !length_app; lia).
    change (10 :: 62 :: 32 :: l ++ later_lines ls ++ 10 :: rest)
      with ((10 :: 62 :: 32 :: l) ++ later_lines ls ++ 10 :: rest).
    rewrite consumed_app. exact Hrun.
Qed.

Lemma BlockQuote_match_lines_then l ls rest st :
  in_quote st = false ->
  no_newline l = true -> Forall (fun l => no_newline l = true) ls ->
  unmarked rest ->
  exists m,
    BlockQuote_match (py "> " ++ l ++ later_lines ls ++ py "\n" ++ rest) st [] = Matched m /\
    whole m = py "> " ++ l ++ later_lines ls ++ py "\n".
Proof.
  intros Hq Hl Hls Hr. unfold BlockQuote_match. rewrite Hq, line_boundary_empty.
  cbn [negb orb].
  rewrite search_anchored by reflexivity.
  unfold exec, block_quote_re, spaces, cat, Opt, Eps. py_eval. cbn [foldr app].
  rewrite run_Alt.
  rewrite run_Seq, run_Bol_start. cbv beta.
  rewrite run_Group, run_Seq, run_Star_lit_stop by reflexivity. cbv beta.
  rewrite run_Seq, !run_Lit_cons. cbn [N.eqb Pos.eqb].
  rewrite run_Seq, run_Bol_start. cbv beta.
  rewrite run_Group, run_Seq, run_Star_lit_stop by reflexivity. cbv beta.
  rewrite run_Seq, !run_Lit_cons. cbn [N.eqb Pos.eqb].
  rewrite run_Lit_nil, run_Seq, run_star_class.
  match goal with
  | |- context [class_star true not_newline ?k ?p (l ++ later_lines ls ++ 10 :: rest) ?g] =>
      assert (H : exists r,
                k (Cursor (prev_after p l) (later_lines ls ++ 10 :: rest) g) = Some r /\
                c_rest r = rest)
  end.
  { cbv beta. rewrite run_Seq.
    change (Group 4 (Seq (Lit [10]) (Seq (Star true (Lit [32]))
              (Seq (Lit [62; 32]) (Seq (Star true (Cls not_newline)) (Lit []))))))
      with later_line_re.
    apply run_later_lines_then; [exact Hr| |exact Hls].
    intros p g. cbv beta. rewrite run_Seq, run_Alt, run_Lit_cons. cbn [N.eqb Pos.eqb].
    rewrite !run_Lit_nil. eexists. split; reflexivity. }
  destruct H as (r & Hrun & Hrest).
  rewrite (class_star_accept _ _ r); [|exact Hl|apply later_lines_tail_head|exact Hrun].
  destruct r as [rp rr rg]. cbn [c_rest] in Hrest. subst rr.
  eexists. split; [reflexivity|]. cbn [whole].
  replace (62 :: 32 :: l ++ later_lines ls ++ 10 :: rest)
    with ((62 :: 32 :: l ++ later_lines ls ++ [10]) ++ rest)
    by (cbn [app]; rewrite <- !app_assoc; reflexivity).
  apply consumed_app.
Qed.

Lemma line_marker_end p : exec true line_marker_re p [] = None.
Proof.
  unfold exec, line_marker_re, spaces, cat, Opt, Eps. py_eval. cbn [foldr].
  rewrite run_Seq.
  assert (E : forall cu k, run true Bol cu k = if at_bol true cu then k cu else None)
    by reflexivity.
  rewrite E. destruct (at_bol true (Cursor p [] [])); [|reflexivity].
  rewrite run_Seq, run_Star_lit_end, run_Seq, run_Lit_end. reflexivity.
Qed.

Lemma sub_later_lines_nl ls :
  Forall (fun l => no_newline l = true) ls ->
  forall c, c <> 10 ->
  sub_from true line_marker_re (fun _ => []) None O (Some c) (later_lines ls ++ [10]) =
  later_content ls ++ [10].
Proof.
  intros Hls. induction Hls as [|l ls Hl Hls IH]; intros c Hc.
  - cbn [later_lines later_content map concat app sub_from].
    rewrite (line_marker_inside _ _ Hc), line_marker_end. reflexivity.
  - rewrite later_lines_cons. cbn [app sub_from].
    rewrite (line_marker_inside _ _ Hc).
    rewrite line_marker_at_start by (right; reflexivity).
    cbn [whole length app spend fmap option_fmap option_map sub_from].
    rewrite <- app_assoc.
    rewrite sub_line_body by (discriminate || exact Hl).
    destruct (prev_after_no_newline l 32) as (c' & -> & Hc');
      [discriminate|exact Hl|].
    rewrite (IH c' Hc'). cbn [later_content map concat app].
    rewrite <- app_assoc. reflexivity.
Qed.

Lemma quote_content_lines_nl l ls :
  no_newline l = true -> Forall (fun l => no_newline l = true) ls ->
  quote_content (py "> " ++ l ++ later_lines ls ++ py "\n") =
  l ++ later_content ls ++ py "\n".
Proof.
  intros Hl Hls. unfold quote_content.
  rewrite search_anchored by reflexivity.
  assert (E : exec false block_marker_re None (py "> " ++ l ++ later_lines ls ++ py "\n")
              = None).
  { unfold exec, block_marker_re, spaces, cat, Opt, Eps. py_eval. cbn [foldr app].
    rewrite run_Seq, run_Bol_start. cbv beta.
    rewrite run_Seq, run_Star_lit_stop by reflexivity. cbv beta.
    rewrite run_Seq, !run_Lit_cons. cbn [N.eqb Pos.eqb]. reflexivity. }
  rewrite E. cbn [given]. unfold sub. py_eval. cbn [app sub_from].
  rewrite line_marker_at_start by (left; reflexivity).
  cbn [whole length app spend fmap option_fmap option_map sub_from].
  rewrite sub_line_body by (discriminate || exact Hl).
  destruct (prev_after_no_newline l 32) as (c' & -> & Hc');
    [discriminate|exact Hl|].
  rewrite (sub_later_lines_nl ls Hls c' Hc'). reflexivity.
Qed.

(** X13.  A quote in line form ends with its last marked line.  At the
    start of a source and outside a quote, lines that each start with a
    marker and a space, followed by a newline and by a line that starts
    with neither a space nor a marker (or by nothing), are captured up to
    and including that newline; what follows is left in the source.
    [parse] strips the marker of every line and keeps the final newline
    in the content that it hands to the nested parser. *)
Theorem BlockQuote_ends_at_unmarked_line l ls rest parse state :
  in_quote state = false ->
  no_newline l = true -> Forall (fun l => no_newline l = true) ls ->
  unmarked rest ->
  exists m,
    BlockQuote_match
      (join (py "\n") (map (fun l => py "> " ++ l) (l :: ls)) ++ py "\n" ++ rest)
      state [] = Matched m /\
    whole m = join (py "\n") (map (fun l => py "> " ++ l) (l :: ls)) ++ py "\n" /\
    BlockQuote_parse m parse state =
      quote_node parse (join (py "\n") (l :: ls) ++ py "\n") state.
Proof.
  intros Hq Hl Hls Hr. rewrite join_marked_lines, join_lines.
  replace ((py "> " ++ l ++ later_lines ls) ++ py "\n" ++ rest)
    with (py "> " ++ l ++ later_lines ls ++ py "\n" ++ rest)
    by (rewrite <- !app_assoc; reflexivity).
  replace ((py "> " ++ l ++ later_lines ls) ++ py "\n")
    with (py "> " ++ l ++ later_lines ls ++ py "\n")
    by (rewrite <- !app_assoc; reflexivity).
  replace ((l ++ later_content ls) ++ py "\n") with (l ++ later_content ls ++ py "\n")
    by (rewrite <- !app_assoc; reflexivity).
  destruct (BlockQuote_match_lines_then l ls rest state Hq Hl Hls Hr) as (m & Hm & Hw).
  exists m. split; [exact Hm|]. split; [exact Hw|].
  rewrite BlockQuote_parse_eq, Hw, quote_content_lines_nl by assumption. reflexivity.
Qed.

(** ** InlineCode *)

Lemma lazy_any_shortest_at g stop k :
  (forall p s, stop s = false -> k (Cursor p s g) = None) ->
  (forall p s, stop s = true -> k (Cursor p s g) <> None) ->
  forall t p,
    class_star false anychar k p t g =
    match shortest stop t with
    | Some (b, r) => k (Cursor (prev_after p b) r g)
    | None => None
    end.
Proof.
  intros Hno Hyes. induction t as [|x t IH]; intros p; cbn [class_star shortest].
  - destruct (stop []) eqn:E; [reflexivity|]. apply Hno, E.
  - rewrite in_anychar. destruct (stop (x :: t)) eqn:E.
    + specialize (Hyes p _ E). cbn [prev_after foldl].
      destruct (k (Cursor p (x :: t) g)); [reflexivity|congruence].
    + rewrite (Hno p _ E), IH.
      destruct (shortest stop t) as [[b r]|]; reflexivity.
Qed.

Lemma run_Backref ml n s cu k :
  lookup_group n (c_groups cu) = Some s ->
  run ml (Backref n) cu k = run ml (Lit s) cu k.
Proof. intros H. cbn [run]. rewrite H. reflexivity. Qed.

Lemma run_Look_not ml a cu k :
  run ml (Look false a) cu k =
  match run ml a cu Some with Some _ => None | None => k cu end.
Proof. cbn [run]. destruct (run ml a cu Some); reflexivity. Qed.

Lemma length_ticks n : length (ticks n) = n.
Proof. apply repeat_length. Qed.

Lemma drop_ticks n t : drop n (ticks n ++ t) = t.
Proof.
  pose proof (drop_app_length (ticks n) t) as H. rewrite length_ticks in H. exact H.
Qed.

(** Behind the code: the opening run again, and no further backtick. *)
Lemma run_code_end n p s g :
  lookup_group 1 g = Some (ticks n) ->
  run false (Seq (Backref 1) (Seq (Look false (Cls backtick)) Eps)) (Cursor p s g) Some =
  if starts_with (ticks n) s && negb (starts_with [96] (drop n s))
  then Some (Cursor (prev_after p (ticks n)) (drop n s) g)
  else None.
Proof.
  intros Hg. rewrite run_Seq, (run_Backref _ _ (ticks n)) by exact Hg.
  destruct (starts_with (ticks n) s) eqn:E.
  - apply starts_with_app in E as (t & ->).
    rewrite run_Lit_app, run_Seq, run_Look_not, !drop_ticks. cbn [andb].
    destruct t as [|x t].
    + rewrite run_Cls_end. reflexivity.
    + rewrite run_Cls_cons. cbn [in_cset backtick existsb in_citem starts_with].
      rewrite orb_false_r, andb_true_r.
      change (ch "`") with 96. destruct (x =? 96); reflexivity.
  - apply run_Lit_fails, E.
Qed.

Lemma lookup_group_behind n m s g :
  n <> m -> lookup_group n ((m, s) :: g) = lookup_group n g.
Proof.
  intros H. unfold lookup_group. cbn [List.find fst].
  destruct (Nat.eqb_spec m n); [congruence|reflexivity].
Qed.

Lemma not_tick_class c : in_cset (NoneOf [CChar (ch "`")]) c = negb (c =? 96).
Proof. cbn. rewrite orb_false_r. reflexivity. Qed.

(** The code and what closes it, seen from a position inside the span. *)
Lemma run_code_tail n cu1 p s g :
  lookup_group 1 g = Some (ticks n) ->
  run false (Cls (NoneOf [CChar (ch "`")])) (Cursor p s g)
      (fun cu' => run false (Seq (Backref 1) (Seq (Look false (Cls backtick)) Eps))
                      (set_group 2 cu1 cu') Some) =
  match s with
  | c :: u =>
      if code_stop n s
      then Some (Cursor (prev_after (Some c) (ticks n)) (drop n u)
                        ((2%nat, consumed cu1 (Cursor (Some c) u g)) :: g))
      else None
  | [] => None
  end.
Proof.
  intros Hg. destruct s as [|c u]; [reflexivity|].
  rewrite run_Cls_cons, not_tick_class. cbn [code_stop].
  destruct (c =? 96); cbn [negb andb]; [reflexivity|].
  unfold set_group. cbn [c_prev c_rest c_groups].
  apply run_code_end. rewrite lookup_group_behind by discriminate. exact Hg.
Qed.

Lemma no_tick_head s t :
  s <> [] -> no_tick s = true -> forall n, starts_with (ticks (S n)) (s ++ t) = false.
Proof.
  intros Hs Hn n. destruct s as [|x s]; [congruence|].
  cbn [no_tick forallb] in Hn. apply andb_true_iff in Hn as [Hx _].
  apply negb_true_iff in Hx. cbn [ticks List.repeat app starts_with].
  rewrite Hx. reflexivity.
Qed.

Lemma no_tick_app a b : no_tick (a ++ b) = no_tick a && no_tick b.
Proof. apply forallb_app. Qed.

Lemma shortest_code n init last rest :
  no_tick (init ++ [last]) = true ->
  match rest with c :: _ => c <> 96 | [] => True end ->
  shortest (code_stop (S n)) ((init ++ [last]) ++ ticks (S n) ++ rest) =
  Some (init, last :: ticks (S n) ++ rest).
Proof.
  intros Hn Hr. rewrite no_tick_app in Hn. apply andb_true_iff in Hn as [Hi Hl].
  rewrite <- app_assoc. cbn [app].
  apply shortest_complete.
  - cbn [code_stop]. cbn [no_tick forallb] in Hl. rewrite andb_true_r in Hl.
    rewrite Hl, starts_with_refl, drop_ticks. cbn [andb].
    destruct rest as [|c rest]; [reflexivity|]. cbn [starts_with].
    rewrite andb_true_r. destruct (N.eqb_spec c 96); [congruence|reflexivity].
  - intros b1 b2 -> Hb2. destruct b2 as [|c b2]; [congruence|].
    cbn [app code_stop].
    rewrite no_tick_app in Hi. apply andb_true_iff in Hi as [_ Hi].
    cbn [no_tick forallb] in Hi. apply andb_true_iff in Hi as [_ Hb].
    change (b2 ++ last :: ticks (S n) ++ rest)
      with (b2 ++ [last] ++ ticks (S n) ++ rest).
    rewrite app_assoc.
    rewrite no_tick_head; [rewrite andb_false_r; reflexivity| |].
    + destruct b2; discriminate.
    + rewrite no_tick_app. unfold no_tick at 1. rewrite Hb. exact Hl.
Qed.

Lemma inline_code_re_eq :
  inline_code_re = Seq Bol (Seq (Group 1 (Plus true (Cls backtick))) code_span_re).
Proof. reflexivity. Qed.

Lemma run_code_span n p1 code rest :
  code <> [] -> no_tick code = true ->
  match rest with c :: _ => c <> 96 | [] => True end ->
  exists p',
    run false code_span_re (Cursor p1 (code ++ ticks (S n) ++ rest) [(1%nat, ticks (S n))])
        Some =
    Some (Cursor p' rest [(2%nat, code); (1%nat, ticks (S n))]).
Proof.
  intros Hc Hn Hr.
  destruct (exists_last Hc) as (init & last & ->).
  unfold code_span_re, cat, Eps. cbn [foldr].
  rewrite run_Seq, run_Group, run_Seq, run_star_class.
  rewrite (lazy_any_shortest_at _ (code_stop (S n))).
  - rewrite (shortest_code _ _ _ _ Hn Hr).
    rewrite (run_code_tail (S n)) by reflexivity.
    pose proof (shortest_code n init last rest Hn Hr) as Hs.
    apply shortest_spec in Hs as (_ & Hs & _). rewrite Hs.
    rewrite drop_ticks.
    replace ((init ++ [last]) ++ ticks (S n) ++ rest)
      with ((init ++ [last]) ++ (ticks (S n) ++ rest)) by reflexivity.
    rewrite consumed_app. eexists. reflexivity.
  - intros p s E. rewrite (run_code_tail (S n)) by reflexivity.
    destruct s; [reflexivity|]. rewrite E. reflexivity.
  - intros p s E. rewrite (run_code_tail (S n)) by reflexivity.
    destruct s; [discriminate E|]. rewrite E. discriminate.
Qed.

Lemma ticks_class n : forallb (in_cset backtick) (ticks n) = true.
Proof. induction n as [|n IH]; [reflexivity|]. cbn [ticks List.repeat forallb]. exact IH. Qed.

Lemma exec_inline_code n code rest :
  code <> [] -> no_tick code = true ->
  match rest with c :: _ => c <> 96 | [] => True end ->
  exec false inline_code_re None (ticks (S n) ++ code ++ ticks (S n) ++ rest) =
  Some (MkMatch (ticks (S n) ++ code ++ ticks (S n))
                [(2%nat, code); (1%nat, ticks (S n))]).
Proof.
  intros Hc Hn Hr. unfold exec. rewrite inline_code_re_eq.
  rewrite run_Seq, run_Bol_start. cbv beta. rewrite run_Seq, run_Group. unfold Plus.
  rewrite run_Seq.
  change (ticks (S n) ++ code ++ ticks (S n) ++ rest)
    with (96 :: ticks n ++ code ++ ticks (S n) ++ rest).
  rewrite run_Cls_cons. change (in_cset backtick 96) with true. cbv beta iota.
  rewrite run_star_class.
  destruct (run_code_span n (prev_after (Some 96) (ticks n)) code rest Hc Hn Hr)
    as (p' & Hrun).
  rewrite (class_star_accept _ _ (Cursor p' rest [(2%nat, code); (1%nat, ticks (S n))])).
  - cbn [c_groups]. f_equal. f_equal.
    replace (96 :: ticks n ++ code ++ ticks (S n) ++ rest)
      with ((ticks (S n) ++ code ++ ticks (S n)) ++ rest)
      by (rewrite <- !app_assoc; reflexivity).
    apply consumed_app.
  - apply ticks_class.
  - destruct code as [|c code]; [congruence|].
    cbn [no_tick forallb] in Hn. apply andb_true_iff in Hn as [Hx _].
    apply negb_true_iff in Hx. cbn [app in_cset backtick existsb in_citem].
    change (ch "`") with 96. rewrite Hx. reflexivity.
  - cbv beta. unfold set_group. cbn [c_prev c_rest c_groups].
    change (96 :: ticks n ++ code ++ ticks (S n) ++ rest)
      with ((96 :: ticks n) ++ code ++ ticks (S n) ++ rest).
    rewrite consumed_app. exact Hrun.
Qed.

(** X14.  A run of one or more backticks, code without backtick that is
    not empty, and the same run again, not followed by a further
    backtick: the inline-code rule captures the span, with the run as
    group 1 and the code as group 2, and leaves what follows.  A node with
    such content renders as a [code] tag, without attributes, around the
    stripped and escaped content. *)
Theorem InlineCode_match_balanced n code rest state prev :
  code <> [] -> no_tick code = true ->
  match rest with c :: _ => c <> 96 | [] => True end ->
  InlineCode_match (ticks (S n) ++ code ++ ticks (S n) ++ rest) state prev =
    Matched (MkMatch (ticks (S n) ++ code ++ ticks (S n))
                     [(2%nat, code); (1%nat, ticks (S n))])
  /\ (forall output,
        InlineCode_html (VDict [(py "content", VStr code)]) output state =
        Ok (py "<code >" ++ sanitize_text (strip code) ++ py "</code>")).
Proof.
  intros Hc Hn Hr. split.
  - unfold InlineCode_match. rewrite search_anchored by reflexivity.
    rewrite (exec_inline_code n code rest Hc Hn Hr). reflexivity.
  - intros output. unfold InlineCode_html.
    change (getitem _ (py "content")) with (Ok (A := pyval) (VStr code)).
    cbn [bind as_str]. unfold state_truthy. rewrite html_tag_bare.
    py_eval. reflexivity.
Qed.

(** ** Mentions through [to_html] *)

Lemma assoc_set_lookup {A} k (v : A) d : assoc k (assoc_set k v d) = Some v.
Proof.
  induction d as [|[k' v'] d IH]; cbn [assoc_set assoc].
  - rewrite str_eqb_refl. reflexivity.
  - destruct (str_eqb k' k) eqn:E; cbn [assoc]; rewrite E; [reflexivity|exact IH].
Qed.

(** A source that one rule of the mentions-only table captures whole. *)
Lemma to_html_discord_only_single fuel cbs x t name rule cap d res :
  (order (default_rules b_strong) < order (default_rules b_text))%nat ->
  let state := initial_state (discord_only_options cbs) in
  first_match rules_discord_only (x :: t) state = Some (name, rule, cap) ->
  whole cap = x :: t ->
  (forall p, rule_parse rule cap p state = Ok (VDict d, state)) ->
  assoc (py "type") d = None ->
  assoc name rules_discord_only = Some rule ->
  (forall output,
     rule_html rule (VDict (assoc_set (py "type") (VStr name) d)) output
               (set_prev_capture (x :: t) state) = res) ->
  to_html (2 + fuel) (x :: t) (Some (discord_only_options cbs)) None None = res.
Proof.
  intros Horder state Hfirst Hwhole Hparse Htype Hrule Hhtml.
  unfold to_html, parser_for.
  cbn [given orb andb negb].
  change (default no_options (Some (discord_only_options cbs)))
    with (discord_only_options cbs).
  change (default false (opt_discord_only (discord_only_options cbs))) with true.
  cbv beta iota zeta.
  rewrite (discord_only_precedence Horder).
  change (initial_state (discord_only_options cbs)) with state.
  change (2 + fuel)%nat with (S (S fuel)).
  rewrite (nested_parse_single (S fuel) _ x t state name rule cap (VDict d) state
             Hfirst Hparse)
    by (rewrite Hwhole; apply drop_all).
  cbn [bind fst snd]. unfold tagged. rewrite Htype, app_nil_r, Hwhole.
  unfold output_for. cbn [nested_output foldr].
  assert (Hty : getitem (VDict (assoc_set (py "type") (VStr name) d)) (py "type")
                = Ok (VStr name)).
  { cbn [getitem]. rewrite assoc_set_lookup. reflexivity. }
  rewrite Hty. cbn [bind as_str]. rewrite Hrule, Hhtml.
  destruct res as [a|e]; [|reflexivity]. cbn [bind]. rewrite app_nil_r. reflexivity.
Qed.

Lemma first_match_here name rule rest source state cap :
  rule_match rule source state (prev_capture state) = Matched cap ->
  first_match ((name, rule) :: rest) source state = Some (name, rule, cap).
Proof. intros H. cbn [first_match]. rewrite H. reflexivity. Qed.

Lemma first_match_next name rule rest source state :
  rule_match rule source state (prev_capture state) = NoMatch ->
  first_match ((name, rule) :: rest) source state = first_match rest source state.
Proof. intros H. cbn [first_match]. rewrite H. reflexivity. Qed.

Lemma unmatched_user source state prev :
  matched (DiscordUser_match source state prev) = false ->
  DiscordUser_match source state prev = NoMatch.
Proof. unfold DiscordUser_match. destruct (search _ _ _); [discriminate|reflexivity]. Qed.

Lemma unmatched_channel source state prev :
  matched (DiscordChannel_match source state prev) = false ->
  DiscordChannel_match source state prev = NoMatch.
Proof. unfold DiscordChannel_match. destruct (search _ _ _); [discriminate|reflexivity]. Qed.

(** The user rule does not match a token that starts like a channel or a
    role mention, nor the channel rule one that starts with [<@]. *)
Lemma mention_tokens_apart id state prev :
  DiscordUser_match (py "<#" ++ id ++ py ">") state prev = NoMatch
  /\ DiscordUser_match (py "<@&" ++ id ++ py ">") state prev = NoMatch
  /\ DiscordChannel_match (py "<@&" ++ id ++ py ">") state prev = NoMatch.
Proof.
  split; [|split].
  - apply unmatched_user.
    destruct (mention_heads (py "<#" ++ id ++ py ">") state prev) as (H & _).
    destruct (matched (DiscordUser_match _ _ _)); [|reflexivity].
    destruct (H eq_refl) as (_ & Hb & _). discriminate Hb.
  - apply unmatched_user.
    destruct (mention_heads (py "<@&" ++ id ++ py ">") state prev) as (H & _).
    destruct (matched (DiscordUser_match _ _ _)); [|reflexivity].
    destruct (H eq_refl) as (_ & _ & Hc). exfalso. apply Hc. reflexivity.
  - apply unmatched_channel.
    destruct (mention_heads (py "<@&" ++ id ++ py ">") state prev) as (_ & H & _).
    destruct (matched (DiscordChannel_match _ _ _)); [|reflexivity].
    destruct (H eq_refl) as (_ & Hb & _). exfalso. apply Hb. reflexivity.
Qed.

Lemma getitem_tagged_id id name :
  getitem (VDict (assoc_set (py "type") (VStr name) [(py "id", VStr id)])) (py "id")
  = Ok (VStr id).
Proof. reflexivity. Qed.

(** X15.  When the text rule comes after the mention rules in the base
    ordering, [to_html] with [discord_only] set and the default callbacks
    renders, for every run of digits [id], the source [<@id>] as a span
    of class [d-mention d-user] around [@id], the source [<#id>] as a
    span of class [d-mention d-channel] around [#id], and the source
    [<@&id>] as a span of class [d-mention d-role] around [&id]. *)
Theorem to_html_mention_tokens fuel id :
  (order (default_rules b_strong) < order (default_rules b_text))%nat ->
  all_digits id = true ->
  to_html (2 + fuel) (py "<@" ++ id ++ py ">") (Some (discord_only_options None)) None None
    = Ok (py "<span class=\x22d-mention d-user\x22>@" ++ id ++ py "</span>")
  /\ to_html (2 + fuel) (py "<#" ++ id ++ py ">") (Some (discord_only_options None))
             None None
    = Ok (py "<span class=\x22d-mention d-channel\x22>#" ++ id ++ py "</span>")
  /\ to_html (2 + fuel) (py "<@&" ++ id ++ py ">") (Some (discord_only_options None))
             None None
    = Ok (py "<span class=\x22d-mention d-role\x22>&" ++ id ++ py "</span>").
Proof.
  intros Horder Hid.
  set (state := initial_state (discord_only_options None)).
  destruct (mention_tokens_apart id state (prev_capture state)) as (Hu1 & Hu2 & Hc2).
  split; [|split].
  - change (py "<@" ++ id ++ py ">") with (60 :: 64 :: id ++ py ">").
    apply to_html_discord_only_single
      with (name := py "discord_user") (rule := DiscordUser (order (default_rules b_strong)))
           (cap := MkMatch (py "<@" ++ id ++ py ">") [(1%nat, id)])
           (d := [(py "id", VStr id)]);
      [exact Horder| |reflexivity|reflexivity|reflexivity|reflexivity|].
    + unfold rules_discord_only, rules_discord. cbv zeta. cbn [app].
      apply first_match_here. cbn [rule_match DiscordUser].
      apply DiscordUser_match_spec. exists [], id, []. rewrite app_nil_r. auto.
    + intros output. cbn [rule_html DiscordUser]. unfold DiscordUser_html.
      change (cb_user (discord_callback _)) with (cb_user discord_callback_defaults).
      cbn [cb_user discord_callback_defaults]. rewrite getitem_tagged_id.
      cbn [bind as_str]. rewrite (sanitize_text_digits _ Hid). vm_compute. reflexivity.
  - change (py "<#" ++ id ++ py ">") with (60 :: 35 :: id ++ py ">").
    apply to_html_discord_only_single
      with (name := py "discord_channel")
           (rule := DiscordChannel (order (default_rules b_strong)))
           (cap := MkMatch (py "<#" ++ id ++ py ">") [(1%nat, id)])
           (d := [(py "id", VStr id)]);
      [exact Horder| |reflexivity|reflexivity|reflexivity|reflexivity|].
    + unfold rules_discord_only, rules_discord. cbv zeta. cbn [app].
      rewrite first_match_next by exact Hu1.
      apply first_match_here. cbn [rule_match DiscordChannel].
      apply DiscordChannel_match_spec. exists (py "#"), id, []. rewrite app_nil_r. auto.
    + intros output. cbn [rule_html DiscordChannel]. unfold DiscordChannel_html.
      change (cb_channel (discord_callback _)) with (cb_channel discord_callback_defaults).
      cbn [cb_channel discord_callback_defaults]. rewrite getitem_tagged_id.
      cbn [bind as_str]. rewrite (sanitize_text_digits _ Hid). vm_compute. reflexivity.
  - change (py "<@&" ++ id ++ py ">") with (60 :: 64 :: 38 :: id ++ py ">").
    apply to_html_discord_only_single
      with (name := py "discord_role") (rule := DiscordRole (order (default_rules b_strong)))
           (cap := MkMatch (py "<@&" ++ id ++ py ">") [(1%nat, id)])
           (d := [(py "id", VStr id)]);
      [exact Horder| |reflexivity|reflexivity|reflexivity|reflexivity|].
    + unfold rules_discord_only, rules_discord. cbv zeta. cbn [app].
      rewrite first_match_next by exact Hu2.
      rewrite first_match_next by exact Hc2.
      apply first_match_here. cbn [rule_match DiscordRole].
      apply DiscordRole_match_spec. exists id, []. rewrite app_nil_r. auto.
    + intros output. cbn [rule_html DiscordRole]. unfold DiscordRole_html.
      change (cb_role (discord_callback _)) with (cb_role discord_callback_defaults).
      cbn [cb_role discord_callback_defaults]. rewrite getitem_tagged_id.
      cbn [bind as_str]. rewrite (sanitize_text_digits _ Hid). vm_compute. reflexivity.
Qed.

Lemma unmatched_role source state prev :
  matched (DiscordRole_match source state prev) = false ->
  DiscordRole_match source state prev = NoMatch.
Proof. unfold DiscordRole_match. destruct (search _ _ _); [discriminate|reflexivity]. Qed.

Lemma unmatched_emoji source state prev :
  matched (DiscordEmoji_match source state prev) = false ->
  DiscordEmoji_match source state prev = NoMatch.
Proof. unfold DiscordEmoji_match. destruct (search _ _ _); [discriminate|reflexivity]. Qed.

Lemma unmatched_everyone source state prev :
  matched (DiscordEveryone_match source state prev) = false ->
  DiscordEveryone_match source state prev = NoMatch.
Proof. unfold DiscordEveryone_match. destruct (search _ _ _); [discriminate|reflexivity]. Qed.

(** A rule whose first characters differ from those of the source does
    not match. *)
Ltac by_heads H :=
  match goal with
  | |- matched ?f = false =>
      let E := fresh "E" in
      destruct (matched f) eqn:E;
      [first [pose proof (H eq_refl) | pose proof (H E)]; lia | reflexivity]
  end.

(** In the mentions-only table, a mention rule that matches is the first
    rule that matches. *)
Lemma first_match_discord_only source state name rule cap :
  In (name, rule) rules_discord ->
  rule_match rule source state (prev_capture state) = Matched cap ->
  first_match rules_discord_only source state = Some (name, rule, cap).
Proof.
  intros Hin Hm.
  destruct (mention_heads source state (prev_capture state))
    as (H1 & H2 & H3 & H4 & H5 & H6).
  cbv zeta in H1, H2, H3, H4, H5, H6.
  unfold rules_discord in Hin. cbv zeta in Hin. cbn [In] in Hin.
  unfold rules_discord_only, rules_discord. cbv zeta. cbn [app].
  destruct Hin as [E|[E|[E|[E|[E|[E|[]]]]]]]; injection E as <- <-;
    cbn [rule_match DiscordUser DiscordChannel DiscordRole DiscordEmoji
         DiscordEveryone DiscordHere] in Hm;
    match type of Hm with
    | ?f = Matched _ =>
        assert (Hf : matched f = true) by (rewrite Hm; reflexivity)
    end.
  - apply first_match_here. exact Hm.
  - apply H2 in Hf.
    rewrite first_match_next by (apply unmatched_user; by_heads H1).
    apply first_match_here. exact Hm.
  - apply H3 in Hf.
    rewrite first_match_next by (apply unmatched_user; by_heads H1).
    rewrite first_match_next by (apply unmatched_channel; by_heads H2).
    apply first_match_here. exact Hm.
  - apply H4 in Hf.
    rewrite first_match_next by (apply unmatched_user; by_heads H1).
    rewrite first_match_next by (apply unmatched_channel; by_heads H2).
    rewrite first_match_next by (apply unmatched_role; by_heads H3).
    apply first_match_here. exact Hm.
  - apply H5 in Hf.
    rewrite first_match_next by (apply unmatched_user; by_heads H1).
    rewrite first_match_next by (apply unmatched_channel; by_heads H2).
    rewrite first_match_next by (apply unmatched_role; by_heads H3).
    rewrite first_match_next by (apply unmatched_emoji; by_heads H4).
    apply first_match_here. exact Hm.
  - apply H6 in Hf.
    rewrite first_match_next by (apply unmatched_user; by_heads H1).
    rewrite first_match_next by (apply unmatched_channel; by_heads H2).
    rewrite first_match_next by (apply unmatched_role; by_heads H3).
    rewrite first_match_next by (apply unmatched_emoji; by_heads H4).
    rewrite first_match_next by (apply unmatched_everyone; by_heads H5).
    apply first_match_here. exact Hm.
Qed.

(** X16.  A callback given in the option [discord_callback] replaces the
    default of its kind.  When the text rule comes after the mention
    rules in the base ordering, [to_html] with [discord_only] set renders
    a user, channel or role token, [@everyone] and [@here] as the span of
    the kind around the text that the given callback returns for the
    node, inserted as it is; an exception of the callback is the result
    of [to_html]. *)
Theorem to_html_custom_callbacks fuel id ov :
  (order (default_rules b_strong) < order (default_rules b_text))%nat ->
  all_digits id = true ->
  (forall f, ov_user ov = Some f ->
     to_html (2 + fuel) (py "<@" ++ id ++ py ">")
             (Some (discord_only_options (Some ov))) None None =
     (inner <- f (mention_node (py "discord_user") id) ;;
      Ok (py "<span class=\x22d-mention d-user\x22>" ++ inner ++ py "</span>")))
  /\ (forall f, ov_channel ov = Some f ->
     to_html (2 + fuel) (py "<#" ++ id ++ py ">")
             (Some (discord_only_options (Some ov))) None None =
     (inner <- f (mention_node (py "discord_channel") id) ;;
      Ok (py "<span class=\x22d-mention d-channel\x22>" ++ inner ++ py "</span>")))
  /\ (forall f, ov_role ov = Some f ->
     to_html (2 + fuel) (py "<@&" ++ id ++ py ">")
             (Some (discord_only_options (Some ov))) None None =
     (inner <- f (mention_node (py "discord_role") id) ;;
      Ok (py "<span class=\x22d-mention d-role\x22>" ++ inner ++ py "</span>")))
  /\ (forall f, ov_everyone ov = Some f ->
     to_html (2 + fuel) (py "@everyone")
             (Some (discord_only_options (Some ov))) None None =
     (inner <- f (word_node (py "discord_everyone")) ;;
      Ok (py "<span class=\x22d-mention d-user\x22>" ++ inner ++ py "</span>")))
  /\ (forall f, ov_here ov = Some f ->
     to_html (2 + fuel) (py "@here")
             (Some (discord_only_options (Some ov))) None None =
     (inner <- f (word_node (py "discord_here")) ;;
      Ok (py "<span class=\x22d-mention d-user\x22>" ++ inner ++ py "</span>"))).
Proof.
  intros Horder Hid.
  set (o := order (default_rules b_strong)).
  split; [|split; [|split; [|split]]]; intros f Hf.
  - change (py "<@" ++ id ++ py ">") with (60 :: 64 :: id ++ py ">").
    apply to_html_discord_only_single
      with (name := py "discord_user") (rule := DiscordUser o)
           (cap := MkMatch (py "<@" ++ id ++ py ">") [(1%nat, id)])
           (d := [(py "id", VStr id)]);
      [exact Horder| |reflexivity|reflexivity|reflexivity|reflexivity|].
    + apply first_match_discord_only; [unfold rules_discord; cbn [In]; tauto|].
      cbn [rule_match DiscordUser].
      apply DiscordUser_match_spec. exists [], id, []. rewrite app_nil_r. auto.
    + intros output. cbn [rule_html DiscordUser]. unfold DiscordUser_html.
      change (cb_user (discord_callback _))
        with (default (cb_user discord_callback_defaults) (ov_user ov)).
      rewrite Hf. change (default _ (Some f)) with f.
      change (VDict (assoc_set _ _ _)) with (mention_node (py "discord_user") id).
      destruct (f _) as [inner|e]; [|reflexivity]. vm_compute. reflexivity.
  - change (py "<#" ++ id ++ py ">") with (60 :: 35 :: id ++ py ">").
    apply to_html_discord_only_single
      with (name := py "discord_channel") (rule := DiscordChannel o)
           (cap := MkMatch (py "<#" ++ id ++ py ">") [(1%nat, id)])
           (d := [(py "id", VStr id)]);
      [exact Horder| |reflexivity|reflexivity|reflexivity|reflexivity|].
    + apply first_match_discord_only; [unfold rules_discord; cbn [In]; tauto|].
      cbn [rule_match DiscordChannel].
      apply DiscordChannel_match_spec. exists (py "#"), id, []. rewrite app_nil_r. auto.
    + intros output. cbn [rule_html DiscordChannel]. unfold DiscordChannel_html.
      change (cb_channel (discord_callback _))
        with (default (cb_channel discord_callback_defaults) (ov_channel ov)).
      rewrite Hf. change (default _ (Some f)) with f.
      change (VDict (assoc_set _ _ _)) with (mention_node (py "discord_channel") id).
      destruct (f _) as [inner|e]; [|reflexivity]. vm_compute. reflexivity.
  - change (py "<@&" ++ id ++ py ">") with (60 :: 64 :: 38 :: id ++ py ">").
    apply to_html_discord_only_single
      with (name := py "discord_role") (rule := DiscordRole o)
           (cap := MkMatch (py "<@&" ++ id ++ py ">") [(1%nat, id)])
           (d := [(py "id", VStr id)]);
      [exact Horder| |reflexivity|reflexivity|reflexivity|reflexivity|].
    + apply first_match_discord_only; [unfold rules_discord; cbn [In]; tauto|].
      cbn [rule_match DiscordRole].
      apply DiscordRole_match_spec. exists id, []. rewrite app_nil_r. auto.
    + intros output. cbn [rule_html DiscordRole]. unfold DiscordRole_html.
      change (cb_role (discord_callback _))
        with (default (cb_role discord_callback_defaults) (ov_role ov)).
      rewrite Hf. change (default _ (Some f)) with f.
      change (VDict (assoc_set _ _ _)) with (mention_node (py "discord_role") id).
      destruct (f _) as [inner|e]; [|reflexivity]. vm_compute. reflexivity.
  - py_eval.
    apply to_html_discord_only_single
      with (name := py "discord_everyone") (rule := DiscordEveryone o)
           (cap := MkMatch (py "@everyone") []) (d := []);
      [exact Horder| |reflexivity|reflexivity|reflexivity|reflexivity|].
    + apply first_match_discord_only; [unfold rules_discord; cbn [In]; tauto|].
      cbn [rule_match DiscordEveryone].
      apply DiscordEveryone_match_spec. split; [exists []; reflexivity|reflexivity].
    + intros output. cbn [rule_html DiscordEveryone]. unfold DiscordEveryone_html.
      change (cb_everyone (discord_callback _))
        with (default (cb_everyone discord_callback_defaults) (ov_everyone ov)).
      rewrite Hf. change (default _ (Some f)) with f.
      change (VDict (assoc_set _ _ _)) with (word_node (py "discord_everyone")).
      destruct (f _) as [inner|e]; [|reflexivity]. vm_compute. reflexivity.
  - py_eval.
    apply to_html_discord_only_single
      with (name := py "discord_here") (rule := DiscordHere o)
           (cap := MkMatch (py "@here") []) (d := []);
      [exact Horder| |reflexivity|reflexivity|reflexivity|reflexivity|].
    + apply first_match_discord_only; [unfold rules_discord; cbn [In]; tauto|].
      cbn [rule_match DiscordHere].
      apply DiscordHere_match_spec. split; [exists []; reflexivity|reflexivity].
    + intros output. cbn [rule_html DiscordHere]. unfold DiscordHere_html.
      change (cb_here (discord_callback _))
        with (default (cb_here discord_callback_defaults) (ov_here ov)).
      rewrite Hf. change (default _ (Some f)) with f.
      change (VDict (assoc_set _ _ _)) with (word_node (py "discord_here")).
      destruct (f _) as [inner|e]; [|reflexivity]. vm_compute. reflexivity.
Qed.

(** X17.  When the text rule comes after the mention rules in the base
    ordering, [to_html] with [discord_only] set and the default options
    otherwise renders every emoji token, of a name of word characters and
    an id of digits, as the [img] tag of the emoji rule, and renders
    [@everyone] and [@here] as a span of class [d-mention d-user] around
    the word. *)
Theorem to_html_emoji_tokens fuel (animated : bool) name id :
  (order (default_rules b_strong) < order (default_rules b_text))%nat ->
  name <> [] -> forallb is_word name = true ->
  id <> [] -> forallb is_digit id = true ->
  to_html (2 + fuel)
          (py "<" ++ (if animated then py "a" else []) ++ py ":" ++ name ++ py ":" ++ id
           ++ py ">")
          (Some (discord_only_options None)) None None =
    Ok (py "<img class=\x22d-emoji" ++ (if animated then py " d-emoji-animated" else [])
        ++ py "\x22 src=\x22https://cdn.discordapp.com/emojis/" ++ id
        ++ (if animated then py ".gif" else py ".png")
        ++ py "\x22 alt=\x22:" ++ name ++ py ":\x22>")
  /\ to_html (2 + fuel) (py "@everyone") (Some (discord_only_options None)) None None =
    Ok (py "<span class=\x22d-mention d-user\x22>@everyone</span>")
  /\ to_html (2 + fuel) (py "@here") (Some (discord_only_options None)) None None =
    Ok (py "<span class=\x22d-mention d-user\x22>@here</span>").
Proof.
  intros Horder Hn Hname Hi Hid.
  set (o := order (default_rules b_strong)).
  split; [|split].
  - change (py "<" ++ (if animated then py "a" else []) ++ py ":" ++ name ++ py ":" ++ id
            ++ py ">")
      with (60 :: (if animated then py "a" else []) ++ py ":" ++ name ++ py ":" ++ id
            ++ py ">").
    apply to_html_discord_only_single
      with (name := py "discord_emoji") (rule := DiscordEmoji o)
           (cap := MkMatch (py "<" ++ (if animated then py "a" else []) ++ py ":" ++ name
                            ++ py ":" ++ id ++ py ">")
                           [(3%nat, id); (2%nat, name);
                            (1%nat, if animated then py "a" else [])])
           (d := [(py "animated", VBool animated); (py "name", VStr name);
                  (py "id", VStr id)]);
      [exact Horder| |reflexivity| |reflexivity|reflexivity|].
    + apply first_match_discord_only; [unfold rules_discord; cbn [In]; tauto|].
      cbn [rule_match DiscordEmoji].
      apply DiscordEmoji_match_spec.
      exists (if animated then py "a" else []), name, id, [].
      repeat split; try assumption.
      destruct animated; [right|left]; reflexivity.
    + intros p. destruct animated; reflexivity.
    + intros output. cbn [rule_html DiscordEmoji].
      apply DiscordEmoji_html_plain; solve [reflexivity | assumption].
  - py_eval.
    apply to_html_discord_only_single
      with (name := py "discord_everyone") (rule := DiscordEveryone o)
           (cap := MkMatch (py "@everyone") []) (d := []);
      [exact Horder| |reflexivity|reflexivity|reflexivity|reflexivity|].
    + apply first_match_discord_only; [unfold rules_discord; cbn [In]; tauto|].
      cbn [rule_match DiscordEveryone].
      apply DiscordEveryone_match_spec. split; [exists []; reflexivity|reflexivity].
    + intros output. vm_compute. reflexivity.
  - py_eval.
    apply to_html_discord_only_single
      with (name := py "discord_here") (rule := DiscordHere o)
           (cap := MkMatch (py "@here") []) (d := []);
      [exact Horder| |reflexivity|reflexivity|reflexivity|reflexivity|].
    + apply first_match_discord_only; [unfold rules_discord; cbn [In]; tauto|].
      cbn [rule_match DiscordHere].
      apply DiscordHere_match_spec. split; [exists []; reflexivity|reflexivity].
    + intros output. vm_compute. reflexivity.
Qed.

(** ** The strike-through pattern *)

Lemma run_strike_tail p s g :
  run false (Seq (Lit [126; 126]) (Seq (Look false (Lit [95])) Eps)) (Cursor p s g) Some =
  if strike_stop s then Some (Cursor (Some 126) (drop 2 s) g) else None.
Proof.
  unfold strike_stop. py_eval. rewrite run_Seq.
  destruct (starts_with [126; 126] s) eqn:E.
  - apply starts_with_app in E as (t & ->). rewrite run_Lit_app, run_Seq, run_Look_not.
    change (drop 2 ([126; 126] ++ t)) with t. cbn [andb].
    destruct t as [|c t]; [reflexivity|].
    rewrite run_Lit_cons. cbn [starts_with]. rewrite andb_true_r.
    destruct (c =? 95); reflexivity.
  - apply run_Lit_fails, E.
Qed.

Lemma run_strike_body p0 x t :
  run false (Seq (Group 1 (Seq (Cls anychar) (Star false (Cls anychar))))
                 (Seq (Lit [126; 126]) (Seq (Look false (Lit [95])) Eps)))
      (Cursor p0 (x :: t) []) Some =
  match shortest strike_stop t with
  | Some (b, r) => Some (Cursor (Some 126) (drop 2 r) [(1%nat, x :: b)])
  | None => None
  end.
Proof.
  rewrite run_Seq, run_Group, run_Seq, run_Cls_cons, in_anychar. cbv beta.
  rewrite run_star_class.
  rewrite (lazy_any_shortest strike_stop).
  - destruct (shortest strike_stop t) as [[b r]|] eqn:Es; [|reflexivity].
    destruct (shortest_spec _ _ _ _ Es) as (-> & Hr & _).
    unfold set_group. cbn [c_prev c_rest c_groups].
    rewrite run_strike_tail, Hr.
    rewrite (consumed_app p0 _ [] [] (x :: b) r). reflexivity.
  - intros p s g E. unfold set_group. cbn [c_prev c_rest c_groups].
    rewrite run_strike_tail, E. reflexivity.
  - intros p s g E. unfold set_group. cbn [c_prev c_rest c_groups].
    rewrite run_strike_tail, E. discriminate.
Qed.

Lemma strike_stop_tail r :
  strike_stop r = true <->
  exists rest, r = [126; 126] ++ rest /\ starts_with [95] rest = false.
Proof.
  unfold strike_stop. py_eval. split.
  - intros H. apply andb_true_iff in H as [H1 H2].
    apply starts_with_app in H1 as (rest & ->). exists rest. split; [reflexivity|].
    apply negb_true_iff in H2. exact H2.
  - intros (rest & -> & H). rewrite starts_with_refl.
    change (drop 2 ([126; 126] ++ rest)) with rest. rewrite H. reflexivity.
Qed.

Lemma consumed_strike x b rest p g :
  consumed (Cursor None (126 :: 126 :: x :: b ++ 126 :: 126 :: rest) []) (Cursor p rest g) =
  126 :: 126 :: x :: b ++ [126; 126].
Proof.
  replace (126 :: 126 :: x :: b ++ 126 :: 126 :: rest)
    with ((126 :: 126 :: x :: b ++ [126; 126]) ++ rest)
    by (cbn [app]; rewrite <- app_assoc; reflexivity).
  apply consumed_app.
Qed.

(** X18.  [Strike.match] hands [md.inline_regex] a pattern that, tried at
    the start of a source, matches exactly the sources that start with
    two tildes, at least one character and two tildes that are not
    followed by an underscore.  The body, group 1, is as short as
    possible: a pair of tildes that an underscore follows does not end
    it. *)
Theorem Strike_pattern_shortest source state prev m :
  Strike_match source state prev = Helper (InlineRegex strike_re false)
  /\ (exec false strike_re None source = Some m <->
      exists x body rest,
        source = py "~~" ++ x :: body ++ py "~~" ++ rest /\
        starts_with (py "_") rest = false /\
        (forall b1 b2, body = b1 ++ b2 -> b2 <> [] ->
                       strike_stop (b2 ++ py "~~" ++ rest) = false) /\
        m = MkMatch (py "~~" ++ x :: body ++ py "~~") [(1%nat, x :: body)]).
Proof.
  split; [reflexivity|].
  unfold exec, strike_re, cat, Plus. py_eval. cbn [foldr].
  rewrite run_Seq, run_Bol_start. cbv beta. rewrite run_Seq. split.
  - destruct (run false (Lit [126; 126]) _ _) as [cu|] eqn:E; [|discriminate].
    apply run_Lit_inv in E as (u & -> & E).
    destruct u as [|x t].
    { rewrite run_Seq, run_Group, run_Seq, run_Cls_end in E. discriminate. }
    rewrite run_strike_body in E.
    destruct (shortest strike_stop t) as [[b r]|] eqn:Es; [|discriminate].
    destruct (shortest_spec _ _ _ _ Es) as (-> & Hr & Hmin).
    apply strike_stop_tail in Hr as (rest & -> & Hrest).
    injection E as <-. intros [= <-]. exists x, b, rest.
    split; [reflexivity|]. split; [exact Hrest|]. split; [exact Hmin|].
    change (drop 2 ([126; 126] ++ rest)) with rest. cbn [c_groups app].
    rewrite consumed_strike. reflexivity.
  - intros (x & body & rest & -> & Hrest & Hmin & ->).
    rewrite run_Lit_app, run_strike_body.
    rewrite (shortest_complete strike_stop body ([126; 126] ++ rest));
      [|apply strike_stop_tail; exists rest; split; [reflexivity|exact Hrest]|exact Hmin].
    change (drop 2 ([126; 126] ++ rest)) with rest. cbn [c_groups app].
    rewrite consumed_strike. reflexivity.
Qed.

(** ** CodeBlock.html with a remap table *)

Lemma run_Lit_step ml c s cu k :
  run ml (Lit (c :: s)) cu k = run ml (Lit [c]) cu (fun cu' => run ml (Lit s) cu' k).
Proof.
  destruct cu as [p [|x t] g]; [reflexivity|].
  cbn [run eat c_rest]. destruct (x =? c); reflexivity.
Qed.

Lemma span_class_re_eq :
  span_class_re =
  Seq (Lit span_open) (Seq (Group 1 (Plus true (Cls class_list))) (Seq (Lit [34; 62]) Eps)).
Proof. unfold span_class_re, span_open, span_tail, cat. py_eval. reflexivity. Qed.

Lemma span_open_py : span_open = py "<span class=\x22".
Proof. vm_compute. reflexivity. Qed.

Lemma quote_no_class : in_cset class_list 34 = false.
Proof. reflexivity. Qed.

(** The pattern matches an opening tag whose class list is made of the
    characters of the pattern. *)
Lemma exec_span_tag p cls post :
  cls <> [] -> forallb (in_cset class_list) cls = true ->
  exec false span_class_re p (span_open ++ cls ++ [34; 62] ++ post) =
  Some (MkMatch (span_open ++ cls ++ [34; 62]) [(1%nat, cls)]).
Proof.
  intros Hc Hall. unfold exec. rewrite span_class_re_eq, run_Seq, run_Lit_app.
  assert (E : forall cu k,
            run false (Seq (Group 1 (Plus true (Cls class_list)))
                           (Seq (Lit [34; 62]) Eps)) cu k =
            run false (Seq (Group 1 (Plus true (Cls class_list)))
                           (Seq (Lit [34]) (Seq (Lit [62]) Eps))) cu k).
  { intros cu k. rewrite !run_Seq. f_equal. apply functional_extensionality. intros cu'.
    rewrite !run_Seq, run_Lit_step. reflexivity. }
  rewrite E.
  change (cls ++ [34; 62] ++ post) with (cls ++ 34 :: 62 :: post).
  rewrite (run_group_plus_then_run _ _ _ _ _ _ _ _ _ _ quote_no_class Hc Hall).
  rewrite run_Seq, run_Lit_cons. cbn [N.eqb Pos.eqb]. unfold Eps.
  rewrite !run_Lit_nil. cbn [c_groups]. f_equal. f_equal.
  replace (span_open ++ cls ++ 34 :: 62 :: post)
    with ((span_open ++ cls ++ [34; 62]) ++ post)
    by (rewrite <- !app_assoc; reflexivity).
  apply consumed_app.
Qed.

Lemma exec_span_fails p s :
  starts_with span_open s = false -> exec false span_class_re p s = None.
Proof.
  intros H. unfold exec. rewrite span_class_re_eq, run_Seq.
  rewrite run_Lit_fails by exact H. reflexivity.
Qed.

(** Where the pattern matches nowhere, [re.sub] copies the text. *)
Lemma sub_from_copy repl : forall s prev,
  no_span s = true ->
  sub_from false span_class_re repl None O prev s = s.
Proof.
  induction s as [|c s IH]; intros prev Hs.
  - cbn [sub_from]. rewrite exec_span_fails by reflexivity. reflexivity.
  - cbn [no_span] in Hs. apply andb_true_iff in Hs as [Hc Hs].
    apply negb_true_iff in Hc.
    cbn [sub_from]. rewrite (exec_span_fails _ _ Hc), (IH _ Hs). reflexivity.
Qed.

(** The characters of a match are passed over. *)
Lemma sub_from_skip ml r repl limit : forall a b prev,
  sub_from ml r repl limit (length a) prev (a ++ b) =
  sub_from ml r repl limit O (prev_after prev a) b.
Proof.
  induction a as [|c a IH]; intros b prev; [reflexivity|].
  cbn [length app sub_from]. apply IH.
Qed.

(** One replacement at the start of the text. *)
Lemma sub_from_match ml r repl c w post m prev :
  exec ml r prev (c :: w ++ post) = Some m ->
  whole m = c :: w ->
  sub_from ml r repl None O prev (c :: w ++ post) =
  repl m ++ sub_from ml r repl None O (prev_after (Some c) w) post.
Proof.
  intros He Hw. cbn [sub_from]. rewrite He, Hw. cbn [length].
  cbn [spend fmap option_fmap option_map]. rewrite sub_from_skip. reflexivity.
Qed.

Lemma sub_span_tag repl cls post :
  cls <> [] -> forallb (in_cset class_list) cls = true -> no_span post = true ->
  sub false span_class_re repl 0 (span_open ++ cls ++ [34; 62] ++ post) =
  repl (MkMatch (span_open ++ cls ++ [34; 62]) [(1%nat, cls)]) ++ post.
Proof.
  intros Hc Hall Hpost. unfold sub.
  pose proof (exec_span_tag None cls post Hc Hall) as E.
  assert (Hs : span_open ++ cls ++ [34; 62] ++ post =
               60 :: (span_tail ++ cls ++ [34; 62]) ++ post)
    by (unfold span_open; cbn [app]; rewrite <- !app_assoc; reflexivity).
  rewrite Hs in *. cbv iota.
  assert (Hw : whole (MkMatch (span_open ++ cls ++ [34; 62]) [(1%nat, cls)]) =
               60 :: span_tail ++ cls ++ [34; 62])
    by (unfold span_open; cbn [whole app]; reflexivity).
  rewrite (sub_from_match _ _ _ _ _ _ _ _ E Hw).
  rewrite sub_from_copy by exact Hpost. reflexivity.
Qed.

(** X19.  With a remap table configured, [CodeBlock.html] puts the
    remapped class names in the place of an opening span tag of the
    highlighted markup: the tag itself is not kept.  For markup that
    starts with such a tag, whose class list is made of lower-case
    letters, digits, hyphens, underscores and spaces, and that holds no
    further one, the block renders as the remapped names of the list,
    joined by spaces, and the rest of the markup, in the [code] tag of
    class [hljs] and the language. *)
Theorem CodeBlock_html_remaps_span lang content quoted lx cls post table output state :
  lang <> [] -> get_lexer_by_name lang = Ok (Some lx) ->
  css_module_names state = Some table -> table <> ∅ ->
  cls <> [] -> forallb (in_cset class_list) cls = true -> no_span post = true ->
  post <> [] ->
  highlight content lx = span_open ++ cls ++ py "\x22>" ++ post ->
  CodeBlock_html (code_node lang content quoted) output state =
  Ok (py "<pre ><code class=\x22hljs " ++ sanitize_text lang ++ py "\x22>"
      ++ remapped table cls ++ post ++ py "</code></pre>").
Proof.
  intros Hl E Hcss Ht Hc Hall Hpost Hne Hh.
  destruct lang as [|c l] eqn:El; [congruence|]. rewrite <- El in *.
  unfold CodeBlock_html.
  rewrite !getitem_lang, getitem_content. rewrite El at 1.
  cbn [bind truthy str_eqb negb as_str]. rewrite <- El.
  rewrite E. cbn [bind]. rewrite Hcss, Hh.
  replace (py "\x22>") with [34; 62] by (vm_compute; reflexivity).
  replace (str_truthy (span_open ++ cls ++ [34; 62] ++ post)) with true by reflexivity.
  unfold table_truthy. rewrite bool_decide_eq_false_2 by exact Ht. cbn [negb andb].
  rewrite (sub_span_tag _ _ _ Hc Hall Hpost). cbv beta.
  change (capture_or_empty (MkMatch (span_open ++ cls ++ [34; 62]) [(1%nat, cls)]) 1)
    with cls.
  fold (remapped table cls).
  replace (str_truthy (remapped table cls ++ post)) with true
    by (destruct (remapped table cls); destruct post; try congruence; reflexivity).
  cbn [bind default from_option]. unfold Datatypes.id, state_truthy. f_equal.
  rewrite html_tag_bare, html_tag_one by (unfold hljs_class; py_eval; discriminate).
  unfold hljs_class. rewrite !sanitize_text_app. py_lit. py_eval.
  rewrite <- !app_assoc. reflexivity.
Qed.

(** ** The fence pattern of code blocks *)

Lemma code_block_re_eq :
  code_block_re = Seq Bol (Seq (Lit fence) (Seq (Opt lang_line_re) fence_body_re)).
Proof.
  unfold code_block_re, lang_line_re, fence_body_re, fence, lang_class, cat.
  py_eval. reflexivity.
Qed.

(** Newlines, read greedily, and the closing fence. *)
Lemma run_fence_tail g : forall s p,
  run false (Seq (Star true (Lit [10])) (Seq (Lit fence) Eps)) (Cursor p s g) Some =
  if fence_stop s then Some (Cursor (Some 96) (drop 3 (drop_newlines s)) g) else None.
Proof.
  assert (Hlit : forall s p,
            run false (Seq (Lit fence) Eps) (Cursor p s g) Some =
            if starts_with fence s then Some (Cursor (Some 96) (drop 3 s) g) else None).
  { intros s p. rewrite run_Seq. destruct (starts_with fence s) eqn:E.
    - apply starts_with_app in E as (t & ->). rewrite run_Lit_app. reflexivity.
    - apply run_Lit_fails, E. }
  induction s as [|c s IH]; intros p.
  - rewrite run_Seq, run_Star_lit_end. apply Hlit.
  - unfold fence_stop. cbn [drop_newlines]. rewrite run_Seq.
    destruct (N.eqb_spec c 10) as [->|Hc].
    + rewrite run_Star. cbv zeta. rewrite run_Lit_cons. cbn [N.eqb Pos.eqb].
      rewrite run_Lit_nil. cbn [c_rest length].
      replace (length s <? S (length s))%nat with true
        by (symmetry; apply Nat.ltb_lt; lia).
      specialize (IH (Some 10)). rewrite run_Seq in IH. rewrite IH.
      unfold fence_stop. destruct (starts_with fence (drop_newlines s)); [reflexivity|].
      cbv beta iota. rewrite Hlit. reflexivity.
    + rewrite run_Star_lit_stop by (apply N.eqb_neq; exact Hc).
      cbv beta. apply Hlit.
Qed.

Lemma starts_with_head c s t :
  s <> [] -> starts_with [c] (s ++ t) = starts_with [c] s.
Proof. intros H. destruct s; [congruence|reflexivity]. Qed.

(** Code that does not end in a newline and holds no backtick is not
    followed by the closing fence before its end. *)
Lemma fence_stop_inside tail : forall s,
  s <> [] -> no_tick s = true -> starts_with [10] (rev s) = false ->
  fence_stop (s ++ tail) = false.
Proof.
  induction s as [|c s IH]; intros Hs Hn Hr; [congruence|].
  cbn [no_tick forallb] in Hn. apply andb_true_iff in Hn as [Hc Hn].
  apply negb_true_iff in Hc.
  unfold fence_stop. cbn [app drop_newlines].
  destruct (N.eqb_spec c 10) as [->|Hc10].
  - destruct s as [|c' s]; [discriminate Hr|].
    apply IH; [discriminate|exact Hn|].
    cbn [rev] in Hr. rewrite starts_with_head in Hr; [exact Hr|].
    cbn [rev]. destruct (rev s); discriminate.
  - unfold fence. cbn [starts_with]. rewrite Hc. reflexivity.
Qed.

Lemma shortest_fence_code x code rest :
  no_tick (x :: code) = true -> starts_with [10] (rev (x :: code)) = false ->
  shortest fence_stop (code ++ fence ++ rest) = Some (code, fence ++ rest).
Proof.
  intros Hn Hr. apply shortest_complete; [reflexivity|].
  intros b1 b2 -> Hb2.
  cbn [no_tick forallb] in Hn. apply andb_true_iff in Hn as [_ Hn].
  fold (no_tick (b1 ++ b2)) in Hn. rewrite no_tick_app in Hn.
  apply andb_true_iff in Hn as [_ Hn].
  apply fence_stop_inside; [exact Hb2|exact Hn|].
  change (x :: b1 ++ b2) with ((x :: b1) ++ b2) in Hr.
  rewrite rev_app_distr, starts_with_head in Hr; [exact Hr|].
  destruct b2 as [|c b2]; [congruence|]. cbn [rev]. destruct (rev b2); discriminate.
Qed.

(** The pattern behind the language line: the code is read up to the
    closing fence. *)
Lemma run_fence_body p code rest g :
  code <> [] -> no_tick code = true ->
  starts_with [10] code = false -> starts_with [10] (rev code) = false ->
  run false fence_body_re (Cursor p (code ++ fence ++ rest) g) Some =
  Some (Cursor (Some 96) rest ((3%nat, code) :: g)).
Proof.
  intros Hc Hn Hh Hl. destruct code as [|x code]; [congruence|].
  unfold fence_body_re, cat. cbn [foldr app].
  cbn [starts_with] in Hh. rewrite andb_true_r in Hh.
  rewrite run_Seq, run_Star_lit_stop by exact Hh. cbv beta.
  rewrite run_Seq, run_Group. unfold Plus. rewrite run_Seq, run_Cls_cons, in_anychar.
  cbv beta. rewrite run_star_class.
  rewrite (lazy_any_shortest fence_stop).
  - rewrite (shortest_fence_code x code rest Hn Hl).
    unfold set_group. cbn [c_prev c_rest c_groups].
    rewrite run_fence_tail.
    change (fence_stop (fence ++ rest)) with true. cbv iota.
    change (drop 3 (drop_newlines (fence ++ rest))) with rest.
    change (x :: code ++ fence ++ rest) with ((x :: code) ++ fence ++ rest).
    rewrite consumed_app. reflexivity.
  - intros p' s g' E. unfold set_group. cbn [c_prev c_rest c_groups].
    rewrite run_fence_tail, E. reflexivity.
  - intros p' s g' E. unfold set_group. cbn [c_prev c_rest c_groups].
    rewrite run_fence_tail, E. discriminate.
Qed.

Lemma lang_class_bounds c : in_cset lang_class c = true -> 45 <= c <= 122.
Proof.
  unfold lang_class, in_cset, existsb, in_citem.
  change (ch "a") with 97. change (ch "z") with 122.
  change (ch "0") with 48. change (ch "9") with 57. change (ch "-") with 45.
  rewrite orb_false_r, !orb_true_iff, !andb_true_iff, !N.leb_le, N.eqb_eq. lia.
Qed.

Lemma lang_class_no_space c : in_cset lang_class c = true -> is_space c = false.
Proof.
  intros H%lang_class_bounds. unfold is_space.
  repeat match goal with
         | |- context [?x =? ?y] => destruct (N.eqb_spec x y); [lia|]
         | |- context [?x <=? ?y] => destruct (N.leb_spec x y); [try lia|]
         end; reflexivity.
Qed.

Lemma lstrip_head c t : is_space c = false -> lstrip (c :: t) = c :: t.
Proof. intros H. cbn [lstrip]. rewrite H. reflexivity. Qed.

(** A language tag is kept by [strip]. *)
Lemma strip_lang lang : forallb (in_cset lang_class) lang = true -> strip lang = lang.
Proof.
  intros H. unfold strip.
  assert (Hl : forall s, forallb (in_cset lang_class) s = true -> lstrip s = s).
  { intros [|c s] Hs; [reflexivity|]. cbn [forallb] in Hs.
    apply andb_true_iff in Hs as [Hc _]. apply lstrip_head, lang_class_no_space, Hc. }
  rewrite (Hl lang H), Hl, rev_involutive; [reflexivity|].
  apply forallb_forall. intros c Hc%in_rev. revert c Hc. apply forallb_forall, H.
Qed.

(** A lazy repetition of a class in front of a continuation that fails
    inside a run of the class runs through it. *)
Lemma class_star_lazy_through cs k t g r : forall l p,
  forallb (in_cset cs) l = true ->
  (forall l1 l2 p', l = l1 ++ l2 -> l2 <> [] -> k (Cursor p' (l2 ++ t) g) = None) ->
  k (Cursor (prev_after p l) t g) = Some r ->
  class_star false cs k p (l ++ t) g = Some r.
Proof.
  induction l as [|a l IH]; intros p Hall Hno Hk.
  - cbn [app]. change (prev_after p []) with p in Hk.
    destruct t as [|x t]; cbn [class_star]; [exact Hk|].
    destruct (in_cset cs x); rewrite Hk; reflexivity.
  - cbn [forallb] in Hall. apply andb_true_iff in Hall as [Ha Hall].
    cbn [app class_star]. rewrite Ha.
    assert (E : k (Cursor p (a :: l ++ t) g) = None)
      by (apply (Hno [] (a :: l) p); [reflexivity|discriminate]).
    rewrite E.
    apply IH; [exact Hall| |exact Hk].
    intros l1 l2 p' -> Hl2. apply (Hno (a :: l1) l2 p'); [reflexivity|exact Hl2].
Qed.

(** The fence pattern on a block with a language line. *)
Lemma exec_code_block lang code rest :
  lang <> [] -> forallb (in_cset lang_class) lang = true ->
  code <> [] -> no_tick code = true ->
  starts_with [10] code = false -> starts_with [10] (rev code) = false ->
  exec false code_block_re None (fence ++ lang ++ 10 :: code ++ fence ++ rest) =
  Some (MkMatch (fence ++ lang ++ 10 :: code ++ fence)
                [(3%nat, code); (1%nat, lang ++ [10]); (2%nat, lang)]).
Proof.
  intros Hl Hcl Hc Hn Hh Hr.
  assert (Hbody : forall p g,
            run false fence_body_re (Cursor p (code ++ fence ++ rest) g) Some =
            Some (Cursor (Some 96) rest ((3%nat, code) :: g))).
  { intros p g. apply run_fence_body; assumption. }
  assert (Hline : run false lang_line_re
                    (Cursor (Some 96) (lang ++ 10 :: code ++ fence ++ rest) [])
                    (fun cu' => run false fence_body_re cu' Some) =
                  Some (Cursor (Some 96) rest
                          [(3%nat, code); (1%nat, lang ++ [10]); (2%nat, lang)])).
  { destruct lang as [|l0 lang]; [congruence|].
    cbn [forallb] in Hcl. apply andb_true_iff in Hcl as [Hl0 Hcl].
    destruct code as [|x code]; [congruence|].
    cbn [starts_with] in Hh. rewrite andb_true_r in Hh.
    unfold lang_line_re, cat, Plus. cbn [foldr].
    rewrite run_Group, run_Seq, run_Group, run_Seq. cbn [app].
    rewrite run_Cls_cons, Hl0. rewrite run_star_class.
    apply class_star_lazy_through; [exact Hcl| |].
    - intros l1 l2 p' -> Hl2. destruct l2 as [|c l2]; [congruence|].
      rewrite forallb_app in Hcl. apply andb_true_iff in Hcl as [_ Hcl].
      cbn [forallb] in Hcl. apply andb_true_iff in Hcl as [Hc' _].
      apply lang_class_bounds in Hc'.
      unfold set_group. cbn [c_prev c_rest c_groups app].
      rewrite run_Seq, run_Seq, run_Lit_cons.
      destruct (N.eqb_spec c 10); [lia|reflexivity].
    - unfold set_group. cbn [c_prev c_rest c_groups app].
      change (l0 :: lang ++ 10 :: x :: code ++ fence ++ rest)
        with ((l0 :: lang) ++ 10 :: x :: code ++ fence ++ rest).
      rewrite consumed_app.
      rewrite run_Seq, run_Seq, run_Lit_cons. cbn [N.eqb Pos.eqb].
      rewrite run_Lit_nil.
      rewrite run_Star_lit_stop by exact Hh.
      assert (HE : forall cu k, run false Eps cu k = k cu) by reflexivity.
      rewrite HE. cbv beta. cbn [c_prev c_rest c_groups].
      replace ((l0 :: lang) ++ 10 :: x :: code ++ fence ++ rest)
        with (((l0 :: lang) ++ [10]) ++ x :: code ++ fence ++ rest)
        by (rewrite <- app_assoc; reflexivity).
      rewrite consumed_app. apply (Hbody (Some 10)). }
  unfold exec. cbv zeta. rewrite code_block_re_eq.
  rewrite run_Seq, run_Bol_start. cbv beta.
  rewrite run_Seq, run_Lit_app. cbv beta.
  change (prev_after None fence) with (Some 96).
  unfold Opt. rewrite run_Seq, run_Alt, Hline.
  cbn [c_groups]. f_equal. f_equal.
  replace (fence ++ lang ++ 10 :: code ++ fence ++ rest)
    with ((fence ++ lang ++ 10 :: code ++ fence) ++ rest).
  - apply consumed_app.
  - rewrite <- !app_assoc. cbn [app]. rewrite <- !app_assoc. reflexivity.
Qed.

(** X20.  A fenced block with a language line: three backticks, a tag of
    lower-case letters, digits and hyphens, a newline, code that holds no
    backtick and neither starts nor ends with a newline, and three
    backticks.  [CodeBlock.match] hands [md.inline_regex] the fence
    pattern with the flag to ignore case; the pattern, tried at the start
    of such a source, captures the block up to the closing fence and
    leaves what follows, with the tag as group 2 and the code as group 3,
    and [CodeBlock.parse] makes of that capture the node with the tag as
    [lang], the code as [content] and the [in_quote] of the state. *)
Theorem CodeBlock_match_fenced lang code rest state prev parse :
  lang <> [] -> forallb (in_cset lang_class) lang = true ->
  code <> [] -> no_tick code = true ->
  starts_with [10] code = false -> starts_with [10] (rev code) = false ->
  CodeBlock_match (fence ++ lang ++ 10 :: code ++ fence ++ rest) state prev =
    Helper (InlineRegex code_block_re true)
  /\ exec false code_block_re None (fence ++ lang ++ 10 :: code ++ fence ++ rest) =
     Some (MkMatch (fence ++ lang ++ 10 :: code ++ fence)
                   [(3%nat, code); (1%nat, lang ++ [10]); (2%nat, lang)])
  /\ CodeBlock_parse (MkMatch (fence ++ lang ++ 10 :: code ++ fence)
                              [(3%nat, code); (1%nat, lang ++ [10]); (2%nat, lang)])
                     parse state =
     Ok (code_node lang code (in_quote state), state).
Proof.
  intros Hl Hcl Hc Hn Hh Hr. split; [reflexivity|]. split.
  - apply exec_code_block; assumption.
  - unfold CodeBlock_parse, code_node.
    change (capture_or_empty _ 2) with lang.
    change (capture_or_empty _ 3) with code.
    rewrite (strip_lang lang Hcl). reflexivity.
Qed.

(** ** Quotes through the parser *)













End Dispy.

(** ** Examples with the reference collaborators *)

(** A source with two quotes: the first is parsed, and with the state that
    [parse] leaves the second is no longer matched, though it is with a
    fresh state. *)
Example second_quote_is_lost :
  exists m node st',
    BlockQuote_match (py "> a\n\n> b") fresh_state [] = Matched m /\
    whole m = py "> a\n" /\
    BlockQuote_parse m leaf_parse fresh_state = Ok (node, st') /\
    BlockQuote_match (py "> b") st' (py "\n") = NoMatch /\
    (exists m', BlockQuote_match (py "> b") fresh_state (py "\n") = Matched m').
Proof.
  eexists _, _, _. split; [vm_compute; reflexivity|].
  split; [reflexivity|]. split; [reflexivity|]. split; [reflexivity|].
  eexists. vm_compute. reflexivity.
Qed.

(** The text rule comes last in the reference ordering, and there the
    mention renders as C4 says. *)
Lemma to_html_user_mention_witness :
  (order (silent_rules b_strong) < order (silent_rules b_text))%nat /\
  to_html ascii_only ascii_only html_entity (fun _ => None) unit no_lexer
          (fun code _ => code) silent_rules (fun _ _ _ _ => None)
          2 (py "<@123>") (Some (discord_only_options None)) None None
    = Ok (py "<span class=\x22d-mention d-user\x22>@123</span>").
Proof.
  split.
  - apply Nat.ltb_lt. reflexivity.
  - apply (to_html_user_mention ascii_only ascii_only html_entity (fun _ => None) unit
             no_lexer (fun code _ => code) silent_rules (fun _ _ _ _ => None) 0).
    apply Nat.ltb_lt. reflexivity.
Defined.

(** C7 as stated fails: the user rule matches [<@>], whose id is empty,
    and the channel rule matches [<123>], which has no [#]. *)
Lemma mention_with_empty_id_matches :
  DiscordUser_match (py "<@>") fresh_state [] =
    Matched (MkMatch (py "<@>") [(1%nat, [])])
  /\ DiscordChannel_match (py "<123>") fresh_state [] =
    Matched (MkMatch (py "<123>") [(1%nat, py "123")]).
Proof. split; vm_compute; reflexivity. Qed.


(** A malformed mention: no mention rule matches [<@12a>], and in the
    mentions-only table the text rule takes its first character. *)
Example malformed_mention_is_text :
  no_mention ascii_only ascii_only (py "<@12a>") fresh_state [] /\
  exists rule,
    first_match (fun _ _ _ _ => None)
                (by_precedence (rules_discord_only ascii_only ascii_only html_entity
                                                   silent_rules))
                (py "<@12a>") fresh_state =
    Some (py "text", rule, MkMatch (py "<") []).
Proof.
  split.
  - repeat (apply List.Forall_cons; [vm_compute; reflexivity|]). apply List.Forall_nil.
  - eexists. vm_compute. reflexivity.
Qed.

(** ** Further examples with the reference collaborators *)

(** An [href] that is [None] beside a class that has a value: the tag
    is the one built from the class alone, as X1 says. *)
Lemma html_tag_omits_empty_attributes_witness :
  List.NoDup (map fst [(py "href", None); (py "class", Some (py "c"))]) /\
  html_tag html_entity (py "a") (py "x")
           (Some [(py "href", None); (py "class", Some (py "c"))]) true None =
  html_tag html_entity (py "a") (py "x")
           (Some (List.filter kept [(py "href", None); (py "class", Some (py "c"))]))
           true None.
Proof.
  assert (H : List.NoDup (map fst [(py "href", None : option str);
                                    (py "class", Some (py "c"))])).
  { cbn [map fst]. constructor; [|constructor; [intros []|constructor]].
    intros [E|[]]. discriminate E. }
  split; [exact H|].
  destruct (html_tag_omits_empty_attributes html_entity (py "a") (py "x")
              [(py "href", None); (py "class", Some (py "c"))] true None H) as [E _].
  exact E.
Defined.

(** A table keyed by a class name is not applied to that class, as X2
    says: the emoji [wave] comes out with its class spelled out. *)
Lemma html_tag_class_by_character_witness :
  let table : gmap str str := {[ py "d-emoji" := py "x" ]} in
  let attributes := [(py "class", Some (py "d-emoji")); (py "alt", Some (py ":wave:"))] in
  assoc (py "class") attributes = Some (Some (py "d-emoji")) /\
  py "d-emoji" <> [] /\ table <> ∅ /\
  css_module_names (remap_state html_entity table) = Some table /\
  (forall k, is_Some (table !! k) -> length k <> 1%nat) /\
  forallb (is_word ascii_only) (py "wave") = true /\
  forallb (is_digit ascii_only) (py "999") = true /\
  DiscordEmoji_html html_entity
    (VDict [(py "animated", VBool false); (py "name", VStr (py "wave"));
            (py "id", VStr (py "999"))])
    (fun _ _ => Ok []) (remap_state html_entity table) =
  Ok (py "<img class=\x22d - e m o j i\x22 src=\x22https://cdn.discordapp.com/emojis/999.png\x22 alt=\x22:wave:\x22>").
Proof.
  intros table attributes.
  assert (H0 : assoc (py "class") attributes = Some (Some (py "d-emoji")))
    by (vm_compute; reflexivity).
  assert (H1 : py "d-emoji" <> []) by discriminate.
  assert (H2 : table <> ∅) by apply map_non_empty_singleton.
  assert (H3 : forall k, is_Some (table !! k) -> length k <> 1%nat).
  { intros k [v Hv]. apply lookup_singleton_Some in Hv as [<- _]. discriminate. }
  assert (H4 : forallb (is_word ascii_only) (py "wave") = true) by reflexivity.
  assert (H5 : forallb (is_digit ascii_only) (py "999") = true) by reflexivity.
  split; [exact H0|]. split; [exact H1|]. split; [exact H2|]. split; [reflexivity|].
  split; [exact H3|]. split; [exact H4|]. split; [exact H5|].
  destruct (html_tag_class_by_character ascii_only ascii_only html_entity (py "img") []
              attributes (py "d-emoji") table false (remap_state html_entity table)
              false (py "wave") (py "999") (fun _ _ => Ok [])
              H0 H1 H2 eq_refl H3 H4 H5) as [_ H].
  refine (eq_trans H _). vm_compute. reflexivity.
Defined.

(** The role token with the id 42, as X6 says. *)
Lemma mention_rules_render_id_witness :
  all_digits (py "42") = true /\
  discord_callback (default_state html_entity) = discord_callback_defaults html_entity /\
  exists m node,
    DiscordRole_match (py "<@&" ++ py "42" ++ py ">" ++ py " hi")
                      (default_state html_entity) [] = Matched m /\
    whole m = py "<@&" ++ py "42" ++ py ">" /\
    DiscordRole_parse m leaf_parse (default_state html_entity) =
      Ok (node, default_state html_entity) /\
    DiscordRole_html html_entity node (fun _ _ => Ok []) (default_state html_entity) =
      Ok (py "<span class=\x22d-mention d-role\x22>&" ++ py "42" ++ py "</span>").
Proof.
  split; [reflexivity|]. split; [reflexivity|].
  destruct (mention_rules_render_id html_entity (py "42") (py " hi") [] leaf_parse
              (fun _ _ => Ok []) (default_state html_entity) eq_refl eq_refl)
    as (_ & _ & H).
  exact H.
Defined.

(** The animated token of the examples followed by text, as X7 says. *)
Lemma DiscordEmoji_renders_token_witness :
  py "wave" <> [] /\ forallb (is_word ascii_only) (py "wave") = true /\
  py "999" <> [] /\ forallb (is_digit ascii_only) (py "999") = true /\
  css_module_names (default_state html_entity) = None /\
  exists m node,
    DiscordEmoji_match ascii_only ascii_only
      (py "<" ++ py "a" ++ py ":" ++ py "wave" ++ py ":" ++ py "999" ++ py ">" ++ py "!")
      (default_state html_entity) [] = Matched m /\
    whole m = py "<" ++ py "a" ++ py ":" ++ py "wave" ++ py ":" ++ py "999" ++ py ">" /\
    DiscordEmoji_parse m leaf_parse (default_state html_entity) =
      Ok (node, default_state html_entity) /\
    DiscordEmoji_html html_entity node (fun _ _ => Ok []) (default_state html_entity) =
      Ok (py "<img class=\x22d-emoji" ++ py " d-emoji-animated"
          ++ py "\x22 src=\x22https://cdn.discordapp.com/emojis/" ++ py "999"
          ++ py ".gif" ++ py "\x22 alt=\x22:" ++ py "wave" ++ py ":\x22>").
Proof.
  assert (H1 : py "wave" <> []) by discriminate.
  assert (H2 : py "999" <> []) by discriminate.
  split; [exact H1|]. split; [reflexivity|]. split; [exact H2|]. split; [reflexivity|].
  split; [reflexivity|].
  exact (DiscordEmoji_renders_token ascii_only ascii_only html_entity true (py "wave")
           (py "999") (py "!") [] leaf_parse (fun _ _ => Ok []) (default_state html_entity)
           H1 eq_refl H2 eq_refl eq_refl).
Defined.

(** An address that the URL sanitizer rejects: the link has no [href], as
    X11 says. *)
Lemma link_rules_render_href_witness :
  group (MkMatch (py "<http://a>") [(1%nat, py "http://a")]) 1 = Some (py "http://a") /\
  AutoLink_html html_entity (fun _ => None) (link_node (py "http://a"))
                (fun _ _ => Ok (py "x")) fresh_state
    = Ok (py "<a >x</a>").
Proof.
  assert (Hg : group (MkMatch (py "<http://a>") [(1%nat, py "http://a")]) 1
               = Some (py "http://a")) by reflexivity.
  split; [exact Hg|].
  destruct (link_rules_render_href html_entity (fun _ => None)
              (MkMatch (py "<http://a>") [(1%nat, py "http://a")]) (py "http://a")
              leaf_parse (fun _ _ => Ok (py "x")) fresh_state Hg)
    as (_ & _ & _ & H & _).
  rewrite (H (or_introl eq_refl)). reflexivity.
Defined.

(** A lexer lookup that knows every language and a highlighter that
    returns the code: the block renders, as X12 says. *)
Lemma CodeBlock_html_returns_iff_witness :
  css_module_names fresh_state = None /\
  CodeBlock_html html_entity unit (fun _ => Ok (Some tt)) (fun code _ => code)
                 (code_node (py "py") (py "x") false) (fun _ _ => Ok []) fresh_state
    = Ok (py "<pre ><code class=\x22hljs " ++ sanitize_text html_entity (py "py")
          ++ py "\x22>" ++ py "x" ++ py "</code></pre>").
Proof.
  split; [reflexivity|].
  apply (CodeBlock_html_returns_iff html_entity unit (fun _ => Ok (Some tt))
           (fun code _ => code) (py "py") (py "x") false (fun _ _ => Ok []) fresh_state
           _ eq_refl).
  exists tt. repeat split; discriminate.
Defined.

(** Two marked lines and a line without marker, as X13 says. *)
Lemma BlockQuote_ends_at_unmarked_line_witness :
  in_quote fresh_state = false /\ no_newline (py "a") = true /\
  Forall (fun l => no_newline l = true) [py "b"] /\ unmarked (py "c") /\
  exists m,
    BlockQuote_match
      (join (py "\n") (map (fun l => py "> " ++ l) [py "a"; py "b"]) ++ py "\n" ++ py "c")
      fresh_state [] = Matched m /\
    whole m = join (py "\n") (map (fun l => py "> " ++ l) [py "a"; py "b"]) ++ py "\n" /\
    BlockQuote_parse m leaf_parse fresh_state =
      quote_node leaf_parse (join (py "\n") [py "a"; py "b"] ++ py "\n") fresh_state.
Proof.
  assert (H1 : Forall (fun l => no_newline l = true) [py "b"]) by repeat constructor.
  assert (H2 : unmarked (py "c")) by (split; discriminate).
  split; [reflexivity|]. split; [reflexivity|]. split; [exact H1|]. split; [exact H2|].
  exact (BlockQuote_ends_at_unmarked_line (py "a") [py "b"] (py "c") leaf_parse fresh_state
           eq_refl eq_refl H1 H2).
Defined.

(** A span of one backtick, as X14 says. *)
Lemma InlineCode_match_balanced_witness :
  py "a b" <> [] /\ no_tick (py "a b") = true /\
  match py " c" with c :: _ => c <> 96 | [] => True end /\
  InlineCode_match (ticks 1 ++ py "a b" ++ ticks 1 ++ py " c") fresh_state [] =
    Matched (MkMatch (ticks 1 ++ py "a b" ++ ticks 1) [(2%nat, py "a b"); (1%nat, ticks 1)]).
Proof.
  assert (H1 : py "a b" <> []) by discriminate.
  assert (H2 : match py " c" with c :: _ => c <> 96 | [] => True end) by discriminate.
  split; [exact H1|]. split; [reflexivity|]. split; [exact H2|].
  destruct (InlineCode_match_balanced html_entity 0 (py "a b") (py " c") fresh_state []
              H1 eq_refl H2) as [H _].
  exact H.
Defined.

(** The channel with the id 42 in the reference ordering, as X15 says. *)
Lemma to_html_mention_tokens_witness :
  (order (silent_rules b_strong) < order (silent_rules b_text))%nat /\
  all_digits (py "42") = true /\
  to_html ascii_only ascii_only html_entity (fun _ => None) unit no_lexer
          (fun code _ => code) silent_rules (fun _ _ _ _ => None)
          2 (py "<#" ++ py "42" ++ py ">") (Some (discord_only_options None)) None None
    = Ok (py "<span class=\x22d-mention d-channel\x22>#" ++ py "42" ++ py "</span>").
Proof.
  assert (H : (order (silent_rules b_strong) < order (silent_rules b_text))%nat)
    by (apply Nat.ltb_lt; reflexivity).
  split; [exact H|]. split; [reflexivity|].
  destruct (to_html_mention_tokens ascii_only ascii_only html_entity (fun _ => None) unit
              no_lexer (fun code _ => code) silent_rules (fun _ _ _ _ => None)
              0 (py "42") H eq_refl) as (_ & Hc & _).
  exact Hc.
Defined.

(** A user callback that returns [custom], as X16 says. *)
Lemma to_html_custom_callbacks_witness :
  (order (silent_rules b_strong) < order (silent_rules b_text))%nat /\
  all_digits (py "7") = true /\
  to_html ascii_only ascii_only html_entity (fun _ => None) unit no_lexer
          (fun code _ => code) silent_rules (fun _ _ _ _ => None)
          2 (py "<@" ++ py "7" ++ py ">") (Some (discord_only_options (Some custom_user)))
          None None
    = Ok (py "<span class=\x22d-mention d-user\x22>" ++ py "custom" ++ py "</span>").
Proof.
  assert (H : (order (silent_rules b_strong) < order (silent_rules b_text))%nat)
    by (apply Nat.ltb_lt; reflexivity).
  split; [exact H|]. split; [reflexivity|].
  destruct (to_html_custom_callbacks ascii_only ascii_only html_entity (fun _ => None) unit
              no_lexer (fun code _ => code) silent_rules (fun _ _ _ _ => None)
              0 (py "7") custom_user H eq_refl) as (Hu & _).
  exact (Hu _ eq_refl).
Defined.

(** The static emoji token of the examples in the reference ordering, as
    X17 says. *)
Lemma to_html_emoji_tokens_witness :
  (order (silent_rules b_strong) < order (silent_rules b_text))%nat /\
  py "wave" <> [] /\ forallb (is_word ascii_only) (py "wave") = true /\
  py "999" <> [] /\ forallb (is_digit ascii_only) (py "999") = true /\
  to_html ascii_only ascii_only html_entity (fun _ => None) unit no_lexer
          (fun code _ => code) silent_rules (fun _ _ _ _ => None)
          2 (py "<" ++ [] ++ py ":" ++ py "wave" ++ py ":" ++ py "999" ++ py ">")
          (Some (discord_only_options None)) None None
    = Ok (py "<img class=\x22d-emoji" ++ []
          ++ py "\x22 src=\x22https://cdn.discordapp.com/emojis/" ++ py "999"
          ++ py ".png" ++ py "\x22 alt=\x22:" ++ py "wave" ++ py ":\x22>").
Proof.
  assert (H : (order (silent_rules b_strong) < order (silent_rules b_text))%nat)
    by (apply Nat.ltb_lt; reflexivity).
  assert (H1 : py "wave" <> []) by discriminate.
  assert (H2 : py "999" <> []) by discriminate.
  split; [exact H|]. split; [exact H1|]. split; [reflexivity|].
  split; [exact H2|]. split; [reflexivity|].
  destruct (to_html_emoji_tokens ascii_only ascii_only html_entity (fun _ => None) unit
              no_lexer (fun code _ => code) silent_rules (fun _ _ _ _ => None)
              0 false (py "wave") (py "999") H H1 eq_refl H2 eq_refl) as (He & _).
  exact He.
Defined.

(** Highlighted markup with one tag of class [k] and a table that sends
    [k] to [K]: the tag is replaced by [K], as X19 says. *)
Lemma CodeBlock_html_remaps_span_witness :
  let table : gmap str str := {[ py "k" := py "K" ]} in
  let markup := span_open ++ py "k" ++ py "\x22>" ++ py "def</span>" in
  py "py" <> [] /\ css_module_names (remap_state html_entity table) = Some table /\
  table <> ∅ /\ py "k" <> [] /\ forallb (in_cset class_list) (py "k") = true /\
  no_span (py "def</span>") = true /\ py "def</span>" <> [] /\
  CodeBlock_html html_entity unit (fun _ => Ok (Some tt)) (fun code _ => code)
                 (code_node (py "py") markup false) (fun _ _ => Ok [])
                 (remap_state html_entity table)
    = Ok (py "<pre ><code class=\x22hljs " ++ sanitize_text html_entity (py "py")
          ++ py "\x22>" ++ remapped table (py "k") ++ py "def</span>"
          ++ py "</code></pre>").
Proof.
  intros table markup.
  assert (H1 : py "py" <> []) by discriminate.
  assert (H2 : table <> ∅) by apply map_non_empty_singleton.
  assert (H3 : py "k" <> []) by discriminate.
  assert (H4 : py "def</span>" <> []) by discriminate.
  split; [exact H1|]. split; [reflexivity|]. split; [exact H2|]. split; [exact H3|].
  split; [reflexivity|]. split; [reflexivity|]. split; [exact H4|].
  exact (CodeBlock_html_remaps_span html_entity unit (fun _ => Ok (Some tt))
           (fun code _ => code) (py "py") markup false tt (py "k") (py "def</span>")
           table (fun _ _ => Ok []) (remap_state html_entity table)
           H1 eq_refl eq_refl H2 H3 eq_refl eq_refl H4 eq_refl).
Defined.

(** A block tagged [py] that holds [x=1], as X20 says. *)
Lemma CodeBlock_match_fenced_witness :
  [112; 121] <> [] /\ forallb (in_cset lang_class) [112; 121] = true /\
  [120; 61; 49] <> [] /\ no_tick [120; 61; 49] = true /\
  starts_with [10] [120; 61; 49] = false /\
  starts_with [10] (rev [120; 61; 49]) = false /\
  exec false code_block_re None (fence ++ [112; 121] ++ 10 :: [120; 61; 49] ++ fence ++ []) =
  Some (MkMatch (fence ++ [112; 121] ++ 10 :: [120; 61; 49] ++ fence)
                [(3%nat, [120; 61; 49]); (1%nat, [112; 121] ++ [10]); (2%nat, [112; 121])]).
Proof.
  assert (H1 : [112; 121] <> ([] : str)) by discriminate.
  assert (H2 : [120; 61; 49] <> ([] : str)) by discriminate.
  split; [exact H1|]. split; [reflexivity|]. split; [exact H2|].
  split; [reflexivity|]. split; [reflexivity|]. split; [reflexivity|].
  destruct (CodeBlock_match_fenced [112; 121] [120; 61; 49] [] fresh_state []
              leaf_parse H1 eq_refl H2 eq_refl eq_refl eq_refl) as (_ & H & _).
  exact H.
Defined.

